(** * Table schema: builder, validator, JSON serializer, inference, filter query

    A shallow embedding of the table-schema library
    (col.ts, validate.ts, serialize.ts, infer.ts, types.ts) and of the
    filter-query helpers, followed by the properties established about them.

    Conventions of the embedding.
    - A JavaScript string is a [string] that holds its text in UTF-8 (a
      string with an unpaired surrogate is outside the model); positions in
      it are counted in UTF-16 code units, as JavaScript counts them. An
      optional property is an [option] ([None] stands for an absent property
      and for [undefined], which no reader in the library tells apart).
    - A finite JavaScript number is an exact rational [Q]; [NaN], the
      infinities and the sign of zero are outside the model.
    - A JavaScript object used as an ordered dictionary is the list of its
      own entries, in the order [Object.entries] yields them.
    - A function-valued property (cell renderer, filter component, sheet
      component or condition) is an opaque [Callback] handle.
    - [throw] is a constructor of the result type. *)

From Stdlib Require Import String Ascii List Bool Arith NArith ZArith QArith Lia.
From Stdlib Require Import DecimalString.
Import ListNotations.
Set Warnings "-register-all".
Local Open Scope string_scope.
Local Open Scope list_scope.

(* ================================================================== *)
(** ** JavaScript primitives the library relies on *)
(* ================================================================== *)

Module Js.

(** The double-quote character and the line feed, as one-character
    strings. *)
Definition dquote : string := String "034"%char EmptyString.
Definition newline : string := String "010"%char EmptyString.

(** Truthiness of a string, and of an optional string property. *)
Definition truthy (s : string) : bool := negb (s =? "").

Definition truthy_opt (o : option string) : bool :=
  match o with
  | Some s => truthy s
  | None => false
  end.

(** *** The first code unit of a string

    A character of one, two or three bytes is one UTF-16 code unit; a
    character of four bytes lies outside the Basic Multilingual Plane and is
    a surrogate pair, two code units. [char_bytes c] is the number of bytes
    of the character that the byte [c] begins. *)
Definition char_bytes (c : ascii) : nat :=
  let n := nat_of_ascii c in
  if (n <? 192)%nat then 1%nat
  else if (n <? 224)%nat then 2%nat
  else if (n <? 240)%nat then 3%nat
  else 4%nat.

(** A code unit at the head of a text: a whole character, given as text,
    or the first half of the surrogate pair of a four-byte character, which
    is no text by itself. *)
Inductive CodeUnit :=
| Character (text : string)
| LeadSurrogate.

Definition first_unit (c : ascii) (s : string) : CodeUnit :=
  if (char_bytes c <? 4)%nat
  then Character (substring 0 (char_bytes c) s)
  else LeadSurrogate.

(** [s[0]]: [undefined] on the empty string. *)
Definition index0 (s : string) : option CodeUnit :=
  match s with
  | EmptyString => None
  | String c _ => Some (first_unit c s)
  end.

(** [s.charAt(0)]: the empty string on the empty string. *)
Definition charAt0 (s : string) : CodeUnit :=
  match s with
  | EmptyString => Character ""
  | String c _ => first_unit c s
  end.

(** [s.slice(1)] when the first code unit of [s] is a whole character:
    the text after that character. (After a lead surrogate [s.slice(1)]
    begins with the other half of the pair and is no text; see
    [upper_then_rest].) *)
Definition slice1 (s : string) : string :=
  match s with
  | EmptyString => ""
  | String c _ =>
      substring (char_bytes c) (String.length s - char_bytes c) s
  end.

(** The services of the host that are not written in the library:
    [String.prototype.toUpperCase], the decimal rendering of a number in a
    template literal, and whether [Date.parse] yields [NaN]. *)
Class Runtime := {
  toUpperCase : string -> string;
  Number_toString : Q -> string;
  Date_parse_isNaN : string -> bool
}.

(** [u.toUpperCase() + s.slice(1)], where [u] is [s[0]] or [s.charAt(0)].
    No case mapping applies to a lone surrogate, so [toUpperCase] returns it
    as it is; followed by [s.slice(1)], which begins with the other half of
    the pair, it makes up [s] again. *)
Definition upper_then_rest {host : Runtime} (u : CodeUnit) (s : string)
  : string :=
  match u with
  | Character text => toUpperCase text ++ slice1 s
  | LeadSurrogate => s
  end.

(** *** Objects as ordered dictionaries

    Own string keys are enumerated with the array indices first, in
    ascending numeric order, then the other keys in creation order. *)

Definition digit_of (c : ascii) : option N :=
  let n := N_of_ascii c in
  if ((48 <=? n) && (n <=? 57))%N then Some (n - 48)%N else None.

Fixpoint parse_digits (s : string) (acc : N) : option N :=
  match s with
  | EmptyString => Some acc
  | String c r =>
      match digit_of c with
      | Some d => parse_digits r (acc * 10 + d)%N
      | None => None
      end
  end.

(** A key is an array index when it is the canonical decimal form of an
    integer below 2^32 - 1. *)
Definition array_index (s : string) : option N :=
  match s with
  | EmptyString => None
  | String c r =>
      if (c =? "0")%char && negb (r =? "") then None
      else
        match parse_digits s 0%N with
        | Some n => if (n <? 4294967295)%N then Some n else None
        | None => None
        end
  end.

Section Obj.
Context {V : Type}.

Definition Obj := list (string * V).

Definition keys (o : Obj) : list string := map fst o.

Definition has (k : string) (o : Obj) : bool :=
  existsb (fun e => fst e =? k) o.

Fixpoint get (k : string) (o : Obj) : option V :=
  match o with
  | [] => None
  | (k', v) :: rest => if k' =? k then Some v else get k rest
  end.

(** Overwriting an existing own property keeps its position. *)
Fixpoint overwrite (k : string) (v : V) (o : Obj) : Obj :=
  match o with
  | [] => []
  | (k', v') :: rest =>
      if k' =? k then (k, v) :: rest else (k', v') :: overwrite k v rest
  end.

(** A new array-index key goes before the first larger index and before
    every other key. *)
Fixpoint insert_index (n : N) (k : string) (v : V) (o : Obj) : Obj :=
  match o with
  | [] => [(k, v)]
  | (k', v') :: rest =>
      match array_index k' with
      | Some n' =>
          if (n <? n')%N then (k, v) :: o
          else (k', v') :: insert_index n k v rest
      | None => (k, v) :: o
      end
  end.

(** The own entries of [o] after [o[k] = v] has completed, on an object
    created by the literal [{}]: the key [__proto__] reaches the prototype
    setter and creates no own property. What the new prototype does to
    later assignments depends on the value assigned; for the builders of
    [deserializeSchema] it is in [Serialize.assignColumn]. *)
Definition set (k : string) (v : V) (o : Obj) : Obj :=
  if k =? "__proto__" then o
  else if has k o then overwrite k v o
  else
    match array_index k with
    | Some n => insert_index n k v o
    | None => o ++ [(k, v)]
    end.

(** [Object.entries(o)]. *)
Definition entries (o : Obj) : list (string * V) := o.

End Obj.
Arguments Obj V : clear implicits.

End Js.

(* ================================================================== *)
(** ** types.ts *)
(* ================================================================== *)

Module Types.

Inductive ColKind :=
| KString | KNumber | KBoolean | KTimestamp | KEnum | KArray | KRecord.

Inductive FilterType := Input | Checkbox | Slider | Timerange.

Definition FilterType_eqb (a b : FilterType) : bool :=
  match a, b with
  | Input, Input | Checkbox, Checkbox | Slider, Slider
  | Timerange, Timerange => true
  | _, _ => false
  end.

(** A function value, known only by its identity. *)
Inductive Callback := Closure (id : nat).

(** [Option] of the data-table component types: a label and a scalar. *)
Inductive OptionValue :=
| OStr (s : string)
| ONum (n : Q)
| OBool (b : bool).

Record Option_ := { opt_label : string; opt_value : OptionValue }.

(** [DatePreset] of the data-table component types, kept opaque. *)
Inductive DatePreset := Preset (id : nat).

(** [DisplayConfig], as the object the builder stores: a type tag and the
    properties some tags carry. *)
Record DisplayConfig := {
  d_type : string;
  d_unit : option string;
  d_cell : option Callback
}.

Record FilterConfig := {
  f_type : FilterType;
  f_defaultOpen : bool;
  f_commandDisabled : bool;
  f_options : option (list Option_);
  f_component : option Callback;
  f_min : option Q;
  f_max : option Q;
  f_presets : option (list DatePreset)
}.

Record SheetConfig := {
  s_label : option string;
  s_component : option Callback;
  s_condition : option Callback;
  s_className : option string;
  s_skeletonClassName : option string
}.

Inductive ColConfig := mkColConfig {
  c_kind : ColKind;
  c_enumValues : option (list string);
  c_arrayItem : option ColConfig;
  c_optional : bool;
  c_label : string;
  c_description : option string;
  c_display : DisplayConfig;
  c_size : option Q;
  c_hidden : bool;
  c_sortable : bool;
  c_filter : option FilterConfig;
  c_sheet : option SheetConfig
}.

(** A builder is a closure over its configuration, read back through
    the [_config] getter. *)
Record ColBuilder := createColBuilder { _config : ColConfig }.

Definition TableSchemaDefinition := Js.Obj ColBuilder.

(** *** Serializable descriptors *)

Record FilterDescriptor := {
  fd_type : FilterType;
  fd_defaultOpen : bool;
  fd_commandDisabled : bool;
  fd_options : option (list Option_);
  fd_min : option Q;
  fd_max : option Q
}.

Record SheetDescriptor := {
  sd_label : option string;
  sd_className : option string;
  sd_skeletonClassName : option string
}.

Record ArrayItemType := {
  ai_dataType : ColKind;
  ai_enumValues : option (list string)
}.

Record DisplayDescriptor := {
  dd_type : string;
  dd_unit : option string
}.

Record ColumnDescriptor := {
  cd_key : string;
  cd_label : string;
  cd_description : option string;
  cd_dataType : ColKind;
  cd_enumValues : option (list string);
  cd_arrayItemType : option ArrayItemType;
  cd_optional : bool;
  cd_hidden : bool;
  cd_sortable : bool;
  cd_size : option Q;
  cd_display : DisplayDescriptor;
  cd_filter : option FilterDescriptor;
  cd_sheet : option SheetDescriptor
}.

Record SchemaJSON := { columns : list ColumnDescriptor }.

End Types.

(* ================================================================== *)
(** ** col.ts *)
(* ================================================================== *)

Module Col.
Import Types.

(** *** Object spread with one property overridden *)

Definition with_label (c : ColConfig) (x : string) : ColConfig :=
  mkColConfig (c_kind c) (c_enumValues c) (c_arrayItem c) (c_optional c)
    x (c_description c) (c_display c) (c_size c) (c_hidden c)
    (c_sortable c) (c_filter c) (c_sheet c).

Definition with_description (c : ColConfig) (x : option string)
  : ColConfig :=
  mkColConfig (c_kind c) (c_enumValues c) (c_arrayItem c) (c_optional c)
    (c_label c) x (c_display c) (c_size c) (c_hidden c)
    (c_sortable c) (c_filter c) (c_sheet c).

Definition with_display (c : ColConfig) (x : DisplayConfig) : ColConfig :=
  mkColConfig (c_kind c) (c_enumValues c) (c_arrayItem c) (c_optional c)
    (c_label c) (c_description c) x (c_size c) (c_hidden c)
    (c_sortable c) (c_filter c) (c_sheet c).

Definition with_filter (c : ColConfig) (x : option FilterConfig)
  : ColConfig :=
  mkColConfig (c_kind c) (c_enumValues c) (c_arrayItem c) (c_optional c)
    (c_label c) (c_description c) (c_display c) (c_size c) (c_hidden c)
    (c_sortable c) x (c_sheet c).

Definition with_hidden (c : ColConfig) (x : bool) : ColConfig :=
  mkColConfig (c_kind c) (c_enumValues c) (c_arrayItem c) (c_optional c)
    (c_label c) (c_description c) (c_display c) (c_size c) x
    (c_sortable c) (c_filter c) (c_sheet c).

Definition with_size (c : ColConfig) (x : option Q) : ColConfig :=
  mkColConfig (c_kind c) (c_enumValues c) (c_arrayItem c) (c_optional c)
    (c_label c) (c_description c) (c_display c) x (c_hidden c)
    (c_sortable c) (c_filter c) (c_sheet c).

Definition with_sortable (c : ColConfig) (x : bool) : ColConfig :=
  mkColConfig (c_kind c) (c_enumValues c) (c_arrayItem c) (c_optional c)
    (c_label c) (c_description c) (c_display c) (c_size c) (c_hidden c)
    x (c_filter c) (c_sheet c).

Definition with_optional (c : ColConfig) (x : bool) : ColConfig :=
  mkColConfig (c_kind c) (c_enumValues c) (c_arrayItem c) x
    (c_label c) (c_description c) (c_display c) (c_size c) (c_hidden c)
    (c_sortable c) (c_filter c) (c_sheet c).

Definition with_sheet (c : ColConfig) (x : option SheetConfig)
  : ColConfig :=
  mkColConfig (c_kind c) (c_enumValues c) (c_arrayItem c) (c_optional c)
    (c_label c) (c_description c) (c_display c) (c_size c) (c_hidden c)
    (c_sortable c) (c_filter c) x.

Definition filter_with_defaultOpen (f : FilterConfig) (x : bool)
  : FilterConfig :=
  {| f_type := f_type f; f_defaultOpen := x;
     f_commandDisabled := f_commandDisabled f; f_options := f_options f;
     f_component := f_component f; f_min := f_min f; f_max := f_max f;
     f_presets := f_presets f |}.

Definition filter_with_commandDisabled (f : FilterConfig) (x : bool)
  : FilterConfig :=
  {| f_type := f_type f; f_defaultOpen := f_defaultOpen f;
     f_commandDisabled := x; f_options := f_options f;
     f_component := f_component f; f_min := f_min f; f_max := f_max f;
     f_presets := f_presets f |}.

(** *** Argument bags of [display] and [filterable]

    The second argument of [display] carries a unit or a cell renderer;
    the one of [filterable] carries what the overloads of the interface
    accept. A field is [None] when the bag does not have the property. *)

Record DisplayOptions := {
  do_unit : option string;
  do_cell : option Callback
}.

Record FilterOptions := {
  fo_options : option (list Option_);
  fo_component : option Callback;
  fo_min : option Q;
  fo_max : option Q;
  fo_presets : option (list DatePreset)
}.

Definition no_filter_options : FilterOptions :=
  {| fo_options := None; fo_component := None; fo_min := None;
     fo_max := None; fo_presets := None |}.

Definition empty_sheet : SheetConfig :=
  {| s_label := None; s_component := None; s_condition := None;
     s_className := None; s_skeletonClassName := None |}.

(** *** The methods of a builder *)

Definition label (b : ColBuilder) (text : string) : ColBuilder :=
  createColBuilder (with_label (_config b) text).

Definition description (b : ColBuilder) (text : string) : ColBuilder :=
  createColBuilder (with_description (_config b) (Some text)).

Definition display (b : ColBuilder) (type : string)
    (options : option DisplayOptions) : ColBuilder :=
  let displayConfig :=
    match options with
    | Some o => {| d_type := type; d_unit := do_unit o; d_cell := do_cell o |}
    | None => {| d_type := type; d_unit := None; d_cell := None |}
    end in
  createColBuilder (with_display (_config b) displayConfig).

Definition filterable (b : ColBuilder) (type : option FilterType)
    (options : option FilterOptions) : ColBuilder :=
  let config := _config b in
  let existing := c_filter config in
  let filterType :=
    match type with
    | Some t => t
    | None =>
        match existing with
        | Some f => f_type f
        | None => Input
        end
    end in
  let o :=
    match options with
    | Some o => o
    | None => no_filter_options
    end in
  let newFilter :=
    {| f_type := filterType;
       f_defaultOpen :=
         match existing with Some f => f_defaultOpen f | None => false end;
       f_commandDisabled :=
         match existing with
         | Some f => f_commandDisabled f
         | None => false
         end;
       f_options := fo_options o;
       f_component := fo_component o;
       f_min := fo_min o;
       f_max := fo_max o;
       f_presets := fo_presets o |} in
  createColBuilder (with_filter config (Some newFilter)).

Definition notFilterable (b : ColBuilder) : ColBuilder :=
  createColBuilder (with_filter (_config b) None).

Definition defaultOpen (b : ColBuilder) : ColBuilder :=
  let config := _config b in
  match c_filter config with
  | None => createColBuilder config
  | Some f =>
      createColBuilder
        (with_filter config (Some (filter_with_defaultOpen f true)))
  end.

Definition commandDisabled (b : ColBuilder) : ColBuilder :=
  let config := _config b in
  match c_filter config with
  | None => createColBuilder config
  | Some f =>
      createColBuilder
        (with_filter config (Some (filter_with_commandDisabled f true)))
  end.

Definition hidden (b : ColBuilder) : ColBuilder :=
  createColBuilder (with_hidden (_config b) true).

Definition size (b : ColBuilder) (px : Q) : ColBuilder :=
  createColBuilder (with_size (_config b) (Some px)).

Definition sortable (b : ColBuilder) : ColBuilder :=
  createColBuilder (with_sortable (_config b) true).

Definition optional (b : ColBuilder) : ColBuilder :=
  createColBuilder (with_optional (_config b) true).

Definition sheet (b : ColBuilder) (sheetConfig : option SheetConfig)
  : ColBuilder :=
  createColBuilder
    (with_sheet (_config b)
       (Some match sheetConfig with
             | Some s => s
             | None => empty_sheet
             end)).

(** *** The factories *)

Definition plain_display (type : String.string) : DisplayConfig :=
  {| d_type := type; d_unit := None; d_cell := None |}.

Definition plain_filter (type : FilterType) : FilterConfig :=
  {| f_type := type; f_defaultOpen := false; f_commandDisabled := false;
     f_options := None; f_component := None; f_min := None; f_max := None;
     f_presets := None |}.

Definition yes_no : list Option_ :=
  [ {| opt_label := "Yes"; opt_value := OBool true |};
    {| opt_label := "No"; opt_value := OBool false |} ].

Definition string : ColBuilder :=
  createColBuilder
    (mkColConfig KString None None false "" None (plain_display "text")
       None false false (Some (plain_filter Input)) None).

Definition number : ColBuilder :=
  createColBuilder
    (mkColConfig KNumber None None false "" None (plain_display "number")
       None false false (Some (plain_filter Input)) None).

Definition boolean : ColBuilder :=
  createColBuilder
    (mkColConfig KBoolean None None false "" None (plain_display "boolean")
       None false false
       (Some {| f_type := Checkbox; f_defaultOpen := false;
                f_commandDisabled := false; f_options := Some yes_no;
                f_component := None; f_min := None; f_max := None;
                f_presets := None |})
       None).

Definition timestamp : ColBuilder :=
  createColBuilder
    (mkColConfig KTimestamp None None false "" None
       (plain_display "timestamp") None false false
       (Some (plain_filter Timerange)) None).

Definition colEnum (values : list String.string) : ColBuilder :=
  createColBuilder
    (mkColConfig KEnum (Some values) None false "" None
       (plain_display "badge") None false false
       (Some (plain_filter Checkbox)) None).

Definition array (itemBuilder : ColBuilder) : ColBuilder :=
  createColBuilder
    (mkColConfig KArray None (Some (_config itemBuilder)) false "" None
       (plain_display "badge") None false false
       (Some (plain_filter Checkbox)) None).

Definition record : ColBuilder :=
  createColBuilder
    (mkColConfig KRecord None None false "" None (plain_display "text")
       None false false None None).

End Col.

(* ================================================================== *)
(** ** validate.ts *)
(* ================================================================== *)

Module Validate.
Import Types Js.

(** What a call to [validateSchema] does: return normally, throw the
    [Error] it builds, or hit the [TypeError] of calling a method on
    [undefined]. *)
Inductive Outcome :=
| Returns
| ThrowsError (message : string)
| ThrowsTypeError.

(** UTF-8 bytes of the dash in the third message. *)
Definition em_dash : string :=
  String "226"%char (String "128"%char (String "148"%char EmptyString)).

(** [a > b] on finite numbers, where it is the negation of [a <= b]. (With
    a [NaN] operand, which is outside the model, JavaScript makes both
    comparisons false.) *)
Definition gt (a b : Q) : bool := negb (Qle_bool a b).

Section WithRuntime.
Context {host : Runtime}.

Definition missing_label_message (key : string) (first : CodeUnit)
  : string :=
  "[createTableSchema] Column " ++ dquote ++ key ++ dquote
    ++ " is missing a label." ++ newline
    ++ "  Fix: .label(" ++ dquote ++ upper_then_rest first key
    ++ dquote ++ ")".

Definition missing_bounds_message (key : string) : string :=
  "[createTableSchema] Column " ++ dquote ++ key ++ dquote
    ++ ": slider filter is missing min/max bounds." ++ newline
    ++ "  Fix: .filterable(" ++ dquote ++ "slider" ++ dquote
    ++ ", { min: 0, max: 100 })".

Definition bounds_order_message (key : string) (min max : Q) : string :=
  "[createTableSchema] Column " ++ dquote ++ key ++ dquote
    ++ ": slider min (" ++ Number_toString min
    ++ ") must be less than max (" ++ Number_toString max ++ ")."
    ++ newline
    ++ "  Fix: swap the values " ++ em_dash ++ " .filterable(" ++ dquote
    ++ "slider" ++ dquote ++ ", { min: " ++ Number_toString max
    ++ ", max: " ++ Number_toString min ++ " })".

(** The body of the loop, for one entry of the definition. *)
Definition validateColumn (key : string) (builder : ColBuilder)
  : Outcome :=
  let c := _config builder in
  if negb (truthy (c_label c)) then
    match index0 key with
    | None => ThrowsTypeError
    | Some first => ThrowsError (missing_label_message key first)
    end
  else
    match c_filter c with
    | Some f =>
        match f_type f with
        | Slider =>
            match f_min f, f_max f with
            | Some min, Some max =>
                if gt min max
                then ThrowsError (bounds_order_message key min max)
                else Returns
            | _, _ => ThrowsError (missing_bounds_message key)
            end
        | _ => Returns
        end
    | None => Returns
    end.

Fixpoint validateEntries (es : list (string * ColBuilder)) : Outcome :=
  match es with
  | [] => Returns
  | (key, builder) :: rest =>
      match validateColumn key builder with
      | Returns => validateEntries rest
      | thrown => thrown
      end
  end.

Definition validateSchema (definition : TableSchemaDefinition)
  : Outcome :=
  validateEntries (entries definition).

End WithRuntime.

End Validate.

(* ================================================================== *)
(** ** serialize.ts *)
(* ================================================================== *)

Module Serialize.
Import Types Js.

Definition serializeFilter (filter : option FilterConfig)
  : option FilterDescriptor :=
  match filter with
  | None => None
  | Some filter =>
      Some {| fd_type := f_type filter;
              fd_defaultOpen := f_defaultOpen filter;
              fd_commandDisabled := f_commandDisabled filter;
              fd_options :=
                match f_options filter with
                | Some options =>
                    Some (map (fun o => {| opt_label := opt_label o;
                                           opt_value := opt_value o |})
                            options)
                | None => None
                end;
              fd_min := f_min filter;
              fd_max := f_max filter |}
  end.

(** A property is copied when it is truthy. *)
Definition keep_truthy (o : option string) : option string :=
  if truthy_opt o then o else None.

Definition serializeSheet (sheet : option SheetConfig)
  : option SheetDescriptor :=
  match sheet with
  | None => None
  | Some sheet =>
      Some {| sd_label := keep_truthy (s_label sheet);
              sd_className := keep_truthy (s_className sheet);
              sd_skeletonClassName :=
                keep_truthy (s_skeletonClassName sheet) |}
  end.

(** The callback given to [map] in [serializeSchema]. *)
Definition serializeEntry (e : string * ColBuilder) : ColumnDescriptor :=
  let '(key, builder) := e in
  let c := _config builder in
  {| cd_key := key;
     cd_label := c_label c;
     cd_description := keep_truthy (c_description c);
     cd_dataType := c_kind c;
     cd_enumValues := c_enumValues c;
     cd_arrayItemType :=
       match c_arrayItem c with
       | Some item =>
           Some {| ai_dataType := c_kind item;
                   ai_enumValues := c_enumValues item |}
       | None => None
       end;
     cd_optional := c_optional c;
     cd_hidden := c_hidden c;
     cd_sortable := c_sortable c;
     cd_size := c_size c;
     cd_display :=
       if (d_type (c_display c) =? "number")
          && truthy_opt (d_unit (c_display c))
       then {| dd_type := "number"; dd_unit := d_unit (c_display c) |}
       else {| dd_type := d_type (c_display c); dd_unit := None |};
     cd_filter := serializeFilter (c_filter c);
     cd_sheet := serializeSheet (c_sheet c) |}.

Definition serializeSchema (definition : TableSchemaDefinition)
  : SchemaJSON :=
  {| columns := map serializeEntry (entries definition) |}.

Definition defaultDisplayType (kind : ColKind) : string :=
  match kind with
  | KEnum | KArray => "badge"
  | KBoolean => "boolean"
  | KTimestamp => "timestamp"
  | KNumber => "number"
  | KString | KRecord => "text"
  end.

(** Step 1 of the loop body: the factory. *)
Definition pickFactory (col_ : ColumnDescriptor) : ColBuilder :=
  match cd_dataType col_, cd_enumValues col_ with
  | KEnum, Some values => Col.colEnum values
  | _, _ =>
      match cd_dataType col_, cd_arrayItemType col_ with
      | KArray, Some {| ai_dataType := KEnum; ai_enumValues := Some values |}
          => Col.array (Col.colEnum values)
      | _, _ =>
          match cd_dataType col_ with
          | KBoolean => Col.boolean
          | KTimestamp => Col.timestamp
          | KNumber => Col.number
          | KRecord => Col.record
          | _ => Col.string
          end
      end
  end.

(** Step 3: the display, replayed for the six reconstructible cases. *)
Definition replayDisplay (col_ : ColumnDescriptor) (builder : ColBuilder)
  : ColBuilder :=
  let displayType :=
    if dd_type (cd_display col_) =? "custom"
    then defaultDisplayType (cd_dataType col_)
    else dd_type (cd_display col_) in
  if (displayType =? "number") && truthy_opt (dd_unit (cd_display col_))
  then
    Col.display builder "number"
      (Some {| Col.do_unit := dd_unit (cd_display col_);
               Col.do_cell := None |})
  else if (displayType =? "text") || (displayType =? "code")
          || (displayType =? "boolean") || (displayType =? "badge")
          || (displayType =? "timestamp")
  then Col.display builder displayType None
  else builder.

(** Step 4: the filter. *)
Definition replayFilter (col_ : ColumnDescriptor) (builder : ColBuilder)
  : ColBuilder :=
  match cd_filter col_ with
  | None => Col.notFilterable builder
  | Some f =>
      let builder :=
        match fd_type f, fd_min f, fd_max f with
        | Slider, Some min, Some max =>
            Col.filterable builder (Some Slider)
              (Some {| Col.fo_options := None; Col.fo_component := None;
                       Col.fo_min := Some min; Col.fo_max := Some max;
                       Col.fo_presets := None |})
        | Checkbox, _, _ =>
            Col.filterable builder (Some Checkbox)
              (Some {| Col.fo_options := fd_options f;
                       Col.fo_component := None; Col.fo_min := None;
                       Col.fo_max := None; Col.fo_presets := None |})
        | Timerange, _, _ => Col.filterable builder (Some Timerange) None
        | _, _, _ => Col.filterable builder (Some Input) None
        end in
      let builder :=
        if fd_defaultOpen f then Col.defaultOpen builder else builder in
      if fd_commandDisabled f then Col.commandDisabled builder else builder
  end.

(** Step 2: label and description. *)
Definition replayLabel (col_ : ColumnDescriptor) (builder : ColBuilder)
  : ColBuilder :=
  let builder := Col.label builder (cd_label col_) in
  match cd_description col_ with
  | Some text => if truthy text then Col.description builder text else builder
  | None => builder
  end.

(** Step 5: the structural modifiers. *)
Definition replayModifiers (col_ : ColumnDescriptor) (builder : ColBuilder)
  : ColBuilder :=
  let builder := if cd_hidden col_ then Col.hidden builder else builder in
  let builder := if cd_sortable col_ then Col.sortable builder else builder in
  let builder := if cd_optional col_ then Col.optional builder else builder in
  match cd_size col_ with
  | Some px => Col.size builder px
  | None => builder
  end.

(** Step 6: the sheet. *)
Definition replaySheet (col_ : ColumnDescriptor) (builder : ColBuilder)
  : ColBuilder :=
  match cd_sheet col_ with
  | Some sheet =>
      Col.sheet builder
        (Some {| s_label := keep_truthy (sd_label sheet);
                 s_component := None;
                 s_condition := None;
                 s_className := keep_truthy (sd_className sheet);
                 s_skeletonClassName :=
                   keep_truthy (sd_skeletonClassName sheet) |})
  | None => builder
  end.

(** The body of the loop of [deserializeSchema], steps 1 to 6. *)
Definition deserializeColumn (col_ : ColumnDescriptor) : ColBuilder :=
  let builder := pickFactory col_ in
  let builder := replayLabel col_ builder in
  let builder := replayDisplay col_ builder in
  let builder := replayFilter col_ builder in
  let builder := replayModifiers col_ builder in
  replaySheet col_ builder.

(** The definition at the end of the loop, when every assignment has
    completed. *)
Definition deserializeSchema (json : SchemaJSON) : TableSchemaDefinition :=
  fold_left
    (fun definition col_ =>
       set (cd_key col_) (deserializeColumn col_) definition)
    (columns json) [].

(** One turn of the loop, with the one way in which the assignment
    [definition[col_.key] = builder] does not complete. The key
    [__proto__] makes the builder the prototype of [definition]. From then
    on a key [_config] that is no own key of [definition] is found on that
    builder, where it is an accessor without setter, and the assignment
    throws a TypeError (a module is strict code). Every other property of a
    builder or of [Object.prototype] is a writable data property, which an
    assignment shadows with an own property. The state is the own entries
    of [definition] and whether its prototype is a builder; [None] is the
    TypeError. *)
Definition assignColumn (state : option (TableSchemaDefinition * bool))
    (col_ : ColumnDescriptor) : option (TableSchemaDefinition * bool) :=
  match state with
  | None => None
  | Some (definition, inherits) =>
      let builder := deserializeColumn col_ in
      if cd_key col_ =? "__proto__" then Some (definition, true)
      else if inherits && (cd_key col_ =? "_config")
              && negb (has (cd_key col_) definition)
      then None
      else Some (set (cd_key col_) builder definition, inherits)
  end.

(** [deserializeSchema] as it runs: the definition it returns, or [None]
    when it throws. *)
Definition runDeserializeSchema (json : SchemaJSON)
  : option TableSchemaDefinition :=
  option_map fst (fold_left assignColumn (columns json) (Some ([], false))).

End Serialize.

(* ================================================================== *)
(** ** to-typescript.ts, the display step *)
(* ================================================================== *)

Module ToTypeScript.
Import Types Js.

Section BuildChain.
(** [JSON.stringify] on a string, a service of the host. *)
Variable JSON_stringify : string -> string.

(** Step 4 of [buildChain]: the parts it pushes for the display of a
    descriptor. Every display but text is written out, the number display
    without unit included. *)
Definition displayParts (c : ColumnDescriptor) : list string :=
  let dt := dd_type (cd_display c) in
  let otherwise :=
    if negb (dt =? "text")
    then [(".display(" ++ JSON_stringify dt ++ ")")%string]
    else [] in
  match dd_unit (cd_display c) with
  | Some unit =>
      if (dt =? "number") && truthy unit
      then [(".display(" ++ dquote ++ "number" ++ dquote ++ ", { unit: "
               ++ JSON_stringify unit ++ " })")%string]
      else otherwise
  | None => otherwise
  end.

End BuildChain.

End ToTypeScript.

(* ================================================================== *)
(** ** infer.ts *)
(* ================================================================== *)

Module Infer.
Import Types Js.

(** An untyped datum of the sample: what [JSON.parse] can produce, with
    finite numbers, and [undefined]. An object is the list of its
    entries. *)
Inductive jsval :=
| JNull
| JUndefined
| JBool (b : bool)
| JNum (n : Q)
| JStr (s : string)
| JArr (items : list jsval)
| JObj (props : list (string * jsval)).

Definition UNIX_MS_MIN : Q := 1000000000000 # 1.
Definition UNIX_MS_MAX : Q := 9999999999999 # 1.

(** *** Character classes and the two regular expressions *)

Definition between (lo hi c : ascii) : bool :=
  ((nat_of_ascii lo <=? nat_of_ascii c)
   && (nat_of_ascii c <=? nat_of_ascii hi))%nat.

Definition is_digit (c : ascii) : bool := between "0" "9" c.
Definition is_lower (c : ascii) : bool := between "a" "z" c.
Definition is_upper (c : ascii) : bool := between "A" "Z" c.

(** The class after [T]: a digit, colon, dot, [Z], plus or minus. *)
Definition is_time_char (c : ascii) : bool :=
  is_digit c || (c =? ":")%char || (c =? ".")%char || (c =? "Z")%char
  || (c =? "+")%char || (c =? "-")%char.

(** Four digits, dash, two digits, dash, two digits, then nothing or [T]
    and at least one character of the class, up to the end. *)
Definition matches_iso_shape (value : string) : bool :=
  match list_ascii_of_string value with
  | y1 :: y2 :: y3 :: y4 :: s1 :: m1 :: m2 :: s2 :: d1 :: d2 :: rest =>
      is_digit y1 && is_digit y2 && is_digit y3 && is_digit y4
      && (s1 =? "-")%char && is_digit m1 && is_digit m2
      && (s2 =? "-")%char && is_digit d1 && is_digit d2
      && match rest with
         | [] => true
         | t :: tail =>
             (t =? "T")%char
             && negb (Nat.eqb (List.length tail) 0)
             && forallb is_time_char tail
         end
  | _ => false
  end.

Fixpoint underscores_to_spaces (s : string) : string :=
  match s with
  | EmptyString => EmptyString
  | String c r =>
      String (if (c =? "_")%char then " "%char else c)
        (underscores_to_spaces r)
  end.

(** A space between each lower-case letter and the upper-case letter that
    follows it. *)
Fixpoint split_camel (s : string) : string :=
  match s with
  | EmptyString => EmptyString
  | String a t =>
      match t with
      | EmptyString => String a EmptyString
      | String b _ =>
          if is_lower a && is_upper b
          then String a (String " "%char (split_camel t))
          else String a (split_camel t)
      end
  end.

(** *** [Math.min], [Math.max] and [Set] *)

Definition qmin (a b : Q) : Q := if Qle_bool a b then a else b.
Definition qmax (a b : Q) : Q := if Qle_bool a b then b else a.

(** [Math.min(...nums)] and [Math.max(...nums)] on finite numbers; [None]
    on the empty list, where JavaScript yields an infinity. (With a [NaN]
    argument, which is outside the model, both yield [NaN].) *)
Definition Math_min (nums : list Q) : option Q :=
  match nums with
  | [] => None
  | x :: xs => Some (fold_left qmin xs x)
  end.

Definition Math_max (nums : list Q) : option Q :=
  match nums with
  | [] => None
  | x :: xs => Some (fold_left qmax xs x)
  end.

Definition mem (x : string) (l : list string) : bool :=
  existsb (fun y => y =? x) l.

Definition Set_add (set : list string) (x : string) : list string :=
  if mem x set then set else set ++ [x].

(** [new Set(items)], as its elements in insertion order. *)
Definition new_Set (items : list string) : list string :=
  fold_left Set_add items [].

(** *** Tests on values *)

Definition is_nullish (v : jsval) : bool :=
  match v with
  | JNull | JUndefined => true
  | _ => false
  end.

Definition is_string (v : jsval) : bool :=
  match v with JStr _ => true | _ => false end.

Definition is_number (v : jsval) : bool :=
  match v with JNum _ => true | _ => false end.

Definition is_boolean (v : jsval) : bool :=
  match v with JBool _ => true | _ => false end.

Definition Array_isArray (v : jsval) : bool :=
  match v with JArr _ => true | _ => false end.

Definition typeof_is_object (v : jsval) : bool :=
  match v with
  | JNull | JArr _ | JObj _ => true
  | _ => false
  end.

Definition strings_of (vs : list jsval) : list string :=
  flat_map (fun v => match v with JStr s => [s] | _ => [] end) vs.

Definition numbers_of (vs : list jsval) : list Q :=
  flat_map (fun v => match v with JNum n => [n] | _ => [] end) vs.

(** [vs.flat()]: one level of nesting removed. *)
Definition flat (vs : list jsval) : list jsval :=
  flat_map (fun v => match v with JArr items => items | _ => [v] end) vs.

Definition Number_isInteger (value : Q) : bool :=
  (Qnum value mod Zpos (Qden value) =? 0)%Z.

Definition isUnixMs (value : Q) : bool :=
  Number_isInteger value
  && Qle_bool UNIX_MS_MIN value && Qle_bool value UNIX_MS_MAX.

Definition plain_filter (type : FilterType) : FilterDescriptor :=
  {| fd_type := type; fd_defaultOpen := false;
     fd_commandDisabled := false; fd_options := None; fd_min := None;
     fd_max := None |}.

Definition enum_options (enumValues : list string) : list Option_ :=
  map (fun v => {| opt_label := v; opt_value := OStr v |}) enumValues.

Definition displayMap (dataType : ColKind) : string :=
  match dataType with
  | KString => "text"
  | KNumber => "number"
  | KBoolean => "boolean"
  | KTimestamp => "timestamp"
  | KEnum => "badge"
  | KArray => "badge"
  | KRecord => "text"
  end.

Definition makeDescriptor (key label : string) (dataType : ColKind)
    (filter : option FilterDescriptor) : ColumnDescriptor :=
  {| cd_key := key;
     cd_label := label;
     cd_description := None;
     cd_dataType := dataType;
     cd_enumValues := None;
     cd_arrayItemType := None;
     cd_optional := false;
     cd_hidden := false;
     cd_sortable := false;
     cd_size := None;
     cd_display := {| dd_type := displayMap dataType; dd_unit := None |};
     cd_filter := filter;
     cd_sheet := None |}.

(** The literal returned for an array whose items form an enumeration. *)
Definition arrayOfEnumDescriptor (key label : string)
    (enumValues : list string) : ColumnDescriptor :=
  {| cd_key := key;
     cd_label := label;
     cd_description := None;
     cd_dataType := KArray;
     cd_enumValues := None;
     cd_arrayItemType :=
       Some {| ai_dataType := KEnum; ai_enumValues := Some enumValues |};
     cd_optional := false;
     cd_hidden := false;
     cd_sortable := false;
     cd_size := None;
     cd_display := {| dd_type := "badge"; dd_unit := None |};
     cd_filter :=
       Some {| fd_type := Checkbox; fd_defaultOpen := false;
               fd_commandDisabled := false;
               fd_options := Some (enum_options enumValues);
               fd_min := None; fd_max := None |};
     cd_sheet := None |}.

(** The literal returned for a string column that is an enumeration. *)
Definition enumDescriptor (key label : string)
    (enumValues : list string) : ColumnDescriptor :=
  {| cd_key := key;
     cd_label := label;
     cd_description := None;
     cd_dataType := KEnum;
     cd_enumValues := Some enumValues;
     cd_arrayItemType := None;
     cd_optional := false;
     cd_hidden := false;
     cd_sortable := false;
     cd_size := None;
     cd_display := {| dd_type := "badge"; dd_unit := None |};
     cd_filter :=
       Some {| fd_type := Checkbox; fd_defaultOpen := false;
               fd_commandDisabled := false;
               fd_options := Some (enum_options enumValues);
               fd_min := None; fd_max := None |};
     cd_sheet := None |}.

Section WithRuntime.
Context {host : Runtime}.

Definition isIso8601 (value : string) : bool :=
  matches_iso_shape value && negb (Date_parse_isNaN value).

Definition keyToLabel (key : string) : string :=
  let label := underscores_to_spaces key in
  let label := split_camel label in
  upper_then_rest (charAt0 label) label.

Definition inferColDescriptor (key : string) (values : list jsval)
  : ColumnDescriptor :=
  let label := keyToLabel key in
  let nonNull := filter (fun v => negb (is_nullish v)) values in
  if Nat.eqb (List.length nonNull) 0 then
    makeDescriptor key label KString (Some (plain_filter Input))
  else if forallb
            (fun v => match v with JStr s => isIso8601 s | _ => false end)
            nonNull then
    makeDescriptor key label KTimestamp (Some (plain_filter Timerange))
  else if forallb
            (fun v => match v with JNum n => isUnixMs n | _ => false end)
            nonNull then
    makeDescriptor key label KTimestamp (Some (plain_filter Timerange))
  else if forallb is_boolean nonNull then
    makeDescriptor key label KBoolean (Some (plain_filter Checkbox))
  else if forallb is_number nonNull then
    let nums := numbers_of nonNull in
    let filter :=
      match Math_min nums, Math_max nums with
      | Some min, Some max =>
          if negb (Qeq_bool min max)
          then {| fd_type := Slider; fd_defaultOpen := false;
                  fd_commandDisabled := false; fd_options := None;
                  fd_min := Some min; fd_max := Some max |}
          else plain_filter Input
      | _, _ =>
          (* not reached: [nonNull] is not empty here *)
          plain_filter Slider
      end in
    (* the spread that follows sets the display [makeDescriptor]
       already chose for a number *)
    makeDescriptor key label KNumber (Some filter)
  else if forallb Array_isArray nonNull then
    let allItems := filter (fun v => negb (is_nullish v)) (flat nonNull) in
    let allStrings :=
      negb (Nat.eqb (List.length allItems) 0)
      && forallb is_string allItems in
    if allStrings
       && (List.length (new_Set (strings_of allItems)) <=? 10)%nat
    then arrayOfEnumDescriptor key label (new_Set (strings_of allItems))
    else makeDescriptor key label KArray None
  else if forallb
            (fun v => typeof_is_object v && negb (Array_isArray v))
            nonNull then
    makeDescriptor key label KRecord None
  else if forallb is_string nonNull then
    let distinct := new_Set (strings_of nonNull) in
    if (List.length distinct <=? 10)%nat
    then enumDescriptor key label distinct
    else makeDescriptor key label KString (Some (plain_filter Input))
  else
    makeDescriptor key label KString (Some (plain_filter Input)).

(** [keyValues.get(key).push(value)], creating the entry at the end of
    the map when the key is new. *)
Fixpoint Map_push (key : string) (value : jsval)
    (keyValues : list (string * list jsval))
  : list (string * list jsval) :=
  match keyValues with
  | [] => [(key, [value])]
  | (k, vs) :: rest =>
      if k =? key then (k, vs ++ [value]) :: rest
      else (k, vs) :: Map_push key value rest
  end.

Definition collectRow (keyValues : list (string * list jsval))
    (row : jsval) : list (string * list jsval) :=
  match row with
  | JObj props =>
      fold_left (fun kv e => Map_push (fst e) (snd e) kv) props keyValues
  | _ => keyValues
  end.

Definition collect (rows : list jsval) : list (string * list jsval) :=
  fold_left collectRow rows [].

Definition inferSchemaFromJSON (data : jsval) : SchemaJSON :=
  match data with
  | JArr rows =>
      {| columns :=
           map (fun e => inferColDescriptor (fst e) (snd e))
             (collect rows) |}
  | _ => {| columns := [] |}
  end.

End WithRuntime.

End Infer.

(* ================================================================== *)
(** ** The filter query language (utils.ts) *)
(* ================================================================== *)

Module FilterQuery.
Import Types Js.

(** Modelled from the spec: the flat object the parser accumulates
    (utils.ts is not part of the sources at hand). *)
Definition FlatObject := Obj string.

(** Modelled from the spec: the tagged result of [deserialize], a success
    carrying the validated object or a failure carrying the validation
    error (utils.ts is missing). *)
Inductive ParseResult (T E : Type) :=
| Success (data : T)
| Failure (error : E).
Arguments Success {T E} data.
Arguments Failure {T E} error.

(** Modelled from the spec: the whitespace that separates tokens (tab,
    line feed, vertical tab, form feed, carriage return, space); the
    splitting code of utils.ts is missing. *)
Definition is_whitespace (c : ascii) : bool :=
  let n := nat_of_ascii c in
  ((9 <=? n) && (n <=? 13) || (n =? 32))%nat.

(** Modelled from the spec: the characters left after a leading run of
    [p], for [trim] (utils.ts is missing). *)
Fixpoint dropWhile (p : ascii -> bool) (l : list ascii) : list ascii :=
  match l with
  | [] => []
  | c :: r => if p c then dropWhile p r else l
  end.

(** Modelled from the spec: [trim] removes the whitespace at both ends
    (the call is in the missing utils.ts). *)
Definition trim (s : string) : string :=
  string_of_list_ascii
    (rev (dropWhile is_whitespace
            (rev (dropWhile is_whitespace (list_ascii_of_string s))))).

(** Modelled from the spec: the input is split at every whitespace
    character (utils.ts is missing); two adjacent separators leave an
    empty token between them. *)
Fixpoint splitWhitespace (s : string) : list string :=
  match s with
  | EmptyString => [""]
  | String c r =>
      if is_whitespace c then "" :: splitWhitespace r
      else
        match splitWhitespace r with
        | t :: ts => String c t :: ts
        | [] => [String c ""]
        end
  end.

(** Modelled from the spec: a token is split on its first colon into a
    name and a value; there is no result when it has no colon (utils.ts is
    missing). *)
Fixpoint splitFirstColon (token : string) : option (string * string) :=
  match token with
  | EmptyString => None
  | String c r =>
      if (c =? ":")%char then Some ("", r)
      else
        match splitFirstColon r with
        | Some (name, value) => Some (String c name, value)
        | None => None
        end
  end.

(** Modelled from the spec: a pair enters the flat object, a repeated
    name taking the later value (utils.ts is missing). *)
Definition assign (name value : string) (o : FlatObject) : FlatObject :=
  if has name o then overwrite name value o else o ++ [(name, value)].

(** Modelled from the spec: what one token does to the object accumulated
    so far (the reducer of the missing utils.ts). *)
Definition step (prev : FlatObject) (token : string) : FlatObject :=
  match splitFirstColon token with
  | None => prev
  | Some (name, value) =>
      if (name =? "") || (value =? "") then prev
      else assign name value prev
  end.

(** Modelled from the spec: trim, split, fold the tokens into the flat
    object (utils.ts is missing). *)
Definition parseObject (input : string) : FlatObject :=
  fold_left step (splitWhitespace (trim input)) [].

(** Modelled from the spec: [deserialize] of the missing utils.ts. The
    schema is the caller's: it accepts the flat object with a typed value
    or rejects it with an error. *)
Definition deserialize {T E : Type} (schema : FlatObject -> T + E)
    (value : string) : ParseResult T E :=
  match schema (parseObject value) with
  | inl data => Success data
  | inr error => Failure error
  end.

(** Modelled from the spec: the value of a filter entry, a scalar or an
    array of scalars (the types of the missing utils.ts and of the table
    component). *)
Inductive Scalar :=
| SString (s : string)
| SNumber (n : Q)
| SBoolean (b : bool).

(** Modelled from the spec: a filter value is a scalar or an array of
    scalars (the column filter state of the table component is missing). *)
Inductive FilterValue :=
| VScalar (v : Scalar)
| VArray (items : list Scalar).

(** Modelled from the spec: a filter entry, a column key and a value (the
    column filter state of the table component is missing). *)
Record ColumnFilter := { id : string; value : FilterValue }.

(** Modelled from the spec: a field descriptor, with the column key it
    stands for, its filter kind and its excluded flag (the component types
    are missing). *)
Record FilterField := {
  ff_value : string;
  ff_type : FilterType;
  ff_commandDisabled : bool
}.

(** Modelled from the spec: the items with the delimiter between them, as
    [Array.prototype.join] (the call is in the missing utils.ts). *)
Fixpoint join (sep : string) (items : list string) : string :=
  match items with
  | [] => ""
  | [x] => x
  | x :: rest => (x ++ sep ++ join sep rest)%string
  end.

Section Codecs.
Context {host : Runtime}.
(** The three delimiters of the missing module lib/delimiters. *)
Variables ARRAY_DELIMITER RANGE_DELIMITER SLIDER_DELIMITER : string.

(** Modelled from the spec: a scalar rendered as it is, the way a template
    literal does (utils.ts is missing). *)
Definition renderScalar (v : Scalar) : string :=
  match v with
  | SString s => s
  | SNumber n => Number_toString n
  | SBoolean true => "true"
  | SBoolean false => "false"
  end.

(** Modelled from the spec: the four codecs (utils.ts is missing). A
    scalar is rendered as it is; an array is joined with the delimiter
    of the kind of the field, and with a comma, as a template literal
    does, under an input field. *)
Definition render (type : FilterType) (v : FilterValue) : string :=
  match v with
  | VScalar x => renderScalar x
  | VArray items =>
      let parts := map renderScalar items in
      match type with
      | Checkbox => join ARRAY_DELIMITER parts
      | Slider => join SLIDER_DELIMITER parts
      | Timerange => join RANGE_DELIMITER parts
      | Input => join "," parts
      end
  end.

(** Modelled from the spec: the field of an entry, when it has one that
    does not exclude it (utils.ts is missing). *)
Definition fieldFor (filterFields : list FilterField)
    (curr : ColumnFilter) : option FilterField :=
  match find (fun field => ff_value field =? id curr) filterFields with
  | Some field => if ff_commandDisabled field then None else Some field
  | None => None
  end.

(** Modelled from the spec: [serializeColumFilters] of the missing
    utils.ts, a left-to-right reduction over the entries. *)
Definition serializeColumFilters (columnFilters : list ColumnFilter)
    (filterFields : list FilterField) : string :=
  fold_left
    (fun prev curr =>
       match fieldFor filterFields curr with
       | None => prev
       | Some field =>
           (prev ++ id curr ++ ":" ++ render (ff_type field) (value curr)
              ++ " ")%string
       end)
    columnFilters "".

End Codecs.

End FilterQuery.

(* ================================================================== *)
(** ** The chainable methods as data, and builders in a store *)
(* ================================================================== *)

Module Chain.
Import Types.

Inductive Mutator :=
| MLabel (text : string)
| MDescription (text : string)
| MDisplay (type : string) (options : option Col.DisplayOptions)
| MFilterable (type : option FilterType)
    (options : option Col.FilterOptions)
| MNotFilterable
| MDefaultOpen
| MCommandDisabled
| MHidden
| MSortable
| MSize (px : Q)
| MOptional
| MSheet (sheetConfig : option SheetConfig).

Definition call (m : Mutator) (b : ColBuilder) : ColBuilder :=
  match m with
  | MLabel text => Col.label b text
  | MDescription text => Col.description b text
  | MDisplay type options => Col.display b type options
  | MFilterable type options => Col.filterable b type options
  | MNotFilterable => Col.notFilterable b
  | MDefaultOpen => Col.defaultOpen b
  | MCommandDisabled => Col.commandDisabled b
  | MHidden => Col.hidden b
  | MSortable => Col.sortable b
  | MSize px => Col.size b px
  | MOptional => Col.optional b
  | MSheet sheetConfig => Col.sheet b sheetConfig
  end.

(** The properties of a configuration. *)
Inductive Field :=
| FKind | FEnumValues | FArrayItem | FOptional | FLabel | FDescription
| FDisplay | FSize | FHidden | FSortable | FFilter | FSheet.

(** The property a method overrides in its spread. *)
Definition target (m : Mutator) : Field :=
  match m with
  | MLabel _ => FLabel
  | MDescription _ => FDescription
  | MDisplay _ _ => FDisplay
  | MFilterable _ _ | MNotFilterable | MDefaultOpen | MCommandDisabled =>
      FFilter
  | MHidden => FHidden
  | MSortable => FSortable
  | MSize _ => FSize
  | MOptional => FOptional
  | MSheet _ => FSheet
  end.

Definition same_at (f : Field) (c c' : ColConfig) : Prop :=
  match f with
  | FKind => c_kind c = c_kind c'
  | FEnumValues => c_enumValues c = c_enumValues c'
  | FArrayItem => c_arrayItem c = c_arrayItem c'
  | FOptional => c_optional c = c_optional c'
  | FLabel => c_label c = c_label c'
  | FDescription => c_description c = c_description c'
  | FDisplay => c_display c = c_display c'
  | FSize => c_size c = c_size c'
  | FHidden => c_hidden c = c_hidden c'
  | FSortable => c_sortable c = c_sortable c'
  | FFilter => c_filter c = c_filter c'
  | FSheet => c_sheet c = c_sheet c'
  end.

(** *** Builders as objects

    Configuration objects live in a store, in allocation order; a builder
    object holds the reference that its closure captured. A spread
    allocates a new object; [createColBuilder(config)] captures the
    object it is given. *)

Definition Ref := nat.
Definition Store := list ColConfig.

Record BuilderObject := { config_ref : Ref }.

Definition alloc (c : ColConfig) (st : Store) : Ref * Store :=
  (List.length st, st ++ [c]).

(** The two methods that pass [config] itself when there is no filter. *)
Definition passes_config_itself (m : Mutator) (config : ColConfig) : bool :=
  match m, c_filter config with
  | MDefaultOpen, None | MCommandDisabled, None => true
  | _, _ => false
  end.

Definition invoke (m : Mutator) (b : BuilderObject) (st : Store)
  : option (BuilderObject * Store) :=
  match nth_error st (config_ref b) with
  | None => None
  | Some config =>
      if passes_config_itself m config
      then Some ({| config_ref := config_ref b |}, st)
      else
        let (r, st') := alloc (_config (call m (createColBuilder config))) st
        in Some ({| config_ref := r |}, st')
  end.

End Chain.

(* ================================================================== *)
(** ** The interface [ColBuilder<T, F>] of types.ts, at the type level *)
(* ================================================================== *)

Module Typed.
Import Types.

(** The parameter [F]: the filter types a builder accepts; [never] is the
    empty set. *)
Definition FilterSet := list FilterType.

Definition member (t : FilterType) (F : FilterSet) : bool :=
  existsb (FilterType_eqb t) F.

Definition is_never (F : FilterSet) : bool :=
  match F with
  | [] => true
  | _ => false
  end.

(** A builder together with its static type. *)
Record TypedBuilder := { legal : FilterSet; builder : ColBuilder }.

Definition string : TypedBuilder :=
  {| legal := [Input]; builder := Col.string |}.
Definition number : TypedBuilder :=
  {| legal := [Input; Slider; Checkbox]; builder := Col.number |}.
Definition boolean : TypedBuilder :=
  {| legal := [Checkbox]; builder := Col.boolean |}.
Definition timestamp : TypedBuilder :=
  {| legal := [Timerange]; builder := Col.timestamp |}.
Definition colEnum (values : list String.string) : TypedBuilder :=
  {| legal := [Checkbox]; builder := Col.colEnum values |}.
Definition array (item : TypedBuilder) : TypedBuilder :=
  {| legal := [Checkbox]; builder := Col.array (builder item) |}.
Definition record : TypedBuilder :=
  {| legal := []; builder := Col.record |}.

(** [notFilterable(): ColBuilder<T, never>]. *)
Definition notFilterable (b : TypedBuilder) : TypedBuilder :=
  {| legal := []; builder := Col.notFilterable (builder b) |}.

(** The shapes of a call to [filterable]. *)
Inductive FilterableArgs :=
| NoArgument
| TypeOnly (type : FilterType)
| TypeAndOptions (type : FilterType) (options : Col.FilterOptions).

Definition is_none {A : Type} (o : option A) : bool :=
  match o with
  | None => true
  | Some _ => false
  end.

(** Whether one of the four overloads accepts the call: the one without
    argument unless [F] is [never]; a type in [F] alone for input,
    timerange and checkbox; checkbox with its options or component;
    slider with both bounds. *)
Definition accepts (F : FilterSet) (args : FilterableArgs) : bool :=
  match args with
  | NoArgument => negb (is_never F)
  | TypeOnly type =>
      member type F
      && match type with
         | Input | Timerange | Checkbox => true
         | Slider => false
         end
  | TypeAndOptions type o =>
      member type F
      && match type with
         | Checkbox =>
             is_none (Col.fo_min o) && is_none (Col.fo_max o)
             && is_none (Col.fo_presets o)
         | Slider =>
             negb (is_none (Col.fo_min o)) && negb (is_none (Col.fo_max o))
             && is_none (Col.fo_options o)
             && is_none (Col.fo_component o)
             && is_none (Col.fo_presets o)
         | Input | Timerange => false
         end
  end.

(** A call the type checker accepts runs the method; [None] is the
    compile-time error. *)
Definition filterable (b : TypedBuilder) (args : FilterableArgs)
  : option TypedBuilder :=
  if accepts (legal b) args then
    Some {| legal := legal b;
            builder :=
              match args with
              | NoArgument => Col.filterable (builder b) None None
              | TypeOnly type => Col.filterable (builder b) (Some type) None
              | TypeAndOptions type o =>
                  Col.filterable (builder b) (Some type) (Some o)
              end |}
  else None.

(** The shape of a call, from the two optional arguments of the method;
    options without a type fit no overload. *)
Definition args_of (type : option FilterType)
    (options : option Col.FilterOptions) : option FilterableArgs :=
  match type, options with
  | None, None => Some NoArgument
  | Some t, None => Some (TypeOnly t)
  | Some t, Some o => Some (TypeAndOptions t o)
  | None, Some _ => None
  end.

(** One call of a chain: [filterable] goes through its overloads,
    [notFilterable] empties the set, and every other method returns a
    [ColBuilder<T, F>] with the [F] it was called on. *)
Definition step (b : TypedBuilder) (m : Chain.Mutator)
  : option TypedBuilder :=
  match m with
  | Chain.MFilterable type options =>
      match args_of type options with
      | Some args => filterable b args
      | None => None
      end
  | Chain.MNotFilterable => Some (notFilterable b)
  | _ => Some {| legal := legal b; builder := Chain.call m (builder b) |}
  end.

(** A chain of calls type-checks when each of its calls does. *)
Fixpoint chain (b : TypedBuilder) (ms : list Chain.Mutator)
  : option TypedBuilder :=
  match ms with
  | [] => Some b
  | m :: rest =>
      match step b m with
      | Some b' => chain b' rest
      | None => None
      end
  end.

End Typed.

(* ================================================================== *)
(** ** generators: filter-fields.ts, sheet-fields.ts, columns.tsx,
    filter-schema.ts *)
(* ================================================================== *)

Module Generators.
Import Types Js.

(** [DataTableFilterField] of the data-table component types, as the
    object literals of [generateFilterFields] build it. [x || undefined]
    leaves [true] or nothing. *)
Record FilterField := {
  ff_label : string;
  ff_value : string;
  ff_defaultOpen : option bool;
  ff_commandDisabled : option bool;
  ff_type : FilterType;
  ff_options : option (list Option_);
  ff_component : option Callback;
  ff_min : option Q;
  ff_max : option Q;
  ff_presets : option (list DatePreset)
}.

Definition or_undefined (x : bool) : option bool :=
  if x then Some true else None.

(** The options of a checkbox field: the ones of the filter, or else the
    ones derived from the kind of the column. *)
Definition checkboxOptions (config : ColConfig) (filter : FilterConfig)
  : option (list Option_) :=
  match f_options filter with
  | Some options => Some options
  | None =>
      match c_kind config, c_enumValues config with
      | KEnum, Some enumValues =>
          Some (map (fun v => {| opt_label := v; opt_value := OStr v |})
                  enumValues)
      | _, _ =>
          match c_kind config with
          | KBoolean => Some Col.yes_no
          | KArray =>
              match c_arrayItem config with
              | Some arrayItem =>
                  match c_kind arrayItem, c_enumValues arrayItem with
                  | KEnum, Some values =>
                      Some (map (fun v => {| opt_label := v;
                                             opt_value := OStr v |})
                              values)
                  | _, _ => None
                  end
              | None => None
              end
          | _ => None
          end
      end
  end.

(** What the loop of [generateFilterFields] pushes for one entry. *)
Definition filterFieldOf (e : string * ColBuilder) : list FilterField :=
  let '(key, builder) := e in
  let config := _config builder in
  match c_filter config with
  | None => []
  | Some filter =>
      let base options component min max presets :=
        {| ff_label := c_label config;
           ff_value := key;
           ff_defaultOpen := or_undefined (f_defaultOpen filter);
           ff_commandDisabled := or_undefined (f_commandDisabled filter);
           ff_type := f_type filter;
           ff_options := options;
           ff_component := component;
           ff_min := min;
           ff_max := max;
           ff_presets := presets |} in
      match f_type filter with
      | Input => [base None None None None None]
      | Timerange => [base None None None None (f_presets filter)]
      | Checkbox =>
          [base (checkboxOptions config filter) (f_component filter)
             None None None]
      | Slider =>
          [base None None
             (Some match f_min filter with Some min => min | None => 0 end)
             (Some match f_max filter with Some max => max | None => 100 end)
             None]
      end
  end.

Definition generateFilterFields (schema : TableSchemaDefinition)
  : list FilterField :=
  flat_map filterFieldOf (entries schema).

(** The type of a sheet field: the filter type, or readonly. *)
Inductive SheetType :=
| SheetFilter (type : FilterType)
| Readonly.

(** [SheetField] of the data-table component types. *)
Record SheetField := {
  sf_id : string;
  sf_label : string;
  sf_type : SheetType;
  sf_component : option Callback;
  sf_condition : option Callback;
  sf_className : option string;
  sf_skeletonClassName : option string
}.

(** What the loop of [generateSheetFields] pushes for one entry. *)
Definition sheetFieldOf (e : string * ColBuilder) : list SheetField :=
  let '(key, builder) := e in
  let config := _config builder in
  match c_sheet config with
  | None => []
  | Some sheetConfig =>
      [ {| sf_id := key;
           sf_label :=
             match s_label sheetConfig with
             | Some label => label
             | None => c_label config
             end;
           sf_type :=
             match c_filter config with
             | Some filterConfig => SheetFilter (f_type filterConfig)
             | None => Readonly
             end;
           sf_component := s_component sheetConfig;
           sf_condition := s_condition sheetConfig;
           sf_className := s_className sheetConfig;
           sf_skeletonClassName := s_skeletonClassName sheetConfig |} ]
  end.

Definition generateSheetFields (schema : TableSchemaDefinition)
  : list SheetField :=
  flat_map sheetFieldOf (entries schema).


Section FilterSchema.
(** The field builders and [createSchema] of the missing module
    lib/store/schema, and the delimiters of lib/delimiters. *)
Variable Field : Type.
Variable Schema : Type.
Variables field_string field_number field_boolean field_timestamp : Field.
Variable field_stringLiteral : list string -> Field.
Variable field_array : Field -> Field.
Variable delimiter : Field -> string -> Field.
Variable createSchema : Obj Field -> Schema.
Variables ARRAY_DELIMITER RANGE_DELIMITER SLIDER_DELIMITER : string.

(** The field the switch of [generateFilterSchema] assigns for a column,
    when it assigns one. *)
Definition filterSchemaField (config : ColConfig) : option Field :=
  match c_filter config with
  | None => None
  | Some filter =>
      match f_type filter with
      | Input =>
          match c_kind config with
          | KString => Some field_string
          | KNumber => Some field_number
          | _ => None
          end
      | Checkbox =>
          match c_kind config, c_enumValues config with
          | KEnum, Some enumValues =>
              Some (field_array (field_stringLiteral enumValues))
          | _, _ =>
              match c_kind config with
              | KNumber =>
                  Some (delimiter (field_array field_number) ARRAY_DELIMITER)
              | KBoolean =>
                  Some (delimiter (field_array field_boolean) ARRAY_DELIMITER)
              | KArray =>
                  match c_arrayItem config with
                  | Some arrayItem =>
                      match c_kind arrayItem, c_enumValues arrayItem with
                      | KEnum, Some values =>
                          Some (field_array (field_stringLiteral values))
                      | _, _ => None
                      end
                  | None => None
                  end
              | _ => None
              end
          end
      | Slider => Some (delimiter (field_array field_number) SLIDER_DELIMITER)
      | Timerange =>
          Some (delimiter (field_array field_timestamp) RANGE_DELIMITER)
      end
  end.

(** The object [definition] at the end of the loop. *)
Definition filterSchemaDefinition (schema : TableSchemaDefinition)
  : Obj Field :=
  fold_left
    (fun definition e =>
       match filterSchemaField (_config (snd e)) with
       | Some f => set (fst e) f definition
       | None => definition
       end)
    (entries schema) [].

Definition generateFilterSchema (schema : TableSchemaDefinition) : Schema :=
  createSchema (filterSchemaDefinition schema).

End FilterSchema.

End Generators.

(* ================================================================== *)
(** ** presets.ts *)
(* ================================================================== *)

Module Presets.
Import Types Js.

Definition DEFAULT_HTTP_STATUS_CODES : list Q :=
  [200; 201; 204; 301; 302; 400; 401; 403; 404; 422; 429; 500; 502; 503; 504].

Definition options_of_values (values : list string) : Col.FilterOptions :=
  {| Col.fo_options :=
       Some (map (fun v => {| opt_label := v; opt_value := OStr v |}) values);
     Col.fo_component := None; Col.fo_min := None; Col.fo_max := None;
     Col.fo_presets := None |}.

Definition logLevel (values : list string) : ColBuilder :=
  Col.defaultOpen
    (Col.filterable (Col.label (Col.colEnum values) "Level") (Some Checkbox)
       (Some (options_of_values values))).

Definition httpMethod (values : list string) : ColBuilder :=
  Col.filterable
    (Col.display (Col.label (Col.colEnum values) "Method") "text" None)
    (Some Checkbox) (Some (options_of_values values)).

Section WithRuntime.
Context {host : Runtime}.

Definition httpStatus (codes : option (list Q)) : ColBuilder :=
  Col.filterable (Col.label Col.number "Status") (Some Checkbox)
    (Some {| Col.fo_options :=
               Some (map (fun code => {| opt_label := Number_toString code;
                                         opt_value := ONum code |})
                       match codes with
                       | Some codes => codes
                       | None => DEFAULT_HTTP_STATUS_CODES
                       end);
             Col.fo_component := None; Col.fo_min := None;
             Col.fo_max := None; Col.fo_presets := None |}).

End WithRuntime.

(** The bounds of a slider, an object with [min] and [max]. *)
Record SliderBounds := { sb_min : Q; sb_max : Q }.

Definition duration (unit : option string) (slider : option SliderBounds)
  : ColBuilder :=
  let bounds :=
    match slider with
    | Some bounds => bounds
    | None => {| sb_min := 0; sb_max := 5000 |}
    end in
  Col.filterable
    (Col.display (Col.label Col.number "Duration") "number"
       (Some {| Col.do_unit := unit; Col.do_cell := None |}))
    (Some Slider)
    (Some {| Col.fo_options := None; Col.fo_component := None;
             Col.fo_min := Some (sb_min bounds);
             Col.fo_max := Some (sb_max bounds); Col.fo_presets := None |}).

Definition timestamp : ColBuilder :=
  Col.sortable
    (Col.display (Col.label Col.timestamp "Timestamp") "timestamp" None).

Definition traceId : ColBuilder :=
  Col.notFilterable
    (Col.display (Col.label Col.string "Trace ID") "code" None).

Definition pathname : ColBuilder :=
  Col.filterable (Col.label Col.string "Pathname") (Some Input) None.

End Presets.

(* ================================================================== *)
(** ** A host for the examples *)
(* ================================================================== *)

Module ExampleHost.
Import Js.

Definition upper_char (c : ascii) : ascii :=
  if Infer.is_lower c then ascii_of_nat (nat_of_ascii c - 32) else c.

Fixpoint upper (s : string) : string :=
  match s with
  | EmptyString => EmptyString
  | String c r => String (upper_char c) (upper r)
  end.

(** Integers in decimal; the integer part of any other number. *)
Definition show_number (n : Q) : string :=
  NilZero.string_of_int (Z.to_int (Qnum n / Zpos (Qden n))).

(** A month from 01 to 12 and a day from 01 to 31 are required. *)
Definition date_is_NaN (s : string) : bool :=
  match list_ascii_of_string s with
  | _ :: _ :: _ :: _ :: _ :: m1 :: m2 :: _ :: d1 :: d2 :: _ =>
      let month := ((nat_of_ascii m1 - 48) * 10 + (nat_of_ascii m2 - 48))%nat in
      let day := ((nat_of_ascii d1 - 48) * 10 + (nat_of_ascii d2 - 48))%nat in
      negb ((1 <=? month) && (month <=? 12) && (1 <=? day) && (day <=? 31))%nat
  | _ => true
  end.

Definition host : Runtime :=
  {| toUpperCase := upper;
     Number_toString := show_number;
     Date_parse_isNaN := date_is_NaN |}.

End ExampleHost.

(* ================================================================== *)
(** * Properties *)
(* ================================================================== *)

Import Types.

(** [needle] occurs in [hay]. *)
Definition includes (needle hay : string) : Prop :=
  exists before after, hay = (before ++ needle ++ after)%string.

Lemma string_app_assoc (a b c : string) :
  ((a ++ b) ++ c)%string = (a ++ (b ++ c))%string.
Proof.
  induction a as [| ch a IH]; simpl; [reflexivity | now rewrite IH].
Qed.

Lemma string_app_nil_r (a : string) : (a ++ "")%string = a.
Proof.
  induction a as [| ch a IH]; simpl; [reflexivity | now rewrite IH].
Qed.

Lemma truthy_false_iff (s : string) : Js.truthy s = false <-> s = "".
Proof.
  unfold Js.truthy. rewrite negb_false_iff. apply String.eqb_eq.
Qed.

Lemma truthy_true_iff (s : string) : Js.truthy s = true <-> s <> "".
Proof.
  unfold Js.truthy. rewrite negb_true_iff. apply String.eqb_neq.
Qed.

(* ------------------------------------------------------------------ *)
(** ** Objects: when assignments enumerate in the order they were made *)
(* ------------------------------------------------------------------ *)

Section OwnKeys.
Context {V : Type}.

(** [k'] may be enumerated before the later-created [k]: an array index
    follows only smaller indices. *)
Definition may_precede (k' k : string) : bool :=
  match Js.array_index k, Js.array_index k' with
  | Some n, Some n' => (n' <? n)%N
  | Some _, None => false
  | None, _ => true
  end.

(** The keys [ks], created in this order after [seen], are distinct own
    keys that enumerate in creation order. *)
Fixpoint creation_ordered (seen ks : list string) : bool :=
  match ks with
  | [] => true
  | k :: rest =>
      negb (k =? "__proto__")
      && negb (existsb (fun k' => k' =? k) seen)
      && forallb (fun k' => may_precede k' k) seen
      && creation_ordered (seen ++ [k]) rest
  end.

Lemma has_keys (k : string) (o : Js.Obj V) :
  Js.has k o = existsb (fun k' => k' =? k) (Js.keys o).
Proof.
  unfold Js.has, Js.keys. induction o as [| [k' v] o IH]; simpl.
  - reflexivity.
  - now rewrite IH.
Qed.

Lemma insert_index_last (n : N) (k : string) (v : V) (o : Js.Obj V) :
  Js.array_index k = Some n ->
  forallb (fun k' => may_precede k' k) (Js.keys o) = true ->
  Js.insert_index n k v o = o ++ [(k, v)].
Proof.
  intros Hk. induction o as [| [k' v'] o IH]; simpl; intros Hall.
  - reflexivity.
  - apply andb_true_iff in Hall. destruct Hall as [H1 H2].
    unfold may_precede in H1. rewrite Hk in H1.
    destruct (Js.array_index k') as [n' |]; [| discriminate].
    apply N.ltb_lt in H1.
    assert (Hlt : (n <? n')%N = false) by (apply N.ltb_ge; lia).
    rewrite Hlt. now rewrite IH.
Qed.

Lemma set_last (k : string) (v : V) (o : Js.Obj V) :
  creation_ordered (Js.keys o) [k] = true ->
  Js.set k v o = o ++ [(k, v)].
Proof.
  simpl. rewrite andb_true_r. intros H.
  apply andb_true_iff in H. destruct H as [H Hord].
  apply andb_true_iff in H. destruct H as [Hproto Hfresh].
  apply negb_true_iff in Hproto. apply negb_true_iff in Hfresh.
  unfold Js.set. rewrite Hproto, has_keys, Hfresh.
  destruct (Js.array_index k) as [n |] eqn:Hk; [| reflexivity].
  now apply insert_index_last.
Qed.

Lemma creation_ordered_head (seen : list string) (k : string)
    (rest : list string) :
  creation_ordered seen (k :: rest) = true ->
  creation_ordered seen [k] = true
  /\ creation_ordered (seen ++ [k]) rest = true.
Proof.
  simpl. rewrite andb_true_r. intros H.
  apply andb_true_iff in H. tauto.
Qed.

(** Assigning, into an object, keys that enumerate in creation order
    appends the entries. *)
Lemma fold_set_appends {A : Type} (key : A -> string) (val : A -> V)
    (xs : list A) (o : Js.Obj V) :
  creation_ordered (Js.keys o) (map key xs) = true ->
  fold_left (fun acc x => Js.set (key x) (val x) acc) xs o
  = o ++ map (fun x => (key x, val x)) xs.
Proof.
  revert o. induction xs as [| x xs IH]; intros o Hord; simpl.
  - now rewrite app_nil_r.
  - simpl in Hord. apply creation_ordered_head in Hord.
    destruct Hord as [Hk Hrest].
    rewrite (set_last _ _ _ Hk).
    rewrite IH.
    + now rewrite <- app_assoc.
    + unfold Js.keys in *. now rewrite map_app.
Qed.

End OwnKeys.

(** Every entry of an object built by assignments was assigned. *)
Lemma set_entries {V : Type} (k : string) (v : V) (o : Js.Obj V)
    (e : string * V) :
  In e (Js.set k v o) -> e = (k, v) \/ In e o.
Proof.
  unfold Js.set.
  destruct (k =? "__proto__"); [tauto |].
  destruct (Js.has k o).
  - induction o as [| [k' v'] o IH]; simpl; [tauto |].
    destruct (k' =? k); simpl; intuition (subst; auto).
  - destruct (Js.array_index k) as [n |].
    + induction o as [| [k' v'] o IH]; simpl; [intuition (subst; auto) |].
      destruct (Js.array_index k') as [n' |].
      * destruct (n <? n')%N; simpl; intuition (subst; auto).
      * simpl; intuition (subst; auto).
    + rewrite in_app_iff. simpl. intuition (subst; auto).
Qed.

(* ------------------------------------------------------------------ *)
(** ** Substrings *)
(* ------------------------------------------------------------------ *)

Fixpoint starts_with (p s : string) : bool :=
  match p, s with
  | EmptyString, _ => true
  | String a p', String b s' => (a =? b)%char && starts_with p' s'
  | String _ _, EmptyString => false
  end.

Fixpoint includesb (needle hay : string) : bool :=
  starts_with needle hay
  || match hay with
     | EmptyString => false
     | String _ rest => includesb needle rest
     end.

Lemma starts_with_app (p r : string) : starts_with p (p ++ r) = true.
Proof.
  induction p as [| a p IH]; simpl; [reflexivity |].
  now rewrite Ascii.eqb_refl, IH.
Qed.

Lemma includes_includesb (needle hay : string) :
  includes needle hay -> includesb needle hay = true.
Proof.
  intros [before [after ->]].
  induction before as [| a before IH]; simpl.
  - pose proof (starts_with_app needle after) as Hp.
    destruct (needle ++ after)%string; simpl; now rewrite Hp.
  - rewrite IH. apply orb_true_r.
Qed.

(* ------------------------------------------------------------------ *)
(** ** The serializer on the round trips of its test suite *)
(* ------------------------------------------------------------------ *)

Section RoundTrips.
Import Serialize.

(** Serialize, deserialize, serialize again. *)
Definition roundTrip (def : TableSchemaDefinition) : SchemaJSON :=
  serializeSchema (deserializeSchema (serializeSchema def)).

Definition options_of (values : list string) : Col.FilterOptions :=
  {| Col.fo_options :=
       Some (map (fun v => {| opt_label := v; opt_value := OStr v |})
               values);
     Col.fo_component := None; Col.fo_min := None; Col.fo_max := None;
     Col.fo_presets := None |}.

Definition bounds (min max : Q) : Col.FilterOptions :=
  {| Col.fo_options := None; Col.fo_component := None;
     Col.fo_min := Some min; Col.fo_max := Some max;
     Col.fo_presets := None |}.

Definition unit_of (u : string) : Col.DisplayOptions :=
  {| Col.do_unit := Some u; Col.do_cell := None |}.

Example roundTrip_string :
  let def := [("host", Col.label Col.string "Host")] in
  roundTrip def = serializeSchema def.
Proof. reflexivity. Qed.

Example roundTrip_slider :
  let def :=
    [("latency",
      Col.filterable (Col.label Col.number "Latency") (Some Slider)
        (Some (bounds 0 5000)))] in
  roundTrip def = serializeSchema def.
Proof. reflexivity. Qed.

Example roundTrip_unit :
  let def :=
    [("latency",
      Col.display (Col.label Col.number "Latency") "number"
        (Some (unit_of "ms")))] in
  roundTrip def = serializeSchema def.
Proof. reflexivity. Qed.

Example roundTrip_enum :
  let levels := ["error"; "warn"; "info"] in
  let def :=
    [("level",
      Col.filterable (Col.label (Col.colEnum levels) "Level")
        (Some Checkbox) (Some (options_of levels)))] in
  roundTrip def = serializeSchema def.
Proof. reflexivity. Qed.

Example roundTrip_array_of_enum :
  let regions := ["us-east-1"; "eu-west-1"] in
  let def :=
    [("regions",
      Col.filterable (Col.label (Col.array (Col.colEnum regions)) "Regions")
        (Some Checkbox) (Some (options_of regions)))] in
  roundTrip def = serializeSchema def.
Proof. reflexivity. Qed.

Example roundTrip_boolean :
  let def :=
    [("active", Col.defaultOpen (Col.label Col.boolean "Active"))] in
  roundTrip def = serializeSchema def.
Proof. reflexivity. Qed.

Example roundTrip_record_hidden :
  let def := [("headers", Col.hidden (Col.label Col.record "Headers"))] in
  roundTrip def = serializeSchema def.
Proof. reflexivity. Qed.

Example roundTrip_modifiers :
  let def :=
    [("id",
      Col.size
        (Col.optional (Col.sortable (Col.hidden (Col.label Col.string "ID"))))
        120)] in
  roundTrip def = serializeSchema def.
Proof. reflexivity. Qed.

Example roundTrip_sheet :
  let def :=
    [("host",
      Col.sheet (Col.label Col.string "Host")
        (Some {| s_label := Some "Origin"; s_component := None;
                 s_condition := None; s_className := None;
                 s_skeletonClassName := Some "w-24" |}))] in
  roundTrip def = serializeSchema def.
Proof. reflexivity. Qed.

(** A string column shown with the built-in number display, without a
    unit: [col.string().label("Host").display("number")]. *)
Definition host_as_number : TableSchemaDefinition :=
  [("host", Col.display (Col.label Col.string "Host") "number" None)].

(** An array column whose items are plain strings:
    [col.array(col.string()).label("Tags")]. *)
Definition tags_array : TableSchemaDefinition :=
  [("tags", Col.label (Col.array Col.string) "Tags")].

End RoundTrips.

(** C1. The round-trip law
    [serialize (deserialize (serialize def)) = serialize def] fails on a
    definition that uses built-in configurations only: a string column with
    the number display and no unit is serialized with display type number,
    the deserializer replays no display for it, and the second serialization
    carries the default display of a string column, text. *)
Theorem roundTrip_loses_unitless_number_display :
  map cd_display (columns (Serialize.serializeSchema host_as_number))
  = [ {| dd_type := "number"; dd_unit := None |} ]
  /\ map cd_display (columns (roundTrip host_as_number))
     = [ {| dd_type := "text"; dd_unit := None |} ]
  /\ roundTrip host_as_number <> Serialize.serializeSchema host_as_number.
Proof.
  repeat split; try reflexivity.
  intros E. discriminate E.
Qed.

(** The other reader of descriptors, the TypeScript generator, does write
    the display out for this descriptor; the deserializer leaves whatever
    builder it has unchanged. *)
Lemma generator_replays_unitless_number_display
    (JSON_stringify : string -> string) (b : ColBuilder) :
  let d := {| cd_key := "host"; cd_label := "Host"; cd_description := None;
              cd_dataType := KString; cd_enumValues := None;
              cd_arrayItemType := None; cd_optional := false;
              cd_hidden := false; cd_sortable := false; cd_size := None;
              cd_display := {| dd_type := "number"; dd_unit := None |};
              cd_filter := Some (Infer.plain_filter Input);
              cd_sheet := None |} in
  columns (Serialize.serializeSchema host_as_number) = [d]
  /\ ToTypeScript.displayParts JSON_stringify d
     = [(".display(" ++ JSON_stringify "number" ++ ")")%string]
  /\ Serialize.replayDisplay d b = b.
Proof. repeat split. Qed.

(** The factory choice has the same kind of gap: an array column whose
    items are not an enumeration comes back as a string column. *)
Lemma roundTrip_turns_plain_array_into_string :
  map cd_dataType (columns (Serialize.serializeSchema tags_array)) = [KArray]
  /\ map cd_dataType (columns (roundTrip tags_array)) = [KString].
Proof. split; reflexivity. Qed.

(* ------------------------------------------------------------------ *)
(** ** What the methods leave alone *)
(* ------------------------------------------------------------------ *)

Lemma call_frame (m : Chain.Mutator) (b : ColBuilder) (f : Chain.Field) :
  f <> Chain.target m ->
  Chain.same_at f (_config b) (_config (Chain.call m b)).
Proof.
  intros Hf. destruct b as [c].
  destruct m; destruct f; simpl in *; try reflexivity; try congruence;
    unfold Col.defaultOpen, Col.commandDisabled; simpl;
    destruct (c_filter c); reflexivity.
Qed.

Section Steps.
Import Serialize.

Lemma replayLabel_frame (d : ColumnDescriptor) (b : ColBuilder)
    (f : Chain.Field) :
  f <> Chain.FLabel -> f <> Chain.FDescription ->
  Chain.same_at f (_config b) (_config (replayLabel d b)).
Proof.
  intros H1 H2. unfold replayLabel.
  destruct (cd_description d) as [text |]; [destruct (Js.truthy text) |];
    destruct f; simpl; congruence.
Qed.

Lemma replayLabel_label (d : ColumnDescriptor) (b : ColBuilder) :
  c_label (_config (replayLabel d b)) = cd_label d.
Proof.
  unfold replayLabel.
  destruct (cd_description d) as [text |]; [destruct (Js.truthy text) |];
    reflexivity.
Qed.

Lemma replayDisplay_frame (d : ColumnDescriptor) (b : ColBuilder)
    (f : Chain.Field) :
  f <> Chain.FDisplay ->
  Chain.same_at f (_config b) (_config (replayDisplay d b)).
Proof.
  intros H1. unfold replayDisplay.
  repeat match goal with
         | |- context [if ?c then _ else _] => destruct c
         end;
    destruct f; simpl; congruence.
Qed.

Lemma replayFilter_frame (d : ColumnDescriptor) (b : ColBuilder)
    (f : Chain.Field) :
  f <> Chain.FFilter ->
  Chain.same_at f (_config b) (_config (replayFilter d b)).
Proof.
  intros H1. unfold replayFilter.
  destruct (cd_filter d) as [fd |].
  - destruct (fd_type fd), (fd_min fd), (fd_max fd), (fd_defaultOpen fd),
      (fd_commandDisabled fd); destruct f; simpl; congruence.
  - destruct f; simpl; congruence.
Qed.

Lemma replayModifiers_frame (d : ColumnDescriptor) (b : ColBuilder)
    (f : Chain.Field) :
  f <> Chain.FHidden -> f <> Chain.FSortable -> f <> Chain.FOptional ->
  f <> Chain.FSize ->
  Chain.same_at f (_config b) (_config (replayModifiers d b)).
Proof.
  intros H1 H2 H3 H4. unfold replayModifiers.
  destruct (cd_hidden d), (cd_sortable d), (cd_optional d), (cd_size d);
    destruct f; simpl; congruence.
Qed.

Lemma replaySheet_frame (d : ColumnDescriptor) (b : ColBuilder)
    (f : Chain.Field) :
  f <> Chain.FSheet ->
  Chain.same_at f (_config b) (_config (replaySheet d b)).
Proof.
  intros H1. unfold replaySheet.
  destruct (cd_sheet d); destruct f; simpl; congruence.
Qed.

Lemma deserializeColumn_label (d : ColumnDescriptor) :
  c_label (_config (deserializeColumn d)) = cd_label d.
Proof.
  unfold deserializeColumn. cbv zeta.
  rewrite <- (replaySheet_frame d _ Chain.FLabel) by discriminate.
  rewrite <- (replayModifiers_frame d _ Chain.FLabel) by discriminate.
  rewrite <- (replayFilter_frame d _ Chain.FLabel) by discriminate.
  rewrite <- (replayDisplay_frame d _ Chain.FLabel) by discriminate.
  apply replayLabel_label.
Qed.

(** The filter a descriptor is rebuilt with. *)
Definition rebuilt_filter (fd : FilterDescriptor) : FilterConfig :=
  match fd_type fd, fd_min fd, fd_max fd with
  | Slider, Some min, Some max =>
      {| f_type := Slider; f_defaultOpen := fd_defaultOpen fd;
         f_commandDisabled := fd_commandDisabled fd; f_options := None;
         f_component := None; f_min := Some min; f_max := Some max;
         f_presets := None |}
  | Checkbox, _, _ =>
      {| f_type := Checkbox; f_defaultOpen := fd_defaultOpen fd;
         f_commandDisabled := fd_commandDisabled fd;
         f_options := fd_options fd; f_component := None; f_min := None;
         f_max := None; f_presets := None |}
  | Timerange, _, _ =>
      {| f_type := Timerange; f_defaultOpen := fd_defaultOpen fd;
         f_commandDisabled := fd_commandDisabled fd; f_options := None;
         f_component := None; f_min := None; f_max := None;
         f_presets := None |}
  | _, _, _ =>
      {| f_type := Input; f_defaultOpen := fd_defaultOpen fd;
         f_commandDisabled := fd_commandDisabled fd; f_options := None;
         f_component := None; f_min := None; f_max := None;
         f_presets := None |}
  end.

(** Every factory starts with both flags of its filter down. *)
Definition flags_down (b : ColBuilder) : Prop :=
  forall f, c_filter (_config b) = Some f ->
            f_defaultOpen f = false /\ f_commandDisabled f = false.

Lemma pickFactory_flags_down (d : ColumnDescriptor) :
  flags_down (pickFactory d).
Proof.
  unfold flags_down, pickFactory.
  destruct (cd_dataType d), (cd_enumValues d),
    (cd_arrayItemType d) as [[[] []] |];
    simpl; intros f Hf; inversion Hf; subst; simpl; auto.
Qed.

Lemma replayFilter_filter (d : ColumnDescriptor) (b : ColBuilder) :
  flags_down b ->
  c_filter (_config (replayFilter d b)) = option_map rebuilt_filter (cd_filter d).
Proof.
  intros Hb. unfold replayFilter.
  destruct (cd_filter d) as [fd |]; [| reflexivity].
  unfold flags_down in Hb. unfold option_map, rebuilt_filter.
  destruct (c_filter (_config b)) as [f0 |] eqn:E0.
  - destruct (Hb f0 eq_refl) as [H1 H2].
    destruct (fd_type fd), (fd_min fd), (fd_max fd),
      (fd_defaultOpen fd) eqn:Ed, (fd_commandDisabled fd) eqn:Ec;
      unfold Col.defaultOpen, Col.commandDisabled, Col.filterable; simpl;
      rewrite ?E0; simpl; rewrite ?H1, ?H2; reflexivity.
  - destruct (fd_type fd), (fd_min fd), (fd_max fd),
      (fd_defaultOpen fd) eqn:Ed, (fd_commandDisabled fd) eqn:Ec;
      unfold Col.defaultOpen, Col.commandDisabled, Col.filterable; simpl;
      rewrite ?E0; simpl; reflexivity.
Qed.

Lemma deserializeColumn_filter (d : ColumnDescriptor) :
  c_filter (_config (deserializeColumn d))
  = option_map rebuilt_filter (cd_filter d).
Proof.
  unfold deserializeColumn. cbv zeta.
  rewrite <- (replaySheet_frame d _ Chain.FFilter) by discriminate.
  rewrite <- (replayModifiers_frame d _ Chain.FFilter) by discriminate.
  apply replayFilter_filter.
  intros f Hf.
  rewrite <- (replayDisplay_frame d _ Chain.FFilter) in Hf by discriminate.
  rewrite <- (replayLabel_frame d _ Chain.FFilter) in Hf by discriminate.
  now apply (pickFactory_flags_down d).
Qed.

(** With keys that enumerate in creation order, the reconstructed
    definition lists the columns of the document, each rebuilt. *)
Lemma deserializeSchema_entries (cols : list ColumnDescriptor) :
  creation_ordered [] (map cd_key cols) = true ->
  deserializeSchema {| columns := cols |}
  = map (fun d => (cd_key d, deserializeColumn d)) cols.
Proof.
  intros Hk. unfold deserializeSchema. simpl.
  now rewrite (fold_set_appends cd_key deserializeColumn cols []).
Qed.

End Steps.

(* ------------------------------------------------------------------ *)
(** ** Where the round trip does hold *)
(* ------------------------------------------------------------------ *)

Section RoundTripLaw.
Import Js Serialize.

Lemma config_ext (c c' : ColConfig) :
  (forall f, Chain.same_at f c c') -> c = c'.
Proof.
  intros Hf. destruct c, c'.
  pose proof (Hf Chain.FKind). pose proof (Hf Chain.FEnumValues).
  pose proof (Hf Chain.FArrayItem). pose proof (Hf Chain.FOptional).
  pose proof (Hf Chain.FLabel). pose proof (Hf Chain.FDescription).
  pose proof (Hf Chain.FDisplay). pose proof (Hf Chain.FSize).
  pose proof (Hf Chain.FHidden). pose proof (Hf Chain.FSortable).
  pose proof (Hf Chain.FFilter). pose proof (Hf Chain.FSheet).
  simpl in *. congruence.
Qed.

(** The display a descriptor is rebuilt with, on top of the display of the
    factory. *)
Definition rebuilt_display (d : ColumnDescriptor) (default : DisplayConfig)
  : DisplayConfig :=
  let displayType :=
    if dd_type (cd_display d) =? "custom"
    then defaultDisplayType (cd_dataType d)
    else dd_type (cd_display d) in
  if (displayType =? "number") && truthy_opt (dd_unit (cd_display d))
  then {| d_type := "number"; d_unit := dd_unit (cd_display d);
          d_cell := None |}
  else if (displayType =? "text") || (displayType =? "code")
          || (displayType =? "boolean") || (displayType =? "badge")
          || (displayType =? "timestamp")
  then {| d_type := displayType; d_unit := None; d_cell := None |}
  else default.

(** The configuration a descriptor is rebuilt with, in closed form. *)
Definition rebuilt_config (d : ColumnDescriptor) : ColConfig :=
  let c0 := _config (pickFactory d) in
  mkColConfig (c_kind c0) (c_enumValues c0) (c_arrayItem c0)
    (cd_optional d) (cd_label d)
    (match cd_description d with
     | Some text => if truthy text then Some text else None
     | None => None
     end)
    (rebuilt_display d (c_display c0))
    (cd_size d) (cd_hidden d) (cd_sortable d)
    (option_map rebuilt_filter (cd_filter d))
    (match cd_sheet d with
     | Some sheet =>
         Some {| s_label := keep_truthy (sd_label sheet);
                 s_component := None; s_condition := None;
                 s_className := keep_truthy (sd_className sheet);
                 s_skeletonClassName :=
                   keep_truthy (sd_skeletonClassName sheet) |}
     | None => None
     end).

Lemma pickFactory_defaults (d : ColumnDescriptor) :
  let c0 := _config (pickFactory d) in
  c_optional c0 = false /\ c_hidden c0 = false /\ c_sortable c0 = false
  /\ c_size c0 = None /\ c_sheet c0 = None /\ c_description c0 = None.
Proof.
  unfold pickFactory.
  destruct (cd_dataType d), (cd_enumValues d),
    (cd_arrayItemType d) as [[[] []] |]; simpl; repeat split.
Qed.

(** A property no step touches has the value the factory gave it. *)
Ltac untouched d fld :=
  unfold deserializeColumn; cbv zeta;
  rewrite <- (replaySheet_frame d _ fld) by discriminate;
  rewrite <- (replayModifiers_frame d _ fld) by discriminate;
  rewrite <- (replayFilter_frame d _ fld) by discriminate;
  rewrite <- (replayDisplay_frame d _ fld) by discriminate;
  rewrite <- (replayLabel_frame d _ fld) by discriminate.

(** A property of step 5 has the value of the descriptor, or else the one
    the factory gave it, [Hdefault]. *)
Ltac modifier d fld Hdefault :=
  unfold deserializeColumn; cbv zeta;
  rewrite <- (replaySheet_frame d _ fld) by discriminate;
  let E1 := fresh in
  let E2 := fresh in
  let E3 := fresh in
  pose proof (replayFilter_frame d
                (replayDisplay d (replayLabel d (pickFactory d))) fld) as E1;
  pose proof (replayDisplay_frame d (replayLabel d (pickFactory d)) fld)
    as E2;
  pose proof (replayLabel_frame d (pickFactory d) fld) as E3;
  simpl in E1, E2, E3;
  unfold replayModifiers;
  destruct (cd_hidden d), (cd_sortable d), (cd_optional d), (cd_size d);
  simpl; try reflexivity;
  rewrite <- E1, <- E2, <- E3 by discriminate; exact Hdefault.

Lemma deserializeColumn_config (d : ColumnDescriptor) :
  _config (deserializeColumn d) = rebuilt_config d.
Proof.
  apply config_ext. intros f.
  destruct (pickFactory_defaults d) as [Ho [Hh [Hs [Hz [Hsh Hd]]]]].
  destruct f; simpl.
  - untouched d Chain.FKind. reflexivity.
  - untouched d Chain.FEnumValues. reflexivity.
  - untouched d Chain.FArrayItem. reflexivity.
  - modifier d Chain.FOptional Ho.
  - apply deserializeColumn_label.
  - unfold deserializeColumn. cbv zeta.
    rewrite <- (replaySheet_frame d _ Chain.FDescription) by discriminate.
    rewrite <- (replayModifiers_frame d _ Chain.FDescription) by discriminate.
    rewrite <- (replayFilter_frame d _ Chain.FDescription) by discriminate.
    rewrite <- (replayDisplay_frame d _ Chain.FDescription) by discriminate.
    unfold replayLabel.
    destruct (cd_description d) as [text |]; [destruct (truthy text) |];
      simpl; try reflexivity; exact Hd.
  - unfold deserializeColumn. cbv zeta.
    rewrite <- (replaySheet_frame d _ Chain.FDisplay) by discriminate.
    rewrite <- (replayModifiers_frame d _ Chain.FDisplay) by discriminate.
    rewrite <- (replayFilter_frame d _ Chain.FDisplay) by discriminate.
    pose proof (replayLabel_frame d (pickFactory d) Chain.FDisplay) as E3.
    simpl in E3.
    unfold replayDisplay, rebuilt_display.
    repeat match goal with
           | |- context [if ?c then _ else _] => destruct c
           end; simpl; try reflexivity;
      rewrite <- E3 by discriminate; reflexivity.
  - modifier d Chain.FSize Hz.
  - modifier d Chain.FHidden Hh.
  - modifier d Chain.FSortable Hs.
  - apply deserializeColumn_filter.
  - unfold deserializeColumn. cbv zeta. unfold replaySheet.
    destruct (cd_sheet d); simpl; [reflexivity |].
    rewrite <- (replayModifiers_frame d _ Chain.FSheet) by discriminate.
    rewrite <- (replayFilter_frame d _ Chain.FSheet) by discriminate.
    rewrite <- (replayDisplay_frame d _ Chain.FSheet) by discriminate.
    rewrite <- (replayLabel_frame d _ Chain.FSheet) by discriminate.
    exact Hsh.
Qed.

End RoundTripLaw.

Section RoundTripHolds.
Import Js Serialize.

(** The kind is one a factory restores: an enumeration has its values, an
    array has an enumeration for items, and no other kind carries values or
    an item. *)
Definition restorable_kind (c : ColConfig) : Prop :=
  match c_kind c with
  | KEnum => c_arrayItem c = None /\ exists values, c_enumValues c = Some values
  | KArray =>
      c_enumValues c = None
      /\ exists item values,
           c_arrayItem c = Some item /\ c_kind item = KEnum
           /\ c_enumValues item = Some values
  | _ => c_enumValues c = None /\ c_arrayItem c = None
  end.

(** The display is one the deserializer replays, or the number display on
    a number column, which is the default it leaves in place. *)
Definition restorable_display (c : ColConfig) : Prop :=
  In (d_type (c_display c)) ["text"; "code"; "boolean"; "badge"; "timestamp"]
  \/ (d_type (c_display c) = "number"
      /\ (truthy_opt (d_unit (c_display c)) = true \/ c_kind c = KNumber)).

(** The filter carries what its type is replayed with: a slider its two
    bounds, a checkbox its options, the others nothing. *)
Definition restorable_filter (c : ColConfig) : Prop :=
  match c_filter c with
  | None => True
  | Some f =>
      match f_type f with
      | Slider =>
          f_options f = None
          /\ exists min max, f_min f = Some min /\ f_max f = Some max
      | Checkbox => f_min f = None /\ f_max f = None
      | Input | Timerange =>
          f_options f = None /\ f_min f = None /\ f_max f = None
      end
  end.

Definition restorable (e : string * ColBuilder) : Prop :=
  restorable_kind (_config (snd e))
  /\ restorable_display (_config (snd e))
  /\ restorable_filter (_config (snd e)).

Lemma keep_truthy_idem (o : option string) :
  keep_truthy (keep_truthy o) = keep_truthy o.
Proof.
  unfold keep_truthy. destruct (truthy_opt o) eqn:E; [now rewrite E |].
  reflexivity.
Qed.

Lemma serializeEntry_key (e : string * ColBuilder) :
  cd_key (serializeEntry e) = fst e.
Proof. destruct e. reflexivity. Qed.

Lemma restored_factory (key : string) (b : ColBuilder) :
  restorable_kind (_config b) ->
  let c0 := _config (pickFactory (serializeEntry (key, b))) in
  c_kind c0 = c_kind (_config b)
  /\ c_enumValues c0 = c_enumValues (_config b)
  /\ match c_arrayItem c0, c_arrayItem (_config b) with
     | Some i0, Some i =>
         c_kind i0 = c_kind i /\ c_enumValues i0 = c_enumValues i
     | None, None => True
     | _, _ => False
     end
  /\ c_display c0
     = Col.plain_display (defaultDisplayType (c_kind (_config b))).
Proof.
  destruct b as [c]. unfold restorable_kind, pickFactory. simpl.
  destruct (c_kind c) eqn:Ek.
  all: try (intros [-> ->]; simpl; repeat split; reflexivity).
  - intros [-> [values ->]]. simpl. repeat split; reflexivity.
  - intros [-> [item [values [-> [Hk Hv]]]]]. simpl.
    rewrite Hk, Hv. simpl. repeat split; congruence.
Qed.

Lemma restored_display (key : string) (b : ColBuilder) :
  restorable_display (_config b) ->
  let d := serializeEntry (key, b) in
  let rebuilt :=
    rebuilt_display d
      (Col.plain_display (defaultDisplayType (c_kind (_config b)))) in
  (if (d_type rebuilt =? "number") && truthy_opt (d_unit rebuilt)
   then {| dd_type := "number"; dd_unit := d_unit rebuilt |}
   else {| dd_type := d_type rebuilt; dd_unit := None |})
  = cd_display d.
Proof.
  destruct b as [c]. unfold restorable_display, rebuilt_display. simpl.
  intros [Hin | [Hn Hu]].
  - destruct Hin as [E | [E | [E | [E | [E | []]]]]]; rewrite <- E; reflexivity.
  - rewrite Hn. simpl.
    destruct (truthy_opt (d_unit (c_display c))) eqn:Et; simpl.
    + repeat (rewrite Et; simpl). reflexivity.
    + destruct Hu as [Hu | Hk]; [discriminate |].
      repeat (rewrite Et; simpl). rewrite Hk. reflexivity.
Qed.

Lemma restored_filter (c : ColConfig) :
  restorable_filter c ->
  serializeFilter (option_map rebuilt_filter (serializeFilter (c_filter c)))
  = serializeFilter (c_filter c).
Proof.
  unfold restorable_filter.
  destruct (c_filter c) as [f |]; [| reflexivity]. simpl.
  unfold rebuilt_filter. simpl.
  destruct (f_type f) eqn:Et.
  - intros [-> [-> ->]]. reflexivity.
  - intros [-> ->]. simpl. do 2 f_equal.
    destruct (f_options f) as [options |]; [| reflexivity].
    f_equal. rewrite map_map. apply map_ext. reflexivity.
  - intros [-> [min [max [-> ->]]]]. reflexivity.
  - intros [-> [-> ->]]. reflexivity.
Qed.

Lemma restored_description (o : option string) :
  keep_truthy
    match keep_truthy o with
    | Some text => if truthy text then Some text else None
    | None => None
    end
  = keep_truthy o.
Proof.
  destruct o as [text |]; [| reflexivity].
  unfold keep_truthy. simpl.
  destruct (truthy text) eqn:Et; simpl; rewrite ?Et; simpl; rewrite ?Et;
    reflexivity.
Qed.

Lemma restored_sheet (sheet : option SheetConfig) :
  serializeSheet
    match serializeSheet sheet with
    | Some s =>
        Some {| s_label := keep_truthy (sd_label s);
                s_component := None; s_condition := None;
                s_className := keep_truthy (sd_className s);
                s_skeletonClassName := keep_truthy (sd_skeletonClassName s) |}
    | None => None
    end
  = serializeSheet sheet.
Proof.
  destruct sheet as [s |]; simpl; [| reflexivity].
  now rewrite !keep_truthy_idem.
Qed.

(** One column: serializing the rebuilt builder gives the descriptor it was
    rebuilt from. *)
Lemma roundTrip_entry (key : string) (b : ColBuilder) :
  restorable (key, b) ->
  serializeEntry (key, deserializeColumn (serializeEntry (key, b)))
  = serializeEntry (key, b).
Proof.
  intros [Hk [Hd Hf]]. simpl in Hk, Hd, Hf.
  pose proof (restored_factory key b Hk) as [Ek [Ev [Ei Edef]]].
  pose proof (restored_display key b Hd) as Edisp.
  pose proof (restored_filter (_config b) Hf) as Efilt.
  pose proof (restored_description (c_description (_config b))) as Edesc.
  pose proof (restored_sheet (c_sheet (_config b))) as Esheet.
  unfold serializeEntry at 1.
  rewrite deserializeColumn_config.
  unfold rebuilt_config. cbn [c_kind c_enumValues c_arrayItem c_optional
    c_label c_description c_display c_size c_hidden c_sortable c_filter
    c_sheet _config].
  rewrite Edef, Ek, Ev. clear Edef Ek Ev Hk Hd Hf.
  destruct (c_arrayItem (_config (pickFactory (serializeEntry (key, b)))))
    as [item0 |] eqn:E0.
  - destruct b as [c]. simpl in *.
    rewrite Edisp, Efilt, Edesc, Esheet.
    destruct (c_arrayItem c) as [item |]; [| contradiction].
    destruct Ei as [-> ->]. reflexivity.
  - destruct b as [c]. simpl in *.
    rewrite Edisp, Efilt, Edesc, Esheet.
    destruct (c_arrayItem c) as [item |]; [contradiction |].
    reflexivity.
Qed.

(** The round-trip law, on the definitions the deserializer covers: keys
    that are distinct own keys in enumeration order, kinds a factory
    restores, displays and filters that are replayed. Custom filter and
    sheet renderers do not matter here, both serializations drop them. *)
Theorem roundTrip_of_restorable (def : TableSchemaDefinition) :
  creation_ordered [] (keys def) = true ->
  Forall restorable def ->
  roundTrip def = serializeSchema def.
Proof.
  intros Hkeys Hall. unfold roundTrip.
  unfold serializeSchema at 2. unfold entries.
  rewrite deserializeSchema_entries.
  - clear Hkeys. unfold serializeSchema, entries. f_equal.
    rewrite !map_map.
    induction Hall as [| [key b] rest Hb Hrest IH]; cbn [map];
      [reflexivity |].
    change (cd_key (serializeEntry (key, b))) with key.
    now rewrite (roundTrip_entry key b Hb), IH.
  - rewrite map_map. unfold keys in Hkeys.
    erewrite map_ext; [exact Hkeys |].
    intros e. apply serializeEntry_key.
Qed.

End RoundTripHolds.

Example roundTrip_of_restorable_applies :
  roundTrip
    [("host", Col.label Col.string "Host");
     ("latency",
      Col.filterable (Col.label Col.number "Latency") (Some Slider)
        (Some (bounds 0 5000)))]
  = Serialize.serializeSchema
      [("host", Col.label Col.string "Host");
       ("latency",
      Col.filterable (Col.label Col.number "Latency") (Some Slider)
        (Some (bounds 0 5000)))].
Proof.
  apply roundTrip_of_restorable; [reflexivity |].
  constructor; [| constructor; [| constructor]].
  - repeat split; simpl; auto.
    left. simpl. auto.
  - repeat split; simpl; auto.
    + right. simpl. auto.
    + exists 0, 5000. split; reflexivity.
Qed.

(* ------------------------------------------------------------------ *)
(** ** The validator *)
(* ------------------------------------------------------------------ *)

Section Validation.
Import Js Validate Serialize.
Context {host : Runtime}.

(** The column has a label. *)
Definition labelled (e : string * ColBuilder) : Prop :=
  c_label (_config (snd e)) <> "".

(** A slider filter of the column has both bounds, in order. *)
Definition slider_in_order (e : string * ColBuilder) : Prop :=
  forall f, c_filter (_config (snd e)) = Some f -> f_type f = Slider ->
  exists min max,
    f_min f = Some min /\ f_max f = Some max /\ (min <= max)%Q.

Definition descriptor_labelled (d : ColumnDescriptor) : Prop :=
  cd_label d <> "".

(** A slider filter of the descriptor that has both bounds has them in
    order. *)
Definition descriptor_slider_in_order (d : ColumnDescriptor) : Prop :=
  forall fd min max,
    cd_filter d = Some fd -> fd_type fd = Slider ->
    fd_min fd = Some min -> fd_max fd = Some max -> (min <= max)%Q.

Lemma gt_true_iff (a b : Q) : gt a b = true <-> (b < a)%Q.
Proof.
  unfold gt. rewrite negb_true_iff. split.
  - intros E. apply Qnot_le_lt. intros Hle.
    apply Qle_bool_iff in Hle. congruence.
  - intros Hlt. destruct (Qle_bool a b) eqn:E; [| reflexivity].
    apply Qle_bool_iff in E. exfalso. now apply (Qlt_not_le b a).
Qed.

Lemma gt_false_iff (a b : Q) : gt a b = false <-> (a <= b)%Q.
Proof.
  unfold gt. rewrite negb_false_iff. apply Qle_bool_iff.
Qed.

Lemma validateColumn_passes (key : string) (b : ColBuilder) :
  labelled (key, b) -> slider_in_order (key, b) ->
  validateColumn key b = Returns.
Proof.
  unfold labelled, slider_in_order, validateColumn. simpl.
  intros Hl Hs. apply truthy_true_iff in Hl. rewrite Hl. simpl.
  destruct (c_filter (_config b)) as [f |]; [| reflexivity].
  destruct (f_type f) eqn:Et; try reflexivity.
  destruct (Hs f eq_refl Et) as [min [max [-> [-> Hle]]]].
  apply gt_false_iff in Hle. now rewrite Hle.
Qed.

Lemma validateEntries_passes (es : list (string * ColBuilder)) :
  Forall labelled es -> Forall slider_in_order es ->
  validateEntries es = Returns.
Proof.
  induction es as [| [key b] es IH]; intros Hl Hs; simpl.
  - reflexivity.
  - inversion Hl; subst. inversion Hs; subst.
    rewrite validateColumn_passes by assumption. now apply IH.
Qed.

Lemma validateEntries_skip (pre rest : list (string * ColBuilder)) :
  validateEntries pre = Returns ->
  validateEntries (pre ++ rest) = validateEntries rest.
Proof.
  induction pre as [| [key b] pre IH]; simpl; intros Hp.
  - reflexivity.
  - destruct (validateColumn key b); try discriminate. now apply IH.
Qed.

Lemma validateEntries_first (key : string) (b : ColBuilder)
    (rest : list (string * ColBuilder)) (message : string) :
  validateColumn key b = ThrowsError message ->
  validateEntries ((key, b) :: rest) = ThrowsError message.
Proof. simpl. now intros ->. Qed.

Lemma rebuilt_labelled (d : ColumnDescriptor) :
  descriptor_labelled d -> labelled (cd_key d, deserializeColumn d).
Proof.
  unfold descriptor_labelled, labelled. simpl.
  now rewrite deserializeColumn_label.
Qed.

Lemma rebuilt_slider_in_order (d : ColumnDescriptor) :
  descriptor_slider_in_order d ->
  slider_in_order (cd_key d, deserializeColumn d).
Proof.
  unfold descriptor_slider_in_order, slider_in_order. simpl.
  intros Hd f. rewrite deserializeColumn_filter.
  destruct (cd_filter d) as [fd |]; simpl; [| discriminate].
  intros Hf Ht. inversion Hf; subst f; clear Hf.
  unfold rebuilt_filter in *.
  destruct (fd_type fd) eqn:Et, (fd_min fd) as [min |] eqn:Emin,
    (fd_max fd) as [max |] eqn:Emax; simpl in Ht; try discriminate.
  exists min, max. simpl. repeat split. now apply (Hd fd).
Qed.

(** Every column of a reconstructed definition is the rebuilt form of a
    column of the document. *)
Lemma deserializeSchema_members (json : SchemaJSON)
    (e : string * ColBuilder) :
  In e (deserializeSchema json) ->
  exists d, In d (columns json) /\ e = (cd_key d, deserializeColumn d).
Proof.
  unfold deserializeSchema.
  assert (Hgen : forall cols acc,
             In e (fold_left
                     (fun definition col_ =>
                        set (cd_key col_) (deserializeColumn col_) definition)
                     cols acc) ->
             In e acc
             \/ exists d, In d cols /\ e = (cd_key d, deserializeColumn d)).
  { induction cols as [| d cols IH]; intros acc; simpl; [now left |].
    intros Hin. destruct (IH _ Hin) as [Hacc | [d' [Hd' He]]].
    - apply set_entries in Hacc. destruct Hacc as [-> | Hacc].
      + right. exists d. split; [now left | reflexivity].
      + now left.
    - right. exists d'. split; [now right | assumption]. }
  intros Hin. destruct (Hgen _ _ Hin) as [[] | Hd]. exact Hd.
Qed.

(** A document whose columns all have a label, and whose sliders with two
    bounds have them in order, is reconstructed into a definition that
    passes validation, whatever its keys are. *)
Lemma labelled_document_passes (json : SchemaJSON) :
  Forall descriptor_labelled (columns json) ->
  Forall descriptor_slider_in_order (columns json) ->
  validateSchema (deserializeSchema json) = Returns.
Proof.
  intros Hl Hs. unfold validateSchema, entries.
  rewrite Forall_forall in Hl, Hs.
  apply validateEntries_passes; apply Forall_forall; intros e He;
    apply deserializeSchema_members in He; destruct He as [d [Hd ->]].
  - apply rebuilt_labelled. now apply Hl.
  - apply rebuilt_slider_in_order. now apply Hs.
Qed.

Lemma substring_all (s : string) : substring 0 (String.length s) s = s.
Proof. induction s as [| c r IH]; simpl; [reflexivity | now rewrite IH]. Qed.

Lemma substring_splits (s : string) :
  forall n : nat,
    (substring 0 n s ++ substring n (String.length s - n) s)%string = s.
Proof.
  induction s as [| c r IH]; intros [| n]; simpl; try reflexivity.
  - now rewrite substring_all.
  - now rewrite IH.
Qed.

(** A first code unit that is a character, and the rest, make up the
    string. *)
Lemma index0_splits (s text : string) :
  index0 s = Some (Character text) -> s = (text ++ slice1 s)%string.
Proof.
  destruct s as [| c r]; [discriminate |].
  unfold index0, first_unit, slice1.
  destruct (char_bytes c <? 4)%nat; [| discriminate].
  intros [= <-]. symmetry.
  exact (substring_splits (String c r) (char_bytes c)).
Qed.

Lemma Forall_rebuilt (P : ColumnDescriptor -> Prop)
    (Q : string * ColBuilder -> Prop) (cols : list ColumnDescriptor) :
  (forall d, P d -> Q (cd_key d, deserializeColumn d)) ->
  Forall P cols ->
  Forall Q (map (fun d => (cd_key d, deserializeColumn d)) cols).
Proof.
  intros HPQ Hall. induction Hall; simpl; constructor; auto.
Qed.

(** C4, as the code has it. The validator stops at the first column that
    fails any of its checks. When the columns before the first column with
    an empty label have valid slider filters, and the key of that column is
    not empty, [validateSchema] throws the missing-label error for it: the
    message holds the key between double quotes and suggests the key with
    its first UTF-16 code unit upper-cased. When the key begins with a
    character of the Basic Multilingual Plane, that is the character
    upper-cased, followed by the rest of the key; when it begins with a
    character outside it, the code unit is a lone surrogate and the
    suggestion is the key itself. The same holds for a definition
    reconstructed from a JSON document whose keys enumerate in the order of
    the document. *)
Theorem missing_label_is_reported :
  (forall (pre : list (string * ColBuilder)) (key : string)
          (first : CodeUnit) (b : ColBuilder)
          (post : list (string * ColBuilder)),
      Forall labelled pre -> Forall slider_in_order pre ->
      c_label (_config b) = "" -> index0 key = Some first ->
      validateSchema (pre ++ (key, b) :: post)
      = ThrowsError (missing_label_message key first)
      /\ includes (dquote ++ key ++ dquote)
           (missing_label_message key first)
      /\ includes
           (".label(" ++ dquote ++ upper_then_rest first key ++ dquote
              ++ ")")
           (missing_label_message key first)
      /\ match first with
         | Character text =>
             key = (text ++ slice1 key)%string
             /\ upper_then_rest first key
                = (toUpperCase text ++ slice1 key)%string
         | LeadSurrogate => upper_then_rest first key = key
         end)
  /\ (forall (before : list ColumnDescriptor) (d : ColumnDescriptor)
             (first : CodeUnit) (after : list ColumnDescriptor),
         creation_ordered [] (map cd_key (before ++ d :: after)) = true ->
         Forall descriptor_labelled before ->
         Forall descriptor_slider_in_order before ->
         cd_label d = "" -> index0 (cd_key d) = Some first ->
         validateSchema
           (deserializeSchema {| columns := before ++ d :: after |})
         = ThrowsError (missing_label_message (cd_key d) first)).
Proof.
  assert (Hdef : forall pre key first b post,
             Forall labelled pre -> Forall slider_in_order pre ->
             c_label (_config b) = "" -> index0 key = Some first ->
             validateSchema (pre ++ (key, b) :: post)
             = ThrowsError (missing_label_message key first)).
  { intros pre key first b post Hl Hs Hb Hk.
    unfold validateSchema, entries.
    rewrite validateEntries_skip by now apply validateEntries_passes.
    apply validateEntries_first.
    unfold validateColumn. now rewrite Hb, Hk. }
  split.
  - intros pre key first b post Hl Hs Hb Hk.
    split; [now apply Hdef |].
    unfold missing_label_message. split; [| split].
    + exists "[createTableSchema] Column ",
        (" is missing a label." ++ newline ++ "  Fix: .label(" ++ dquote
           ++ upper_then_rest first key ++ dquote ++ ")")%string.
      repeat rewrite string_app_assoc. reflexivity.
    + exists ("[createTableSchema] Column " ++ dquote ++ key ++ dquote
                ++ " is missing a label." ++ newline ++ "  Fix: ")%string, "".
      rewrite string_app_nil_r.
      repeat rewrite string_app_assoc. reflexivity.
    + destruct first as [text |]; [| reflexivity].
      split; [now apply index0_splits | reflexivity].
  - intros before d first after Hk Hl Hs Hd Hfirst.
    rewrite deserializeSchema_entries by assumption.
    rewrite map_app. simpl.
    apply Hdef; try assumption.
    + now apply (Forall_rebuilt descriptor_labelled), Hl;
        apply rebuilt_labelled.
    + now apply (Forall_rebuilt descriptor_slider_in_order), Hs;
        apply rebuilt_slider_in_order.
    + now rewrite deserializeColumn_label.
Qed.

End Validation.

(* ------------------------------------------------------------------ *)
(** ** The validator on concrete definitions *)
(* ------------------------------------------------------------------ *)

Section ValidationExamples.
Import Js Validate Serialize.

(** [col.number().label(text).filterable("slider", { min, max })]. *)
Definition slider_column (text : string) (min max : Q) : ColBuilder :=
  Col.filterable (Col.label Col.number text) (Some Slider)
    (Some (bounds min max)).

(** The same chain followed by [.filterable()], which keeps the slider
    type and copies no bounds. *)
Definition slider_column_reset (text : string) (min max : Q) : ColBuilder :=
  Col.filterable (slider_column text min max) None None.

Definition input_descriptor (key label : string) : ColumnDescriptor :=
  {| cd_key := key; cd_label := label; cd_description := None;
     cd_dataType := KString; cd_enumValues := None;
     cd_arrayItemType := None; cd_optional := false; cd_hidden := false;
     cd_sortable := false; cd_size := None;
     cd_display := {| dd_type := "text"; dd_unit := None |};
     cd_filter := Some (Infer.plain_filter Input); cd_sheet := None |}.

(** A number column whose slider filter has lost its bounds. *)
Definition unbounded_slider_descriptor (key label : string)
  : ColumnDescriptor :=
  {| cd_key := key; cd_label := label; cd_description := None;
     cd_dataType := KNumber; cd_enumValues := None;
     cd_arrayItemType := None; cd_optional := false; cd_hidden := false;
     cd_sortable := false; cd_size := None;
     cd_display := {| dd_type := "number"; dd_unit := None |};
     cd_filter := Some (Infer.plain_filter Slider); cd_sheet := None |}.

Lemma labelled_intro (key : string) (b : ColBuilder) :
  truthy (c_label (_config b)) = true -> labelled (key, b).
Proof. intros E. now apply truthy_true_iff. Defined.

(** The tests of validate.test.ts. *)
Example validate_missing_label :
  validateSchema (host := ExampleHost.host) [("hostName", Col.string)]
  = ThrowsError
      (missing_label_message (host := ExampleHost.host) "hostName"
         (Character "h")).
Proof. reflexivity. Qed.

(** A key that begins with a two-byte character, the letter e with an
    acute accent, and one that begins with a four-byte character, a small
    Deseret letter: the first code unit is the whole accented letter, and
    half of the Deseret letter, which upper-casing leaves alone. *)
Definition e_acute : string :=
  String "195"%char (String "169"%char EmptyString).

Definition deseret_small_ew : string :=
  String "240"%char
    (String "144"%char (String "144"%char (String "168"%char EmptyString))).

Example first_unit_of_accented_key :
  index0 (e_acute ++ "clair") = Some (Character e_acute)
  /\ slice1 (e_acute ++ "clair") = "clair"
  /\ forall host : Runtime,
       upper_then_rest (host := host) (Character e_acute)
         (e_acute ++ "clair")
       = (toUpperCase e_acute ++ "clair")%string.
Proof. repeat split. Qed.

Example first_unit_of_deseret_key :
  index0 (deseret_small_ew ++ "x") = Some LeadSurrogate
  /\ forall host : Runtime,
       missing_label_message (host := host) (deseret_small_ew ++ "x")
         LeadSurrogate
       = ("[createTableSchema] Column " ++ dquote
            ++ deseret_small_ew ++ "x" ++ dquote
            ++ " is missing a label." ++ newline ++ "  Fix: .label("
            ++ dquote ++ deseret_small_ew ++ "x" ++ dquote ++ ")")%string.
Proof. repeat split. Qed.

Example validate_min_equals_max :
  validateSchema (host := ExampleHost.host)
    [("latency", slider_column "Latency" 50 50)]
  = Returns.
Proof. reflexivity. Qed.

Example validate_not_filterable :
  validateSchema (host := ExampleHost.host)
    [("id", Col.notFilterable (Col.label Col.string "ID"))]
  = Returns.
Proof. reflexivity. Qed.

End ValidationExamples.

(** C4 does not hold as stated: the column [name] has no label, yet the
    error thrown is the slider error of the column before it, and its
    message does not mention [name]. *)
Lemma missing_label_masked_by_slider_error :
  Validate.validateSchema (host := ExampleHost.host)
    [("latency", slider_column "Latency" 100 10); ("name", Col.string)]
  = Validate.ThrowsError
      (Validate.bounds_order_message (host := ExampleHost.host) "latency" 100 10)
  /\ ~ includes (Js.dquote ++ "name" ++ Js.dquote)
        (Validate.bounds_order_message (host := ExampleHost.host) "latency"
           100 10).
Proof.
  split; [reflexivity |].
  intros Hin. apply includes_includesb in Hin.
  vm_compute in Hin. discriminate Hin.
Qed.

Lemma missing_label_is_reported_witness :
  Validate.validateSchema (host := ExampleHost.host)
    ([("valid", Col.label Col.string "Valid")]
       ++ ("unlabeled", Col.number) :: [])
  = Validate.ThrowsError
      (Validate.missing_label_message (host := ExampleHost.host) "unlabeled"
         (Js.Character "u"))
  /\ Validate.validateSchema (host := ExampleHost.host)
       (Serialize.deserializeSchema
          {| columns :=
               [input_descriptor "valid" "Valid"]
                 ++ input_descriptor "unlabeled" "" :: [] |})
     = Validate.ThrowsError
         (Validate.missing_label_message (host := ExampleHost.host)
            "unlabeled" (Js.Character "u")).
Proof.
  split.
  - apply (proj1 (missing_label_is_reported (host := ExampleHost.host))).
    + repeat constructor. apply labelled_intro. reflexivity.
    + repeat constructor. intros f Hf Ht. simpl in Hf.
      inversion Hf as [Ef]. rewrite <- Ef in Ht. discriminate Ht.
    + reflexivity.
    + reflexivity.
  - apply (proj2 (missing_label_is_reported (host := ExampleHost.host))).
    + reflexivity.
    + repeat constructor. intros E. discriminate E.
    + repeat constructor. intros fd min max Hf Ht. simpl in Hf.
      inversion Hf as [Ef]. rewrite <- Ef in Ht. discriminate Ht.
    + reflexivity.
    + reflexivity.
Defined.

Section SliderBounds.
Import Js Validate Serialize.
Context {host : Runtime}.

(** C5, as the code has it. In a definition whose columns all have labels,
    take a column with a slider filter that has both bounds, the slider
    filters of the columns before it being valid. If its [min] is greater
    than its [max], [validateSchema] throws an error whose message contains
    both values in the form min (X) must be less than max (Y). If instead
    [min] equals [max], and the slider filters of the columns after it are
    valid as well, [validateSchema] returns. *)
Theorem slider_bounds_are_checked
    (pre : list (string * ColBuilder)) (key : string) (b : ColBuilder)
    (post : list (string * ColBuilder)) (f : FilterConfig) (min max : Q) :
  Forall labelled (pre ++ (key, b) :: post) ->
  Forall slider_in_order pre ->
  c_filter (_config b) = Some f -> f_type f = Slider ->
  f_min f = Some min -> f_max f = Some max ->
  ((max < min)%Q ->
     validateSchema (pre ++ (key, b) :: post)
     = ThrowsError (bounds_order_message key min max)
     /\ includes
          ("min (" ++ Number_toString min ++ ") must be less than max ("
             ++ Number_toString max ++ ")")
          (bounds_order_message key min max))
  /\ ((min == max)%Q -> Forall slider_in_order post ->
        validateSchema (pre ++ (key, b) :: post) = Returns).
Proof.
  intros Hl Hpre Hf Ht Hmin Hmax.
  apply Forall_app in Hl. destruct Hl as [Hlpre Hl].
  inversion Hl as [| e es Hlb Hlpost]; subst.
  split.
  - intros Hgt. split.
    + unfold validateSchema, entries.
      rewrite validateEntries_skip by now apply validateEntries_passes.
      apply validateEntries_first.
      unfold validateColumn. unfold labelled in Hlb. simpl in Hlb.
      apply truthy_true_iff in Hlb. rewrite Hlb. simpl.
      rewrite Hf, Ht, Hmin, Hmax.
      apply gt_true_iff in Hgt. now rewrite Hgt.
    + unfold bounds_order_message.
      exists ("[createTableSchema] Column " ++ dquote ++ key ++ dquote
                ++ ": slider ")%string,
        ("." ++ newline ++ "  Fix: swap the values " ++ em_dash
           ++ " .filterable(" ++ dquote ++ "slider" ++ dquote
           ++ ", { min: " ++ Number_toString max ++ ", max: "
           ++ Number_toString min ++ " })")%string.
      repeat rewrite string_app_assoc. reflexivity.
  - intros Heq Hpost.
    unfold validateSchema, entries.
    apply validateEntries_passes.
    + apply Forall_app. split; [assumption | now constructor].
    + apply Forall_app. split; [assumption |].
      constructor; [| assumption].
      intros f' Hf' _. simpl in Hf'. rewrite Hf in Hf'.
      inversion Hf'; subst f'.
      exists min, max. repeat split; try assumption.
      rewrite Heq. apply Qle_refl.
Qed.

(** C10, as the code has it. A descriptor whose filter says slider and
    lacks a bound is rebuilt, without any error, with an input filter that
    keeps the two flags and has no bounds. The only check the rebuilt
    column can fail is the one on its label: with a non-empty label it
    passes validation, alone in a document as well. *)
Theorem slider_without_bounds_becomes_input
    (d : ColumnDescriptor) (fd : FilterDescriptor) :
  cd_filter d = Some fd -> fd_type fd = Slider ->
  fd_min fd = None \/ fd_max fd = None ->
  c_filter (_config (deserializeColumn d))
  = Some {| f_type := Input; f_defaultOpen := fd_defaultOpen fd;
            f_commandDisabled := fd_commandDisabled fd; f_options := None;
            f_component := None; f_min := None; f_max := None;
            f_presets := None |}
  /\ validateColumn (cd_key d) (deserializeColumn d)
     = (if truthy (cd_label d) then Returns
        else match index0 (cd_key d) with
             | Some first =>
                 ThrowsError (missing_label_message (cd_key d) first)
             | None => ThrowsTypeError
             end)
  /\ (cd_label d <> "" ->
      validateSchema (deserializeSchema {| columns := [d] |}) = Returns).
Proof.
  intros Hf Ht Hb.
  assert (Hfilter :
            c_filter (_config (deserializeColumn d))
            = Some {| f_type := Input; f_defaultOpen := fd_defaultOpen fd;
                      f_commandDisabled := fd_commandDisabled fd;
                      f_options := None; f_component := None;
                      f_min := None; f_max := None; f_presets := None |}).
  { rewrite deserializeColumn_filter, Hf. simpl. unfold rebuilt_filter.
    rewrite Ht. destruct Hb as [-> | ->]; [reflexivity |].
    destruct (fd_min fd); reflexivity. }
  assert (Hcol :
            validateColumn (cd_key d) (deserializeColumn d)
            = (if truthy (cd_label d) then Returns
               else match index0 (cd_key d) with
                    | Some first =>
                        ThrowsError (missing_label_message (cd_key d) first)
                    | None => ThrowsTypeError
                    end)).
  { unfold validateColumn.
    rewrite deserializeColumn_label, Hfilter.
    destruct (truthy (cd_label d)); reflexivity. }
  repeat split; try assumption.
  intros Hl. apply truthy_true_iff in Hl. rewrite Hl in Hcol.
  unfold deserializeSchema. simpl.
  unfold Js.set. simpl.
  destruct (cd_key d =? "__proto__"); [reflexivity |].
  unfold validateSchema, entries.
  destruct (array_index (cd_key d)); simpl; now rewrite Hcol.
Qed.

End SliderBounds.

(** C5 does not hold as stated: every column has a label and column [b]
    has a slider with [min] above [max], yet the error thrown is the one of
    column [a], whose slider has no bounds, and its message does not have
    the form the claim gives. The interface accepts the call without
    argument that builds column [a]. *)
Lemma bounds_order_masked_by_missing_bounds :
  Validate.validateSchema (host := ExampleHost.host)
    [("a", slider_column_reset "A" 0 1); ("b", slider_column "B" 5 1)]
  = Validate.ThrowsError (Validate.missing_bounds_message "a")
  /\ ~ includes "min (5) must be less than max (1)"
        (Validate.missing_bounds_message "a")
  /\ Typed.accepts (Typed.legal Typed.number) Typed.NoArgument = true.
Proof.
  split; [reflexivity |]. split; [| reflexivity].
  intros Hin. apply includes_includesb in Hin.
  vm_compute in Hin. discriminate Hin.
Qed.

Lemma slider_bounds_are_checked_witness :
  Validate.validateSchema (host := ExampleHost.host)
    ([] ++ ("latency", slider_column "Latency" 100 10) :: [])
  = Validate.ThrowsError
      (Validate.bounds_order_message (host := ExampleHost.host) "latency" 100 10)
  /\ Validate.validateSchema (host := ExampleHost.host)
       ([] ++ ("latency", slider_column "Latency" 50 50) :: [])
     = Validate.Returns.
Proof.
  split.
  - apply (proj1 (slider_bounds_are_checked (host := ExampleHost.host)
                    [] "latency" (slider_column "Latency" 100 10) []
                    _ 100 10
                    ltac:(repeat constructor; apply labelled_intro;
                          reflexivity)
                    ltac:(constructor)
                    eq_refl eq_refl eq_refl eq_refl)).
    reflexivity.
  - apply (proj2 (slider_bounds_are_checked (host := ExampleHost.host)
                    [] "latency" (slider_column "Latency" 50 50) []
                    _ 50 50
                    ltac:(repeat constructor; apply labelled_intro;
                          reflexivity)
                    ltac:(constructor)
                    eq_refl eq_refl eq_refl eq_refl)).
    + reflexivity.
    + constructor.
Defined.

(** C10 does not hold as stated: the rebuilt column below has an input
    filter, and validation still fails, on its empty label. *)
Lemma unbounded_slider_without_label_fails :
  Validate.validateSchema (host := ExampleHost.host)
    (Serialize.deserializeSchema
       {| columns := [unbounded_slider_descriptor "latency" ""] |})
  = Validate.ThrowsError
      (Validate.missing_label_message (host := ExampleHost.host) "latency"
         (Js.Character "l"))
  /\ Validate.validateSchema (host := ExampleHost.host)
       (Serialize.deserializeSchema
          {| columns := [unbounded_slider_descriptor "latency" ""] |})
     <> Validate.Returns.
Proof. split; [reflexivity | discriminate]. Qed.

Lemma slider_without_bounds_becomes_input_witness :
  c_filter
    (_config
       (Serialize.deserializeColumn
          (unbounded_slider_descriptor "latency" "Latency")))
  = Some (Col.plain_filter Input)
  /\ Validate.validateSchema (host := ExampleHost.host)
       (Serialize.deserializeSchema
          {| columns := [unbounded_slider_descriptor "latency" "Latency"] |})
     = Validate.Returns.
Proof.
  pose proof (slider_without_bounds_becomes_input (host := ExampleHost.host)
                (unbounded_slider_descriptor "latency" "Latency")
                (Infer.plain_filter Slider) eq_refl eq_refl
                (or_introl eq_refl)) as [Hfilter [_ Hvalid]].
  split.
  - exact Hfilter.
  - apply Hvalid. discriminate.
Defined.

(* ------------------------------------------------------------------ *)
(** ** The builder: copy on write, and the filter types it accepts *)
(* ------------------------------------------------------------------ *)

Section Builder.
Import Chain.

Lemma nth_error_alloc_old (st : Store) (c c0 : ColConfig) (r : Ref) :
  nth_error st r = Some c0 -> nth_error (snd (alloc c st)) r = Some c0.
Proof.
  intros Hr. unfold alloc. simpl.
  rewrite nth_error_app1; [assumption |].
  apply nth_error_Some. congruence.
Qed.

Lemma nth_error_alloc_new (st : Store) (c : ColConfig) :
  nth_error (snd (alloc c st)) (fst (alloc c st)) = Some c.
Proof.
  unfold alloc. simpl.
  rewrite nth_error_app2 by apply Nat.le_refl.
  now rewrite Nat.sub_diag.
Qed.

(** C8. Every chainable method, called on a builder whose configuration
    object is in the store, returns a builder; no object that was in the
    store is changed, so the configuration of the original builder is what
    it was; and the configuration of the new builder is the one the method
    computes, equal to the original in every property but the one the method
    targets. *)
Theorem mutators_copy_on_write
    (m : Mutator) (b : BuilderObject) (st : Store) (c : ColConfig) :
  nth_error st (config_ref b) = Some c ->
  exists (b' : BuilderObject) (st' : Store),
    invoke m b st = Some (b', st')
    /\ (forall r c0, nth_error st r = Some c0 -> nth_error st' r = Some c0)
    /\ nth_error st' (config_ref b) = Some c
    /\ nth_error st' (config_ref b')
       = Some (_config (call m (createColBuilder c)))
    /\ (forall f, f <> target m ->
          same_at f c (_config (call m (createColBuilder c)))).
Proof.
  intros Hc. unfold invoke. rewrite Hc.
  destruct (passes_config_itself m c) eqn:Hp.
  - exists {| config_ref := config_ref b |}, st.
    repeat split; try assumption; try (intros; assumption).
    + simpl. rewrite Hc. f_equal.
      destruct m; simpl in Hp; try discriminate;
        destruct (c_filter c) eqn:Ef; try discriminate;
        unfold call, Col.defaultOpen, Col.commandDisabled; simpl;
        now rewrite Ef.
    + intros f Hf. now apply (call_frame m (createColBuilder c)).
  - destruct (alloc (_config (call m (createColBuilder c))) st)
      as [r st'] eqn:Ea.
    exists {| config_ref := r |}, st'.
    assert (Hst : st' = snd (alloc (_config (call m (createColBuilder c))) st))
      by now rewrite Ea.
    assert (Hr : r = fst (alloc (_config (call m (createColBuilder c))) st))
      by now rewrite Ea.
    repeat split.
    + intros r0 c0 H0. rewrite Hst. now apply nth_error_alloc_old.
    + rewrite Hst. now apply nth_error_alloc_old.
    + simpl. rewrite Hst, Hr. apply nth_error_alloc_new.
    + intros f Hf. now apply (call_frame m (createColBuilder c)).
Qed.

End Builder.

Lemma mutators_copy_on_write_witness :
  Chain.invoke Chain.MHidden {| Chain.config_ref := 0%nat |}
    [_config (Col.label Col.string "Host")]
  = Some ({| Chain.config_ref := 1%nat |},
          [_config (Col.label Col.string "Host");
           _config (Col.hidden (Col.label Col.string "Host"))])
  /\ exists b' st',
       Chain.invoke (Chain.MLabel "Origin") {| Chain.config_ref := 0%nat |}
         [_config (Col.label Col.string "Host")] = Some (b', st')
       /\ nth_error st' 0%nat = Some (_config (Col.label Col.string "Host")).
Proof.
  split; [reflexivity |].
  destruct (mutators_copy_on_write (Chain.MLabel "Origin")
              {| Chain.config_ref := 0%nat |}
              [_config (Col.label Col.string "Host")]
              (_config (Col.label Col.string "Host")) eq_refl)
    as [b' [st' [Hinv [_ [Hold _]]]]].
  exists b', st'. split; assumption.
Defined.

Lemma chain_after_never (b : Typed.TypedBuilder) (ms : list Chain.Mutator)
    (b' : Typed.TypedBuilder) :
  Typed.legal b = [] ->
  Typed.chain b ms = Some b' ->
  Typed.legal b' = []
  /\ Forall (fun m => forall type options,
                m <> Chain.MFilterable type options) ms.
Proof.
  revert b. induction ms as [| m ms IH]; intros b Hb; simpl.
  - intros [= <-]. split; [assumption | constructor].
  - destruct (Typed.step b m) as [b1 |] eqn:Es; [| discriminate].
    intros Hc.
    assert (H1 : Typed.legal b1 = []
                 /\ forall type options, m <> Chain.MFilterable type options).
    { destruct m; simpl in Es; inversion Es; subst; simpl;
        try (split; [assumption || reflexivity | discriminate]).
      exfalso. unfold Typed.filterable in Es. rewrite Hb in Es.
      destruct (Typed.args_of type options) as [[] |];
        simpl in Es; discriminate Es. }
    destruct H1 as [Hb1 Hm].
    destruct (IH b1 Hb1 Hc) as [Hb' Hall].
    split; [assumption | now constructor].
Qed.

(** C9, as the code has it. After [notFilterable] the set of filter types
    of the interface is empty and none of the overloads of [filterable]
    accepts a call, so the type checker rejects every one of them, also
    after further calls of the other methods: a chain that type-checks
    from there has no call to [filterable]. The method itself checks
    nothing: a call that reaches it at run time returns a builder with a
    filter. *)
Theorem filterable_after_notFilterable
    (b : Typed.TypedBuilder) (args : Typed.FilterableArgs)
    (type : option FilterType) (options : option Col.FilterOptions) :
  Typed.legal (Typed.notFilterable b) = []
  /\ Typed.accepts (Typed.legal (Typed.notFilterable b)) args = false
  /\ Typed.filterable (Typed.notFilterable b) args = None
  /\ (forall ms b',
        Typed.chain (Typed.notFilterable b) ms = Some b' ->
        Forall (fun m => forall type options,
                  m <> Chain.MFilterable type options) ms)
  /\ c_filter (_config (Typed.builder (Typed.notFilterable b))) = None
  /\ exists f,
       c_filter
         (_config
            (Col.filterable (Typed.builder (Typed.notFilterable b))
               type options))
       = Some f.
Proof.
  repeat split.
  - destruct args; reflexivity.
  - unfold Typed.filterable. destruct args; reflexivity.
  - intros ms b' Hc.
    now apply (chain_after_never (Typed.notFilterable b) ms b').
  - eexists. reflexivity.
Qed.

Lemma filterable_after_notFilterable_witness :
  Typed.chain (Typed.notFilterable Typed.string)
    [Chain.MHidden; Chain.MFilterable (Some Input) None]
  = None
  /\ Typed.chain Typed.string
       [Chain.MHidden; Chain.MFilterable (Some Input) None]
     <> None
  /\ Forall (fun m => forall type options,
               m <> Chain.MFilterable type options)
       [Chain.MHidden; Chain.MSortable].
Proof.
  split; [reflexivity |]. split; [discriminate |].
  destruct (filterable_after_notFilterable Typed.string Typed.NoArgument
              None None) as [_ [_ [_ [Hchain _]]]].
  apply (Hchain [Chain.MHidden; Chain.MSortable]
           {| Typed.legal := [];
              Typed.builder :=
                Col.sortable
                  (Col.hidden (Col.notFilterable Col.string)) |}).
  reflexivity.
Defined.

(** C9 does not hold as stated: at run time the call after
    [notFilterable] is not rejected, it yields a column with an input
    filter. *)
Lemma filterable_after_notFilterable_runs :
  c_filter
    (_config
       (Col.filterable (Col.notFilterable (Col.label Col.string "ID"))
          (Some Input) None))
  = Some (Col.plain_filter Input).
Proof. reflexivity. Qed.

(* ------------------------------------------------------------------ *)
(** ** Inference *)
(* ------------------------------------------------------------------ *)

Section Inference.
Import Js Infer.

(** The values a row has for a key, and the values of a sample for it, row
    after row. *)
Definition row_values (key : string) (row : jsval) : list jsval :=
  match row with
  | JObj props =>
      flat_map (fun e => if fst e =? key then [snd e] else []) props
  | _ => []
  end.

Definition sample_values (key : string) (rows : list jsval) : list jsval :=
  flat_map (row_values key) rows.

(** The distinct members of a list, each at its first occurrence. *)
Fixpoint first_seen (l : list string) : list string :=
  match l with
  | [] => []
  | x :: rest => x :: filter (fun y => negb (y =? x)) (first_seen rest)
  end.

(** [first_seen] keeps every member once. *)
Lemma first_seen_members (l : list string) :
  NoDup (first_seen l) /\ forall x, In x (first_seen l) <-> In x l.
Proof.
  induction l as [| a l [IHn IHi]]; simpl.
  - split; [constructor | tauto].
  - split.
    + constructor.
      * rewrite filter_In. intros [_ Ha].
        now rewrite String.eqb_refl in Ha.
      * now apply NoDup_filter.
    + intros x. rewrite filter_In, IHi.
      destruct (x =? a) eqn:E.
      * apply String.eqb_eq in E. subst x. simpl.
        split; [auto | intros _; now left].
      * apply String.eqb_neq in E. simpl. split.
        -- intros [Ha | [Hx _]]; [now left | now right].
        -- intros [Ha | Hx]; [now left | right; auto].
Qed.

Lemma filter_filter {A : Type} (p q : A -> bool) (l : list A) :
  filter p (filter q l) = filter (fun x => q x && p x) l.
Proof.
  induction l as [| x l IH]; simpl; [reflexivity |].
  destruct (q x); simpl; [destruct (p x) |]; now rewrite IH.
Qed.

Lemma mem_app (x : string) (a b : list string) :
  mem x (a ++ b) = mem x a || mem x b.
Proof. unfold mem. apply existsb_app. Qed.

Lemma fold_Set_add (l acc : list string) :
  fold_left Set_add l acc
  = acc ++ filter (fun y => negb (mem y acc)) (first_seen l).
Proof.
  revert acc. induction l as [| x l IH]; intros acc; simpl.
  - now rewrite app_nil_r.
  - rewrite IH. unfold Set_add.
    destruct (mem x acc) eqn:Hx; simpl.
    + f_equal. rewrite filter_filter. apply filter_ext. intros y.
      destruct (y =? x) eqn:Hy; simpl; [| reflexivity].
      apply String.eqb_eq in Hy. subst y. now rewrite Hx.
    + rewrite <- app_assoc. simpl. do 2 f_equal.
      rewrite filter_filter. apply filter_ext. intros y.
      rewrite mem_app. unfold mem at 2. simpl.
      rewrite orb_false_r, negb_orb. rewrite (String.eqb_sym x y).
      apply andb_comm.
Qed.

(** [new Set(items)] enumerates the distinct items in first-seen order. *)
Lemma new_Set_first_seen (l : list string) : new_Set l = first_seen l.
Proof.
  unfold new_Set. rewrite fold_Set_add. simpl.
  induction (first_seen l) as [| y r IH]; simpl; [reflexivity |].
  now rewrite IH.
Qed.

(** What a key maps to after more values were pushed for it. *)
Definition pushed (o : option (list jsval)) (vs : list jsval)
  : option (list jsval) :=
  match vs with
  | [] => o
  | _ :: _ =>
      Some match o with
           | Some l => l ++ vs
           | None => vs
           end
  end.

Lemma pushed_app (o : option (list jsval)) (a b : list jsval) :
  pushed (pushed o a) b = pushed o (a ++ b).
Proof.
  destruct a as [| x a]; simpl; [reflexivity |].
  destruct b as [| y b]; simpl.
  - now rewrite app_nil_r.
  - destruct o; simpl; [now rewrite <- app_assoc | reflexivity].
Qed.

Section WithRuntime.
Context {host : Runtime}.

Lemma get_Map_push (key k : string) (v : jsval)
    (m : list (string * list jsval)) :
  get key (Map_push k v m)
  = if k =? key then pushed (get key m) [v] else get key m.
Proof.
  induction m as [| [k' vs] m IH]; simpl.
  - destruct (k =? key); reflexivity.
  - destruct (k' =? k) eqn:E1.
    + apply String.eqb_eq in E1. subst k'. simpl.
      destruct (k =? key); reflexivity.
    + simpl. destruct (k' =? key) eqn:E2.
      * destruct (k =? key) eqn:E3; [| reflexivity].
        apply String.eqb_eq in E2, E3. subst.
        now rewrite String.eqb_refl in E1.
      * apply IH.
Qed.

Lemma get_fold_push (key : string) (props : list (string * jsval))
    (m : list (string * list jsval)) :
  get key (fold_left (fun kv e => Map_push (fst e) (snd e) kv) props m)
  = pushed (get key m) (row_values key (JObj props)).
Proof.
  revert m. induction props as [| [k v] props IH]; intros m; simpl.
  - reflexivity.
  - simpl in IH. rewrite IH, get_Map_push. simpl.
    destruct (k =? key); simpl.
    + apply (pushed_app (get key m) [v]).
    + reflexivity.
Qed.

Lemma get_collectRow (key : string) (row : jsval)
    (m : list (string * list jsval)) :
  get key (collectRow m row) = pushed (get key m) (row_values key row).
Proof.
  destruct row; try reflexivity. apply get_fold_push.
Qed.

Lemma get_fold_collectRow (key : string) (rows : list jsval)
    (m : list (string * list jsval)) :
  get key (fold_left collectRow rows m)
  = pushed (get key m) (sample_values key rows).
Proof.
  revert m. induction rows as [| row rows IH]; intros m; simpl.
  - reflexivity.
  - rewrite IH, get_collectRow. apply pushed_app.
Qed.

(** The map built from the sample holds, for a key, the values of the
    sample for it. *)
Lemma get_collect (key : string) (rows : list jsval) :
  get key (collect rows) = pushed None (sample_values key rows).
Proof. apply get_fold_collectRow. Qed.

Lemma inferColDescriptor_key (key : string) (values : list jsval) :
  cd_key (inferColDescriptor key values) = key.
Proof.
  unfold inferColDescriptor.
  repeat match goal with
         | |- context [if ?c then _ else _] => destruct c
         end; reflexivity.
Qed.

Lemma find_column (key : string) (values : list jsval)
    (m : list (string * list jsval)) :
  get key m = Some values ->
  find (fun d => cd_key d =? key)
    (map (fun e => inferColDescriptor (fst e) (snd e)) m)
  = Some (inferColDescriptor key values).
Proof.
  induction m as [| [k vs] m IH]; simpl; [discriminate |].
  rewrite inferColDescriptor_key.
  destruct (k =? key) eqn:E.
  - apply String.eqb_eq in E. subst k. now intros [= ->].
  - exact IH.
Qed.

(** The column inferred for a key that occurs in the sample. *)
Lemma column_of_key (key : string) (rows : list jsval) :
  sample_values key rows <> [] ->
  find (fun d => cd_key d =? key) (columns (inferSchemaFromJSON (JArr rows)))
  = Some (inferColDescriptor key (sample_values key rows)).
Proof.
  intros Hne. simpl. apply find_column. rewrite get_collect.
  destruct (sample_values key rows); [contradiction | reflexivity].
Qed.

End WithRuntime.
End Inference.

Section InferenceRules.
Import Js Infer.

(** The values of the sample for a key that are neither [null] nor
    [undefined]. *)
Definition non_null_values (key : string) (rows : list jsval) : list jsval :=
  filter (fun v => negb (is_nullish v)) (sample_values key rows).

(** The distinct strings among them, in first-seen order. *)
Definition distinct_strings (key : string) (rows : list jsval)
  : list string :=
  first_seen (strings_of (non_null_values key rows)).

Lemma forallb_excluded {A : Type} (p q : A -> bool) (l : list A) :
  l <> [] -> forallb p l = true ->
  (forall x, p x = true -> q x = false) ->
  forallb q l = false.
Proof.
  destruct l as [| x l]; [contradiction |]. simpl. intros _ Hp Hpq.
  apply andb_true_iff in Hp. destruct Hp as [Hx _].
  now rewrite (Hpq x Hx).
Qed.

Lemma filter_nonempty {A : Type} (p : A -> bool) (l : list A) :
  filter p l <> [] -> l <> [].
Proof. destruct l; [simpl; congruence | discriminate]. Qed.

Lemma length_eqb_0 {A : Type} (l : list A) :
  l <> [] -> Nat.eqb (List.length l) 0 = false.
Proof. destruct l; [contradiction | reflexivity]. Qed.

Lemma isInteger_of_Z (n : Q) (z : Z) :
  (n == inject_Z z)%Q -> Number_isInteger n = true.
Proof.
  unfold Qeq, Number_isInteger. simpl. rewrite Z.mul_1_r. intros ->.
  rewrite Z.mod_mul by discriminate. reflexivity.
Qed.

Section WithRuntime.
Context {host : Runtime}.

(** C6. When the non-null values of a key are all strings and one of them
    is not an ISO timestamp, the column inferred for the key is an
    enumeration with a checkbox filter whose options are the distinct values
    in first-seen order if there are at most 10 of them, and a plain string
    column with an input filter if there are 11 or more. *)
Theorem strings_infer_enum_or_string (rows : list jsval) (key : string) :
  (forall v, In v (non_null_values key rows) -> exists s, v = JStr s) ->
  (exists s, In (JStr s) (non_null_values key rows) /\ isIso8601 s = false) ->
  exists d,
    find (fun d => cd_key d =? key)
      (columns (inferSchemaFromJSON (JArr rows))) = Some d
    /\ ((List.length (distinct_strings key rows) <= 10)%nat ->
        cd_dataType d = KEnum
        /\ cd_enumValues d = Some (distinct_strings key rows)
        /\ cd_filter d
           = Some {| fd_type := Checkbox; fd_defaultOpen := false;
                     fd_commandDisabled := false;
                     fd_options :=
                       Some (map (fun v => {| opt_label := v;
                                              opt_value := OStr v |})
                               (distinct_strings key rows));
                     fd_min := None; fd_max := None |})
    /\ ((11 <= List.length (distinct_strings key rows))%nat ->
        cd_dataType d = KString
        /\ cd_filter d
           = Some {| fd_type := Input; fd_defaultOpen := false;
                     fd_commandDisabled := false; fd_options := None;
                     fd_min := None; fd_max := None |}).
Proof.
  intros Hstr [s0 [Hin0 Hiso0]].
  unfold distinct_strings.
  assert (Hne : non_null_values key rows <> []).
  { intros E. rewrite E in Hin0. contradiction. }
  assert (Hall : forallb is_string (non_null_values key rows) = true).
  { apply forallb_forall. intros v Hv.
    destruct (Hstr v Hv) as [s ->]. reflexivity. }
  exists (inferColDescriptor key (sample_values key rows)).
  split.
  { apply column_of_key. now apply (filter_nonempty _ _ Hne). }
  unfold inferColDescriptor. fold (non_null_values key rows).
  rewrite (length_eqb_0 _ Hne).
  assert (Hiso : forallb
                   (fun v => match v with
                             | JStr s => isIso8601 s
                             | _ => false
                             end) (non_null_values key rows) = false).
  { apply not_true_is_false. intros E.
    rewrite forallb_forall in E. specialize (E _ Hin0). simpl in E.
    congruence. }
  rewrite Hiso.
  rewrite (forallb_excluded is_string _ _ Hne Hall)
    by (intros [] Hx; simpl in *; congruence).
  rewrite (forallb_excluded is_string is_boolean _ Hne Hall)
    by (intros [] Hx; simpl in *; congruence).
  rewrite (forallb_excluded is_string is_number _ Hne Hall)
    by (intros [] Hx; simpl in *; congruence).
  rewrite (forallb_excluded is_string Array_isArray _ Hne Hall)
    by (intros [] Hx; simpl in *; congruence).
  rewrite (forallb_excluded is_string _ _ Hne Hall)
    by (intros [] Hx; simpl in *; congruence).
  rewrite Hall, new_Set_first_seen.
  split.
  - intros Hle. apply Nat.leb_le in Hle. rewrite Hle.
    repeat split.
  - intros Hge.
    assert (Hgt : (List.length
                     (first_seen (strings_of (non_null_values key rows)))
                   <=? 10)%nat = false) by (apply Nat.leb_gt; lia).
    rewrite Hgt. repeat split.
Qed.

(** C7, as the code has it. When a key has at least one non-null value and
    its non-null values are all integers from 1,000,000,000,000 to
    9,999,999,999,999, the column inferred for the key is a timestamp with a
    timerange filter. *)
Theorem unix_ms_integers_infer_timestamp
    (rows : list jsval) (key : string) :
  non_null_values key rows <> [] ->
  (forall v, In v (non_null_values key rows) ->
     exists (n : Q) (z : Z),
       v = JNum n /\ (n == inject_Z z)%Q
       /\ (UNIX_MS_MIN <= n)%Q /\ (n <= UNIX_MS_MAX)%Q) ->
  exists d,
    find (fun d => cd_key d =? key)
      (columns (inferSchemaFromJSON (JArr rows))) = Some d
    /\ cd_dataType d = KTimestamp
    /\ cd_filter d
       = Some {| fd_type := Timerange; fd_defaultOpen := false;
                 fd_commandDisabled := false; fd_options := None;
                 fd_min := None; fd_max := None |}.
Proof.
  intros Hne Hnum.
  exists (inferColDescriptor key (sample_values key rows)).
  split.
  { apply column_of_key. now apply (filter_nonempty _ _ Hne). }
  unfold inferColDescriptor. fold (non_null_values key rows).
  rewrite (length_eqb_0 _ Hne).
  assert (Hall : forallb is_number (non_null_values key rows) = true).
  { apply forallb_forall. intros v Hv.
    destruct (Hnum v Hv) as [n [z [-> _]]]. reflexivity. }
  rewrite (forallb_excluded is_number _ _ Hne Hall)
    by (intros [] Hx; simpl in *; congruence).
  assert (Hms : forallb
                  (fun v => match v with
                            | JNum n => isUnixMs n
                            | _ => false
                            end) (non_null_values key rows) = true).
  { apply forallb_forall. intros v Hv.
    destruct (Hnum v Hv) as [n [z [-> [Hz [Hlo Hhi]]]]].
    unfold isUnixMs. rewrite (isInteger_of_Z n z Hz).
    apply Qle_bool_iff in Hlo. apply Qle_bool_iff in Hhi.
    now rewrite Hlo, Hhi. }
  rewrite Hms. split; reflexivity.
Qed.

End WithRuntime.
End InferenceRules.

Section InferenceExamples.
Import Infer.

Definition level_rows : list jsval :=
  [ JObj [("level", JStr "error")];
    JObj [("level", JStr "warn")];
    JObj [("level", JNull)];
    JObj [("level", JStr "error")] ].

(** One sample, a number in the millisecond range that is not an
    integer. *)
Definition half_ms_rows : list jsval :=
  [ JObj [("ts", JNum (3400000000001 # 2))] ].

Definition ms_rows : list jsval :=
  [ JObj [("ts", JNum (1700000000000 # 1))];
    JObj [("ts", JNull)];
    JObj [("ts", JNum (1700000000123 # 1))] ].

(** The tests on numeric bounds of the specification. *)
Example infer_all_five :
  map cd_filter
    (columns
       (inferSchemaFromJSON (host := ExampleHost.host)
          (JArr [JObj [("n", JNum 5)]; JObj [("n", JNum 5)]])))
  = [Some (plain_filter Input)].
Proof. reflexivity. Qed.

Example infer_five_ten :
  map cd_filter
    (columns
       (inferSchemaFromJSON (host := ExampleHost.host)
          (JArr [JObj [("n", JNum 5)]; JObj [("n", JNum 10)]])))
  = [Some {| fd_type := Slider; fd_defaultOpen := false;
             fd_commandDisabled := false; fd_options := None;
             fd_min := Some 5; fd_max := Some 10 |}].
Proof. reflexivity. Qed.

(** Eleven distinct strings are one too many for an enumeration. *)
Example infer_eleven_strings :
  map (fun d => (cd_dataType d, cd_filter d))
    (columns
       (inferSchemaFromJSON (host := ExampleHost.host)
          (JArr
             (map (fun s => JObj [("name", JStr s)])
                ["a"; "b"; "c"; "d"; "e"; "f"; "g"; "h"; "i"; "j"; "k"]))))
  = [(KString, Some (plain_filter Input))].
Proof. reflexivity. Qed.

Example infer_ten_strings :
  map cd_dataType
    (columns
       (inferSchemaFromJSON (host := ExampleHost.host)
          (JArr
             (map (fun s => JObj [("name", JStr s)])
                ["a"; "b"; "c"; "d"; "e"; "f"; "g"; "h"; "i"; "j"; "a"]))))
  = [KEnum].
Proof. reflexivity. Qed.

End InferenceExamples.

Lemma strings_infer_enum_or_string_witness :
  exists d,
    find (fun d => cd_key d =? "level")
      (columns
         (Infer.inferSchemaFromJSON (host := ExampleHost.host)
            (Infer.JArr level_rows))) = Some d
    /\ cd_dataType d = KEnum
    /\ cd_enumValues d = Some ["error"; "warn"].
Proof.
  destruct (strings_infer_enum_or_string (host := ExampleHost.host)
              level_rows "level") as [d [Hfind [Henum _]]].
  - intros v Hv. simpl in Hv.
    destruct Hv as [<- | [<- | [<- | []]]]; eexists; reflexivity.
  - exists "error". split; [simpl; auto | reflexivity].
  - exists d. split; [exact Hfind |].
    destruct Henum as [Hk [Hv _]]; [simpl; lia |].
    split; [exact Hk | exact Hv].
Defined.

(** C7 does not hold as stated: 1700000000000.5 lies in the range, and the
    column is inferred as a number, not as a timestamp. *)
Lemma half_millisecond_is_a_number :
  (Qle_bool Infer.UNIX_MS_MIN (3400000000001 # 2)
   && Qle_bool (3400000000001 # 2) Infer.UNIX_MS_MAX = true)
  /\ map cd_dataType
       (columns
          (Infer.inferSchemaFromJSON (host := ExampleHost.host)
             (Infer.JArr half_ms_rows)))
     = [KNumber].
Proof. split; reflexivity. Qed.

Lemma unix_ms_integers_infer_timestamp_witness :
  exists d,
    find (fun d => cd_key d =? "ts")
      (columns
         (Infer.inferSchemaFromJSON (host := ExampleHost.host)
            (Infer.JArr ms_rows))) = Some d
    /\ cd_dataType d = KTimestamp.
Proof.
  destruct (unix_ms_integers_infer_timestamp (host := ExampleHost.host)
              ms_rows "ts") as [d [Hfind [Hk _]]].
  - discriminate.
  - intros v Hv. simpl in Hv. destruct Hv as [<- | [<- | []]].
    + exists (1700000000000 # 1), 1700000000000%Z.
      repeat split; try reflexivity; unfold Qle; simpl; lia.
    + exists (1700000000123 # 1), 1700000000123%Z.
      repeat split; try reflexivity; unfold Qle; simpl; lia.
  - exists d. split; assumption.
Defined.

(* ------------------------------------------------------------------ *)
(** ** The filter query language *)
(* ------------------------------------------------------------------ *)

Section QueryParser.
Import Js FilterQuery.

(** The pairs of the tokens that are kept: those with a colon, a name and
    a value. *)
Definition surviving (tokens : list string) : list (string * string) :=
  flat_map
    (fun token =>
       match splitFirstColon token with
       | Some (name, value) =>
           if (name =? "") || (value =? "") then [] else [(name, value)]
       | None => []
       end)
    tokens.

(** The value of the last pair that has the name. *)
Fixpoint last_value (name : string) (pairs : list (string * string))
  : option string :=
  match pairs with
  | [] => None
  | (n, v) :: rest =>
      match last_value name rest with
      | Some later => Some later
      | None => if n =? name then Some v else None
      end
  end.

Fixpoint has_colon (s : string) : bool :=
  match s with
  | EmptyString => false
  | String c r => (c =? ":")%char || has_colon r
  end.

Lemma get_overwrite (name n v : string) (o : FlatObject) :
  has n o = true ->
  get name (overwrite n v o) = if n =? name then Some v else get name o.
Proof.
  unfold has. induction o as [| [k w] o IH]; simpl; [discriminate |].
  destruct (k =? n) eqn:E; simpl.
  - intros _. apply String.eqb_eq in E. subst k.
    destruct (n =? name); reflexivity.
  - intros Ho. destruct (k =? name) eqn:E2.
    + destruct (n =? name) eqn:E3; [| reflexivity].
      apply String.eqb_eq in E2, E3. subst.
      now rewrite String.eqb_refl in E.
    + now apply IH.
Qed.

Lemma get_append (name n v : string) (o : FlatObject) :
  has n o = false ->
  get name (o ++ [(n, v)]) = if n =? name then Some v else get name o.
Proof.
  unfold has. induction o as [| [k w] o IH]; simpl.
  - intros _. reflexivity.
  - intros Ho. apply orb_false_iff in Ho. destruct Ho as [E Ho].
    destruct (k =? name) eqn:E2.
    + destruct (n =? name) eqn:E3; [| reflexivity].
      apply String.eqb_eq in E2, E3. subst.
      now rewrite String.eqb_refl in E.
    + now apply IH.
Qed.

Lemma get_assign (name n v : string) (o : FlatObject) :
  get name (assign n v o) = if n =? name then Some v else get name o.
Proof.
  unfold assign. destruct (has n o) eqn:E.
  - now apply get_overwrite.
  - now apply get_append.
Qed.

Lemma get_fold_step (name : string) (tokens : list string) (o : FlatObject) :
  get name (fold_left step tokens o)
  = match last_value name (surviving tokens) with
    | Some v => Some v
    | None => get name o
    end.
Proof.
  revert o. induction tokens as [| token tokens IH]; intros o; simpl.
  - reflexivity.
  - rewrite IH. unfold step, surviving. simpl.
    fold (surviving tokens).
    destruct (splitFirstColon token) as [[n v] |]; simpl.
    + destruct ((n =? "") || (v =? "")); simpl.
      * reflexivity.
      * destruct (last_value name (surviving tokens)); [reflexivity |].
        rewrite get_assign. destruct (n =? name); reflexivity.
    + reflexivity.
Qed.

Lemma splitFirstColon_Some (token name value : string) :
  splitFirstColon token = Some (name, value) <->
  token = (name ++ ":" ++ value)%string /\ has_colon name = false.
Proof.
  revert name. induction token as [| c r IH]; intros name; simpl.
  - split; [discriminate |]. intros [E _].
    destruct name; discriminate E.
  - destruct (c =? ":")%char eqn:Ec.
    + apply Ascii.eqb_eq in Ec. subst c. split.
      * intros [= <- <-]. split; reflexivity.
      * intros [E Hn]. destruct name as [| a name]; simpl in *.
        -- now inversion E.
        -- inversion E; subst a. simpl in Hn. discriminate Hn.
    + destruct (splitFirstColon r) as [[n v] |] eqn:Er.
      * split.
        -- intros [= <- <-]. simpl. rewrite Ec. simpl.
           destruct (proj1 (IH n) eq_refl) as [-> Hn]. split; auto.
        -- intros [E Hn]. destruct name as [| a name]; simpl in *.
           ++ inversion E; subst c. discriminate Ec.
           ++ inversion E; subst a. rewrite Ec in Hn. simpl in Hn.
              assert (Hs : Some (n, v) = Some (name, value))
                by (apply IH; split; assumption).
              now inversion Hs.
      * split; [discriminate |].
        intros [E Hn]. destruct name as [| a name]; simpl in *.
        -- inversion E; subst c. discriminate Ec.
        -- inversion E; subst a. rewrite Ec in Hn. simpl in Hn.
           assert (Hs : None = Some (name, value))
             by (apply IH; split; assumption).
           discriminate Hs.
Qed.

Lemma splitFirstColon_None (token : string) :
  splitFirstColon token = None <-> has_colon token = false.
Proof.
  induction token as [| c r IH]; simpl; [tauto |].
  destruct (c =? ":")%char; simpl.
  - split; discriminate.
  - destruct (splitFirstColon r) as [[n v] |].
    + split; [discriminate |]. intros E. apply IH in E. discriminate E.
    + split; [intros _; now apply IH | reflexivity].
Qed.

Lemma surviving_spec (tokens : list string) (name value : string) :
  In (name, value) (surviving tokens) <->
  name <> "" /\ value <> ""
  /\ exists token,
       In token tokens /\ splitFirstColon token = Some (name, value).
Proof.
  unfold surviving. rewrite in_flat_map. split.
  - intros [token [Ht Hp]].
    destruct (splitFirstColon token) as [[n v] |] eqn:Es; [| contradiction].
    destruct ((n =? "") || (v =? "")) eqn:Ee; [contradiction |].
    destruct Hp as [[= <- <-] | []].
    apply orb_false_iff in Ee. destruct Ee as [En Ev].
    apply String.eqb_neq in En, Ev. eauto.
  - intros [Hn [Hv [token [Ht Hs]]]]. exists token. split; [assumption |].
    rewrite Hs. apply String.eqb_neq in Hn, Hv. rewrite Hn, Hv. simpl. auto.
Qed.

(** C2. The parser is total and returns a tagged result: the success or
    the failure the schema gives for the accumulated object. Of the tokens
    of the trimmed input, the object holds the pairs of those that have a
    colon, a name before the first colon and a value after it; a name that
    occurs more than once has the value of its last pair; a token without
    colon, or with an empty name or value, leaves no trace. *)
Theorem parser_returns_tagged_result
    (T E : Type) (schema : FlatObject -> T + E) (input : string) :
  (exists accumulated,
      accumulated = parseObject input
      /\ ((exists data,
             schema accumulated = inl data
             /\ deserialize schema input = Success data)
          \/ (exists error,
                schema accumulated = inr error
                /\ deserialize schema input = Failure error)))
  /\ (forall name,
        get name (parseObject input)
        = last_value name (surviving (splitWhitespace (trim input))))
  /\ (forall name value,
        In (name, value) (surviving (splitWhitespace (trim input))) <->
        name <> "" /\ value <> ""
        /\ exists token,
             In token (splitWhitespace (trim input))
             /\ token = (name ++ ":" ++ value)%string
             /\ has_colon name = false)
  /\ (forall token,
        has_colon token = false -> surviving [token] = []).
Proof.
  split; [| split; [| split]].
  - exists (parseObject input). split; [reflexivity |].
    unfold deserialize.
    destruct (schema (parseObject input)) as [data | error]; eauto.
  - intros name. unfold parseObject. rewrite get_fold_step.
    destruct (last_value name _); reflexivity.
  - intros name value. rewrite surviving_spec. split.
    + intros [Hn [Hv [token [Ht Hs]]]].
      apply splitFirstColon_Some in Hs. destruct Hs as [Htok Hc].
      repeat split; try assumption. now exists token.
    + intros [Hn [Hv [token [Ht [Htok Hc]]]]].
      repeat split; try assumption.
      exists token. split; [assumption |].
      now apply splitFirstColon_Some.
  - intros token Hc. unfold surviving. simpl.
    apply splitFirstColon_None in Hc. now rewrite Hc.
Qed.

End QueryParser.

Section QueryTokens.
Import Js FilterQuery.

Fixpoint has_whitespace (s : string) : bool :=
  match s with
  | EmptyString => false
  | String c r => is_whitespace c || has_whitespace r
  end.

Fixpoint without_whitespace (s : string) : string :=
  match s with
  | EmptyString => EmptyString
  | String c r =>
      if is_whitespace c then without_whitespace r
      else String c (without_whitespace r)
  end.

Fixpoint count_whitespace (s : string) : nat :=
  match s with
  | EmptyString => 0%nat
  | String c r =>
      ((if is_whitespace c then 1 else 0) + count_whitespace r)%nat
  end.

Lemma splitWhitespace_cons (s : string) :
  exists t ts, splitWhitespace s = t :: ts.
Proof.
  induction s as [| c r [t [ts IH]]]; simpl; [eauto |].
  destruct (is_whitespace c); [eauto |]. rewrite IH. eauto.
Qed.

(** The input is cut exactly at its whitespace characters: no token
    contains one, there is one more token than there are whitespace
    characters, and the tokens put end to end are the input without its
    whitespace. *)
Lemma splitWhitespace_cuts (s : string) :
  Forall (fun token => has_whitespace token = false) (splitWhitespace s)
  /\ List.length (splitWhitespace s) = S (count_whitespace s)
  /\ fold_right String.append "" (splitWhitespace s) = without_whitespace s.
Proof.
  induction s as [| c r [IH1 [IH2 IH3]]]; simpl.
  - repeat split. repeat constructor.
  - destruct (is_whitespace c) eqn:Ec; simpl.
    + repeat split; [now constructor | now rewrite IH2 | exact IH3].
    + destruct (splitWhitespace_cons r) as [t [ts E]].
      rewrite E in *. simpl in *. inversion IH1; subst.
      repeat split.
      * constructor; [simpl; now rewrite Ec | assumption].
      * exact IH2.
      * now rewrite IH3.
Qed.

Lemma dropWhile_split (p : ascii -> bool) (l : list ascii) :
  exists dropped,
    l = dropped ++ dropWhile p l /\ forallb p dropped = true
    /\ match dropWhile p l with
       | [] => True
       | c :: _ => p c = false
       end.
Proof.
  induction l as [| c l [dropped [E [Hd Hh]]]]; simpl.
  - exists []. repeat split.
  - destruct (p c) eqn:Ec.
    + exists (c :: dropped). simpl. rewrite Ec, Hd. repeat split; try assumption.
      now rewrite E at 1.
    + exists []. repeat split. exact Ec.
Qed.

(** [trim] removes a run of whitespace at each end, and what is left
    neither starts nor ends with whitespace. *)
Lemma trim_strips (s : string) :
  exists before after,
    s = (before ++ trim s ++ after)%string
    /\ without_whitespace before = "" /\ without_whitespace after = ""
    /\ match list_ascii_of_string (trim s) with
       | [] => True
       | c :: _ => is_whitespace c = false
       end
    /\ match rev (list_ascii_of_string (trim s)) with
       | [] => True
       | c :: _ => is_whitespace c = false
       end.
Proof.
  assert (Hblank : forall l, forallb is_whitespace l = true ->
                     without_whitespace (string_of_list_ascii l) = "").
  { induction l as [| c l IH]; simpl; [reflexivity |].
    intros Hc. apply andb_true_iff in Hc. destruct Hc as [-> Hl]. auto. }
  assert (Happ : forall a b,
             string_of_list_ascii (a ++ b)
             = (string_of_list_ascii a ++ string_of_list_ascii b)%string).
  { induction a as [| c a IH]; intros b; simpl; [reflexivity |].
    now rewrite IH. }
  unfold trim.
  destruct (dropWhile_split is_whitespace (list_ascii_of_string s))
    as [front [E1 [Hfront Hhead]]].
  set (middle := dropWhile is_whitespace (list_ascii_of_string s)) in *.
  destruct (dropWhile_split is_whitespace (rev middle))
    as [back [E2 [Hback Hlast]]].
  set (kept := dropWhile is_whitespace (rev middle)) in *.
  assert (Emid : middle = rev kept ++ rev back).
  { rewrite <- rev_app_distr, <- E2. now rewrite rev_involutive. }
  exists (string_of_list_ascii front), (string_of_list_ascii (rev back)).
  rewrite list_ascii_of_string_of_list_ascii.
  repeat split.
  - rewrite <- !Happ, <- Emid, <- E1.
    now rewrite string_of_list_ascii_of_string.
  - now apply Hblank.
  - apply Hblank. rewrite forallb_forall in *. intros c Hc.
    apply Hback. now apply in_rev.
  - destruct (rev kept) as [| c rest] eqn:Ek; [trivial |].
    rewrite Emid in Hhead. simpl in Hhead. exact Hhead.
  - rewrite rev_involutive. exact Hlast.
Qed.

End QueryTokens.

Section QueryParserExamples.
Import Js FilterQuery.

(** The schema of the tests: [q] a string and [page] a number, both
    required. *)
Definition q_page_schema (o : FlatObject) : (string * N) + string :=
  match get "q" o, get "page" o with
  | Some q, Some page =>
      match parse_digits page 0%N with
      | Some n => inl (q, n)
      | None => inr "page: expected a number"
      end
  | _, _ => inr "required"
  end.

Example parse_well_formed :
  deserialize q_page_schema "q:hello page:2" = Success ("hello", 2%N).
Proof. reflexivity. Qed.

Example parse_missing_field :
  deserialize q_page_schema "q:world" = Failure "required".
Proof. reflexivity. Qed.

Example parse_no_colon :
  deserialize q_page_schema "nocolon q:hello page:1"
  = Success ("hello", 1%N).
Proof. reflexivity. Qed.

Example parse_empty_name :
  deserialize q_page_schema ":orphan q:search page:1"
  = Success ("search", 1%N).
Proof. reflexivity. Qed.

Example parse_empty_value :
  deserialize q_page_schema "q:hello q2: page:3" = Success ("hello", 3%N).
Proof. reflexivity. Qed.

Example parse_trims :
  deserialize q_page_schema "  q:hello page:1  " = Success ("hello", 1%N).
Proof. reflexivity. Qed.

Example parse_last_wins :
  deserialize q_page_schema "q:a page:1 q:b" = Success ("b", 1%N).
Proof. reflexivity. Qed.

End QueryParserExamples.

Section QuerySerializer.
Import Js FilterQuery.
Context {host : Runtime}.
Variables ARRAY_DELIMITER RANGE_DELIMITER SLIDER_DELIMITER : string.

Local Abbreviation render :=
  (render ARRAY_DELIMITER RANGE_DELIMITER SLIDER_DELIMITER).
Local Abbreviation serializeColumFilters :=
  (serializeColumFilters ARRAY_DELIMITER RANGE_DELIMITER SLIDER_DELIMITER).

(** The strings of a list, one after the other. *)
Definition concat_all (l : list string) : string :=
  fold_right String.append "" l.

(** What one entry contributes: nothing when it is skipped, its token
    otherwise. *)
Definition contribution (filterFields : list FilterField)
    (curr : ColumnFilter) : string :=
  match fieldFor filterFields curr with
  | None => ""
  | Some field =>
      id curr ++ ":" ++ render (ff_type field) (value curr) ++ " "
  end.

Lemma fold_contributions (filterFields : list FilterField)
    (columnFilters : list ColumnFilter) (prev : string) :
  fold_left
    (fun prev curr =>
       match fieldFor filterFields curr with
       | None => prev
       | Some field =>
           (prev ++ id curr ++ ":" ++ render (ff_type field) (value curr)
              ++ " ")%string
       end)
    columnFilters prev
  = (prev ++ concat_all (map (contribution filterFields) columnFilters))
      %string.
Proof.
  revert prev.
  induction columnFilters as [| curr rest IH]; intros prev; simpl.
  - now rewrite string_app_nil_r.
  - rewrite IH. unfold contribution at 2.
    destruct (fieldFor filterFields curr) as [field |]; simpl.
    + now repeat rewrite string_app_assoc.
    + reflexivity.
Qed.

(** C3. The serialized string is the concatenation, in input order, of
    what each entry contributes. An entry contributes nothing when no field
    has its key or the field found excludes it, and otherwise its key, a
    colon, its value and a space; a scalar is written as it is, the items
    of an array joined with the delimiter of the filter kind of the field.
    The empty list, and a list whose entries are all skipped, give the
    empty string. *)
Theorem serializer_concatenates_tokens
    (columnFilters : list ColumnFilter) (filterFields : list FilterField) :
  serializeColumFilters columnFilters filterFields
  = concat_all (map (contribution filterFields) columnFilters)
  /\ serializeColumFilters [] filterFields = ""
  /\ ((forall curr, In curr columnFilters ->
         fieldFor filterFields curr = None) ->
      serializeColumFilters columnFilters filterFields = "")
  /\ (forall curr,
        fieldFor filterFields curr = None <->
        (forall field, In field filterFields -> ff_value field <> id curr)
        \/ (exists field,
              find (fun field => ff_value field =? id curr) filterFields
              = Some field
              /\ ff_commandDisabled field = true))
  /\ (forall curr field,
        fieldFor filterFields curr = Some field ->
        contribution filterFields curr
        = (id curr ++ ":" ++ render (ff_type field) (value curr) ++ " ")
            %string)
  /\ (forall type v, render type (VScalar v) = renderScalar v)
  /\ (forall items,
        render Checkbox (VArray items)
        = join ARRAY_DELIMITER (map renderScalar items))
  /\ (forall a b,
        render Slider (VArray [a; b])
        = (renderScalar a ++ SLIDER_DELIMITER ++ renderScalar b)%string)
  /\ (forall items,
        render Timerange (VArray items)
        = join RANGE_DELIMITER (map renderScalar items)).
Proof.
  assert (Hfold : forall fs,
             serializeColumFilters fs filterFields
             = concat_all (map (contribution filterFields) fs)).
  { intros fs. unfold FilterQuery.serializeColumFilters.
    now rewrite fold_contributions. }
  split; [apply Hfold |].
  split; [reflexivity |].
  split.
  { intros Hskip. rewrite Hfold.
    induction columnFilters as [| curr rest IH]; [reflexivity |].
    simpl. unfold contribution at 1. rewrite (Hskip curr) by now left.
    simpl. apply IH. intros c Hc. apply Hskip. now right. }
  split.
  { intros curr. unfold fieldFor.
    destruct (find _ filterFields) as [field |] eqn:Ef.
    - destruct (ff_commandDisabled field) eqn:Ed.
      + split; [| reflexivity]. intros _. right. now exists field.
      + split; [discriminate |]. intros [Hno | [field' [[= <-] Hd]]].
        * apply find_some in Ef. destruct Ef as [Hin Hk].
          apply String.eqb_eq in Hk. now elim (Hno field Hin).
        * congruence.
    - split; [| reflexivity]. intros _. left. intros field Hin Hk.
      apply (find_none _ _ Ef) in Hin. simpl in Hin.
      apply String.eqb_neq in Hin. contradiction. }
  split.
  { intros curr field Hf. unfold contribution. now rewrite Hf. }
  repeat split.
Qed.

End QuerySerializer.

Section QuerySerializerExamples.
Import Js FilterQuery.

(** The fields of the tests. *)
Definition test_fields : list FilterField :=
  [ {| ff_value := "status"; ff_type := Checkbox;
       ff_commandDisabled := false |};
    {| ff_value := "level"; ff_type := Checkbox;
       ff_commandDisabled := false |};
    {| ff_value := "date"; ff_type := Timerange;
       ff_commandDisabled := false |};
    {| ff_value := "host"; ff_type := Input; ff_commandDisabled := false |};
    {| ff_value := "latency"; ff_type := Slider;
       ff_commandDisabled := false |};
    {| ff_value := "cursor"; ff_type := Input; ff_commandDisabled := true |} ].

(** The three codecs on the entries of the specification, whatever the
    delimiters are. *)
Lemma codecs_on_the_examples (A R S : string) :
  serializeColumFilters (host := ExampleHost.host) A R S
    [ {| id := "level";
         value := VArray [SString "error"; SString "warn"] |} ]
    test_fields
  = ("level:error" ++ A ++ "warn ")%string
  /\ serializeColumFilters (host := ExampleHost.host) A R S
       [ {| id := "latency"; value := VArray [SNumber 0; SNumber 500] |} ]
       test_fields
     = ("latency:0" ++ S ++ "500 ")%string
  /\ serializeColumFilters (host := ExampleHost.host) A R S
       [ {| id := "date";
            value := VArray [SString "2024-01-01"; SString "2024-01-31"] |} ]
       test_fields
     = ("date:2024-01-01" ++ R ++ "2024-01-31 ")%string
  /\ serializeColumFilters (host := ExampleHost.host) A R S
       [ {| id := "unknown"; value := VScalar (SString "foo") |};
         {| id := "cursor"; value := VScalar (SString "abc") |} ]
       test_fields
     = "".
Proof.
  repeat split; unfold serializeColumFilters; simpl;
    repeat rewrite string_app_assoc; reflexivity.
Qed.

End QuerySerializerExamples.

Lemma parser_returns_tagged_result_witness :
  FilterQuery.deserialize q_page_schema "nocolon q:hello q: page:1 q:bye"
  = FilterQuery.Success ("bye", 1%N)
  /\ Js.get "q" (FilterQuery.parseObject "nocolon q:hello q: page:1 q:bye")
     = Some "bye".
Proof.
  destruct (parser_returns_tagged_result _ _ q_page_schema
              "nocolon q:hello q: page:1 q:bye")
    as [[accumulated [-> Hres]] [Hget _]].
  split.
  - destruct Hres as [[data [Hs ->]] | [error [Hs _]]].
    + f_equal. vm_compute in Hs. now inversion Hs.
    + vm_compute in Hs. discriminate Hs.
  - rewrite Hget. reflexivity.
Defined.

Lemma serializer_concatenates_tokens_witness :
  FilterQuery.serializeColumFilters (host := ExampleHost.host) "," "-" "~"
    [ {| FilterQuery.id := "host";
         FilterQuery.value :=
           FilterQuery.VScalar (FilterQuery.SString "example.com") |};
      {| FilterQuery.id := "cursor";
         FilterQuery.value :=
           FilterQuery.VScalar (FilterQuery.SString "abc") |};
      {| FilterQuery.id := "status";
         FilterQuery.value :=
           FilterQuery.VArray
             [FilterQuery.SNumber 200; FilterQuery.SNumber 404] |} ]
    test_fields
  = "host:example.com status:200,404 ".
Proof.
  rewrite (proj1 (serializer_concatenates_tokens (host := ExampleHost.host)
                    "," "-" "~" _ test_fields)).
  reflexivity.
Defined.

(* ================================================================== *)
(** * Further properties *)
(* ================================================================== *)

(* ------------------------------------------------------------------ *)
(** ** The builder: how the methods compose *)
(* ------------------------------------------------------------------ *)

Section BuilderAlgebra.
Import Chain.

(** X1. Two chainable methods that target different properties commute:
    the builder obtained does not depend on the order of the two calls. *)
Theorem mutators_commute (m1 m2 : Mutator) (b : ColBuilder) :
  target m1 <> target m2 ->
  call m1 (call m2 b) = call m2 (call m1 b).
Proof.
  intros Ht.
  destruct b as [[kind values item opt text descr disp sz hid srt flt sh]].
  destruct m1, m2; simpl in Ht; try congruence;
    destruct flt; reflexivity.
Qed.

(** X2. Every chainable method is idempotent: calling it twice in a row
    with the same arguments gives the builder of the first call. *)
Theorem mutators_idempotent (m : Mutator) (b : ColBuilder) :
  call m (call m b) = call m b.
Proof.
  destruct b as [[kind values item opt text descr disp sz hid srt flt sh]].
  destruct m; try reflexivity.
  - destruct type, flt; reflexivity.
  - destruct flt; reflexivity.
  - destruct flt; reflexivity.
Qed.

End BuilderAlgebra.

Lemma mutators_commute_witness :
  Col.hidden (Col.label Col.string "Host")
  = Col.label (Col.hidden Col.string) "Host".
Proof.
  apply (mutators_commute Chain.MHidden (Chain.MLabel "Host") Col.string).
  discriminate.
Defined.

(* ------------------------------------------------------------------ *)
(** ** The builder: what the typed interface guarantees *)
(* ------------------------------------------------------------------ *)

Section Capabilities.
Import Typed.










End Capabilities.



(* ------------------------------------------------------------------ *)
(** ** The validator: what it accepts and what its errors say *)
(* ------------------------------------------------------------------ *)

Section ValidatorOutcome.
Import Js Validate.
Context {host : Runtime}.

Lemma validateColumn_returns (key : string) (b : ColBuilder) :
  validateColumn key b = Returns ->
  labelled (key, b) /\ slider_in_order (key, b).
Proof.
  unfold validateColumn, labelled, slider_in_order. simpl.
  destruct (truthy (c_label (_config b))) eqn:El; simpl.
  - intros Hv. split; [now apply truthy_true_iff |].
    intros f Hf Ht. rewrite Hf, Ht in Hv.
    destruct (f_min f) as [min |]; [| discriminate].
    destruct (f_max f) as [max |]; [| discriminate].
    destruct (gt min max) eqn:Eg; [discriminate |].
    exists min, max. repeat split. now apply gt_false_iff.
  - destruct (index0 key); discriminate.
Qed.

Lemma validateColumn_names_column (key : string) (b : ColBuilder)
    (message : string) :
  validateColumn key b = ThrowsError message ->
  includes ("Column " ++ dquote ++ key ++ dquote) message.
Proof.
  unfold validateColumn.
  destruct (negb (truthy (c_label (_config b)))).
  - destruct (index0 key) as [first |]; [| discriminate].
    intros [= <-]. unfold missing_label_message.
    exists "[createTableSchema] ",
      (" is missing a label." ++ newline ++ "  Fix: .label(" ++ dquote
         ++ upper_then_rest first key ++ dquote ++ ")")%string.
    repeat rewrite string_app_assoc. reflexivity.
  - destruct (c_filter (_config b)) as [f |]; [| discriminate].
    destruct (f_type f); try discriminate.
    destruct (f_min f) as [min |], (f_max f) as [max |].
    + destruct (gt min max); [| discriminate].
      intros [= <-]. unfold bounds_order_message.
      eexists "[createTableSchema] ", _.
      repeat rewrite string_app_assoc. reflexivity.
    + intros [= <-]. unfold missing_bounds_message.
      eexists "[createTableSchema] ", _.
      repeat rewrite string_app_assoc. reflexivity.
    + intros [= <-]. unfold missing_bounds_message.
      eexists "[createTableSchema] ", _.
      repeat rewrite string_app_assoc. reflexivity.
    + intros [= <-]. unfold missing_bounds_message.
      eexists "[createTableSchema] ", _.
      repeat rewrite string_app_assoc. reflexivity.
Qed.

(** Where [validateEntries] stops. *)
Lemma validateEntries_stops (es : list (string * ColBuilder)) :
  validateEntries es = Returns
  \/ exists pre key b post,
       es = pre ++ (key, b) :: post
       /\ validateEntries pre = Returns
       /\ validateColumn key b <> Returns
       /\ validateEntries es = validateColumn key b.
Proof.
  induction es as [| [key b] es IH]; simpl; [now left |].
  destruct (validateColumn key b) eqn:Ec.
  - destruct IH as [IH | [pre [k [b' [post [-> [Hp [Hn He]]]]]]]];
      [now left | right].
    exists ((key, b) :: pre), k, b', post. simpl. rewrite Ec.
    repeat split; assumption.
  - right. exists [], key, b, es. simpl. rewrite Ec.
    repeat split. discriminate.
  - right. exists [], key, b, es. simpl. rewrite Ec.
    repeat split. discriminate.
Qed.

Lemma validateEntries_returns (es : list (string * ColBuilder)) :
  validateEntries es = Returns ->
  Forall labelled es /\ Forall slider_in_order es.
Proof.
  induction es as [| [key b] es IH]; simpl.
  - intros _. split; constructor.
  - destruct (validateColumn key b) eqn:Ec; try discriminate.
    intros Hes. destruct (IH Hes) as [Hl Hs].
    destruct (validateColumn_returns key b Ec) as [Hlb Hsb].
    split; constructor; assumption.
Qed.

(** A slider filter of the column has both bounds, and the first is not
    greater than the second: the test [min > max] of the validator is
    false. *)
Definition slider_not_inverted (e : string * ColBuilder) : Prop :=
  forall f, c_filter (_config (snd e)) = Some f -> f_type f = Slider ->
  exists min max,
    f_min f = Some min /\ f_max f = Some max /\ ~ (max < min)%Q.

Lemma slider_not_inverted_iff (e : string * ColBuilder) :
  slider_not_inverted e <-> slider_in_order e.
Proof.
  unfold slider_not_inverted, slider_in_order.
  split; intros H f Hf Ht; destruct (H f Hf Ht) as [min [max [E1 [E2 Hm]]]];
    exists min, max; repeat split; try assumption.
  - now apply Qnot_lt_le.
  - now apply Qle_not_lt.
Qed.

(** X5. [validateSchema] returns exactly when every column has a non-empty
    label and every slider filter has both bounds, the minimum not greater
    than the maximum (for the finite bounds of the model: [min <= max]). No
    other property of a column can make it throw. *)
Theorem validateSchema_returns_iff (definition : TableSchemaDefinition) :
  validateSchema definition = Returns
  <-> Forall labelled definition /\ Forall slider_not_inverted definition.
Proof.
  unfold validateSchema, entries. split.
  - intros Hv. apply validateEntries_returns in Hv. destruct Hv as [Hl Hs].
    split; [exact Hl |].
    eapply Forall_impl; [| exact Hs].
    intros e. apply slider_not_inverted_iff.
  - intros [Hl Hs]. apply validateEntries_passes; [exact Hl |].
    eapply Forall_impl; [| exact Hs].
    intros e. apply slider_not_inverted_iff.
Qed.

(** X6. When [validateSchema] throws an [Error], the error is the one of
    the first column, in definition order, that lacks a label or has an
    invalid slider filter, and its message contains the word Column followed
    by the key of that column between double quotes. *)
Theorem validateSchema_error_names_first_invalid
    (definition : TableSchemaDefinition) (message : string) :
  validateSchema definition = ThrowsError message ->
  exists pre key b post,
    definition = pre ++ (key, b) :: post
    /\ Forall labelled pre /\ Forall slider_in_order pre
    /\ ~ (labelled (key, b) /\ slider_in_order (key, b))
    /\ validateColumn key b = ThrowsError message
    /\ includes ("Column " ++ dquote ++ key ++ dquote) message.
Proof.
  unfold validateSchema, entries. intros Hv.
  destruct (validateEntries_stops definition)
    as [Hr | [pre [key [b [post [Hd [Hp [Hn He]]]]]]]]; [congruence |].
  exists pre, key, b, post.
  destruct (validateEntries_returns pre Hp) as [Hl Hs].
  rewrite He in Hv.
  repeat split; try assumption.
  - intros [Hlb Hsb]. apply Hn. now apply validateColumn_passes.
  - now apply (validateColumn_names_column key b).
Qed.

(** X7. [validateSchema] ends in a [TypeError], not in its own descriptive
    error, exactly when the first invalid column has an empty label and the
    empty string as key: the fix hint reads the first character of the
    key. *)
Theorem validateSchema_type_error_iff
    (definition : TableSchemaDefinition) :
  validateSchema definition = ThrowsTypeError
  <-> exists pre b post,
        definition = pre ++ ("", b) :: post
        /\ Forall labelled pre /\ Forall slider_in_order pre
        /\ c_label (_config b) = "".
Proof.
  unfold validateSchema, entries. split.
  - intros Hv.
    destruct (validateEntries_stops definition)
      as [Hr | [pre [key [b [post [Hd [Hp [Hn He]]]]]]]]; [congruence |].
    rewrite He in Hv.
    destruct (validateEntries_returns pre Hp) as [Hl Hs].
    unfold validateColumn in Hv.
    destruct (truthy (c_label (_config b))) eqn:El; simpl in Hv.
    + destruct (c_filter (_config b)) as [f |]; [| discriminate].
      destruct (f_type f); try discriminate.
      destruct (f_min f), (f_max f); try discriminate.
      destruct (gt q q0); discriminate.
    + destruct key as [| ch key]; [| discriminate].
      exists pre, b, post. repeat split; try assumption.
      now apply truthy_false_iff.
  - intros [pre [b [post [-> [Hl [Hs Hb]]]]]].
    rewrite validateEntries_skip by now apply validateEntries_passes.
    simpl. unfold validateColumn. rewrite Hb. reflexivity.
Qed.

End ValidatorOutcome.

Lemma validateSchema_returns_iff_witness :
  Validate.validateSchema (host := ExampleHost.host)
    [("name", Col.label Col.string "Name");
     ("count", slider_column "Count" 0 100)]
  = Validate.Returns.
Proof.
  apply (proj2 (validateSchema_returns_iff (host := ExampleHost.host) _)).
  split.
  - repeat constructor; apply labelled_intro; reflexivity.
  - repeat constructor.
    + intros f Hf Ht. simpl in Hf. inversion Hf as [Ef].
      rewrite <- Ef in Ht. discriminate Ht.
    + intros f Hf Ht. simpl in Hf. injection Hf as <-.
      exists 0, 100. repeat split.
      unfold Qlt. simpl. lia.
Defined.

Lemma validateSchema_error_names_first_invalid_witness :
  exists pre key b post,
    [("valid", Col.label Col.string "Valid"); ("latency", slider_column "L" 9 1);
     ("unlabeled", Col.number)]
    = pre ++ (key, b) :: post
    /\ includes ("Column " ++ Js.dquote ++ key ++ Js.dquote)
         (Validate.bounds_order_message (host := ExampleHost.host)
            "latency" 9 1).
Proof.
  destruct (validateSchema_error_names_first_invalid
              (host := ExampleHost.host)
              [("valid", Col.label Col.string "Valid");
               ("latency", slider_column "L" 9 1);
               ("unlabeled", Col.number)]
              (Validate.bounds_order_message (host := ExampleHost.host)
                 "latency" 9 1) eq_refl)
    as [pre [key [b [post [Hd [_ [_ [_ [_ Hin]]]]]]]]].
  exists pre, key, b, post. split; assumption.
Defined.

Lemma validateSchema_type_error_iff_witness :
  Validate.validateSchema (host := ExampleHost.host)
    ([("name", Col.label Col.string "Name")] ++ ("", Col.string) :: [])
  = Validate.ThrowsTypeError.
Proof.
  apply (proj2 (validateSchema_type_error_iff (host := ExampleHost.host) _)).
  exists [("name", Col.label Col.string "Name")], Col.string, [].
  repeat split.
  - repeat constructor. apply labelled_intro. reflexivity.
  - repeat constructor. intros f Hf Ht. simpl in Hf. inversion Hf as [Ef].
    rewrite <- Ef in Ht. discriminate Ht.
Defined.

(* ------------------------------------------------------------------ *)
(** ** The deserializer: duplicate keys and custom displays *)
(* ------------------------------------------------------------------ *)

Section Deserializer.
Import Js Serialize.

Lemma get_overwrite_any {V : Type} (k' k : string) (v : V) (o : Obj V) :
  has k o = true ->
  get k' (overwrite k v o) = if k =? k' then Some v else get k' o.
Proof.
  unfold has. induction o as [| [k0 w] o IH]; simpl; [discriminate |].
  destruct (k0 =? k) eqn:E; simpl.
  - intros _. apply String.eqb_eq in E. subst k0.
    destruct (k =? k'); reflexivity.
  - intros Ho. destruct (k0 =? k') eqn:E2.
    + destruct (k =? k') eqn:E3; [| reflexivity].
      apply String.eqb_eq in E2, E3. subst.
      now rewrite String.eqb_refl in E.
    + now apply IH.
Qed.

Lemma get_append_any {V : Type} (k' k : string) (v : V) (o : Obj V) :
  has k o = false ->
  get k' (o ++ [(k, v)]) = if k =? k' then Some v else get k' o.
Proof.
  unfold has. induction o as [| [k0 w] o IH]; simpl.
  - intros _. reflexivity.
  - intros Ho. apply orb_false_iff in Ho. destruct Ho as [E Ho].
    destruct (k0 =? k') eqn:E2.
    + destruct (k =? k') eqn:E3; [| reflexivity].
      apply String.eqb_eq in E2, E3. subst.
      now rewrite String.eqb_refl in E.
    + now apply IH.
Qed.

Lemma get_insert_index {V : Type} (k' k : string) (n : N) (v : V)
    (o : Obj V) :
  has k o = false ->
  get k' (insert_index n k v o) = if k =? k' then Some v else get k' o.
Proof.
  unfold has. induction o as [| [k0 w] o IH]; simpl.
  - intros _. reflexivity.
  - intros Ho. apply orb_false_iff in Ho. destruct Ho as [E Ho].
    assert (Hhead : get k' ((k, v) :: (k0, w) :: o)
                    = if k =? k' then Some v
                      else if k0 =? k' then Some w else get k' o)
      by reflexivity.
    destruct (array_index k0) as [n0 |].
    + destruct (n <? n0)%N; [exact Hhead |]. simpl.
      destruct (k0 =? k') eqn:E2.
      * destruct (k =? k') eqn:E3; [| reflexivity].
        apply String.eqb_eq in E2, E3. subst.
        now rewrite String.eqb_refl in E.
      * now apply IH.
    + exact Hhead.
Qed.

(** Reading a property after an assignment. *)
Lemma get_set {V : Type} (k' k : string) (v : V) (o : Obj V) :
  get k' (set k v o)
  = if k =? "__proto__" then get k' o
    else if k =? k' then Some v else get k' o.
Proof.
  unfold set. destruct (k =? "__proto__"); [reflexivity |].
  destruct (has k o) eqn:Eh.
  - now apply get_overwrite_any.
  - destruct (array_index k) as [n |].
    + now apply get_insert_index.
    + now apply get_append_any.
Qed.

(** The last descriptor of a document that has the key. *)
Definition last_with_key (key : string) (cols : list ColumnDescriptor)
  : option ColumnDescriptor :=
  find (fun d => cd_key d =? key) (rev cols).

Lemma find_snoc {A : Type} (p : A -> bool) (l : list A) (x : A) :
  find p (l ++ [x])
  = match find p l with
    | Some y => Some y
    | None => if p x then Some x else None
    end.
Proof.
  induction l as [| y l IH]; simpl; [reflexivity |].
  destruct (p y); [reflexivity | exact IH].
Qed.

(** The column a definition built without error holds under a key. *)
Lemma get_deserializeSchema (json : SchemaJSON) (key : string) :
  get key (deserializeSchema json)
  = if key =? "__proto__" then None
    else option_map deserializeColumn (last_with_key key (columns json)).
Proof.
  unfold deserializeSchema, last_with_key.
  assert (Hgen : forall cols acc,
             get key
               (fold_left
                  (fun definition col_ =>
                     set (cd_key col_) (deserializeColumn col_) definition)
                  cols acc)
             = if key =? "__proto__" then get key acc
               else match find (fun d => cd_key d =? key) (rev cols) with
                    | Some d => Some (deserializeColumn d)
                    | None => get key acc
                    end).
  { induction cols as [| d cols IH]; intros acc; simpl.
    - destruct (key =? "__proto__"); reflexivity.
    - rewrite IH, find_snoc, get_set.
      destruct (key =? "__proto__") eqn:Ep.
      + destruct (cd_key d =? "__proto__") eqn:Ed; [reflexivity |].
        destruct (cd_key d =? key) eqn:Ek; [| reflexivity].
        apply String.eqb_eq in Ek. congruence.
      + destruct (find (fun d0 => cd_key d0 =? key) (rev cols));
          [reflexivity |].
        destruct (cd_key d =? key) eqn:Ek.
        * apply String.eqb_eq in Ek. subst key. now rewrite Ep.
        * destruct (cd_key d =? "__proto__"); reflexivity. }
  rewrite Hgen. simpl.
  destruct (key =? "__proto__"); [reflexivity |].
  destruct (find _ (rev (columns json))); reflexivity.
Qed.

Lemma has_get {V : Type} (k : string) (o : Obj V) :
  has k o = match get k o with Some _ => true | None => false end.
Proof.
  unfold has. induction o as [| [k0 v] o IH]; simpl; [reflexivity |].
  destruct (k0 =? k); [reflexivity | exact IH].
Qed.

Lemma has_set {V : Type} (k' k : string) (v : V) (o : Obj V) :
  has k' (set k v o)
  = if k =? "__proto__" then has k' o else (k =? k') || has k' o.
Proof.
  rewrite !has_get, get_set.
  destruct (k =? "__proto__"); [reflexivity |].
  destruct (k =? k'); reflexivity.
Qed.

(** Some key [__proto__] comes before the first key [_config]. *)
Definition proto_before_config (keys : list string) : Prop :=
  exists pre post,
    keys = pre ++ "_config" :: post
    /\ In "__proto__" pre /\ ~ In "_config" pre.

Lemma assignColumn_Some (definition : TableSchemaDefinition)
    (inherits : bool) (col_ : ColumnDescriptor) :
  assignColumn (Some (definition, inherits)) col_
  = if cd_key col_ =? "__proto__" then Some (definition, true)
    else if inherits && (cd_key col_ =? "_config")
            && negb (has (cd_key col_) definition)
    then None
    else Some (set (cd_key col_) (deserializeColumn col_) definition,
               inherits).
Proof. reflexivity. Qed.

Lemma fold_assignColumn_None (cols : list ColumnDescriptor) :
  fold_left assignColumn cols None = None.
Proof. induction cols as [| d cols IH]; [reflexivity | exact IH]. Qed.

(** When the loop completes, its definition is the one of
    [deserializeSchema]. *)
Lemma fold_assignColumn_definition (cols : list ColumnDescriptor) :
  forall (acc def : TableSchemaDefinition) (inh inh' : bool),
    fold_left assignColumn cols (Some (acc, inh)) = Some (def, inh') ->
    def = fold_left
            (fun definition col_ =>
               set (cd_key col_) (deserializeColumn col_) definition)
            cols acc.
Proof.
  induction cols as [| d cols IH]; intros acc def inh inh'.
  - simpl. now intros [= -> _].
  - cbn [fold_left]. rewrite assignColumn_Some.
    destruct (cd_key d =? "__proto__") eqn:Ep.
    + intros H. apply IH in H. unfold set at 2. now rewrite Ep.
    + destruct (inh && (cd_key d =? "_config")
                && negb (has (cd_key d) acc)).
      * rewrite fold_assignColumn_None. discriminate.
      * apply IH.
Qed.

(** The loop throws exactly when it meets a key [_config] that is no own
    key yet, after the prototype has become a builder. *)
Lemma fold_assignColumn_throws (cols : list ColumnDescriptor) :
  forall (acc : TableSchemaDefinition) (inh : bool),
    fold_left assignColumn cols (Some (acc, inh)) = None
    <-> has "_config" acc = false
        /\ exists pre post,
             map cd_key cols = pre ++ "_config" :: post
             /\ ~ In "_config" pre
             /\ (inh = true \/ In "__proto__" pre).
Proof.
  induction cols as [| d cols IH]; intros acc inh.
  - simpl. split; [discriminate |].
    intros [_ [pre [post [E _]]]]. destruct pre; discriminate.
  - cbn [fold_left map]. rewrite assignColumn_Some.
    destruct (cd_key d =? "__proto__") eqn:Ep.
    + rewrite IH. apply String.eqb_eq in Ep. split.
      * intros [Hh [pre [post [E [Hn _]]]]]. split; [exact Hh |].
        exists (cd_key d :: pre), post. rewrite E. split; [reflexivity |].
        split.
        -- intros [Hd | Hin]; [rewrite Ep in Hd; discriminate | auto].
        -- right. left. exact Ep.
      * intros [Hh [pre [post [E [Hn Hor]]]]]. split; [exact Hh |].
        destruct pre as [| k0 pre]; simpl in E.
        -- injection E as E0 _. rewrite Ep in E0. discriminate.
        -- injection E as E0 E1. exists pre, post.
           split; [exact E1 |]. split; [| now left].
           intros Hin. apply Hn. now right.
    + destruct (cd_key d =? "_config") eqn:Ec.
      * apply String.eqb_eq in Ec. rewrite Ec in *.
        assert (Hown : forall b : ColBuilder,
                   has "_config" (set "_config" b acc) = true).
        { intros b. rewrite has_set. reflexivity. }
        destruct inh, (has "_config" acc) eqn:Eh; cbn [andb negb].
        -- rewrite IH, Hown. split; [intros [H _] | intros [H _]];
             discriminate.
        -- rewrite fold_assignColumn_None.
           split; [| reflexivity]. intros _. split; [reflexivity |].
           exists [], (map cd_key cols). split; [reflexivity |].
           split; [intros [] | now left].
        -- rewrite IH, Hown. split; [intros [H _] | intros [H _]];
             discriminate.
        -- rewrite IH, Hown. split; [intros [H _]; discriminate |].
           intros [_ [pre [post [E [Hn Hor]]]]].
           destruct pre as [| k0 pre].
           ++ destruct Hor as [H | []]. discriminate.
           ++ simpl in E. injection E as E0 _. exfalso. apply Hn. now left.
      * replace (inh && false && negb (has (cd_key d) acc)) with false
          by (destruct inh; reflexivity).
        rewrite IH, has_set, Ep, Ec. cbn [orb].
        apply String.eqb_neq in Ep, Ec. split.
        -- intros [Hh [pre [post [E [Hn Hor]]]]]. split; [exact Hh |].
           exists (cd_key d :: pre), post. rewrite E.
           split; [reflexivity |]. split.
           ++ intros [Hd | Hin]; [now apply Ec | auto].
           ++ destruct Hor as [H | H]; [now left | right; now right].
        -- intros [Hh [pre [post [E [Hn Hor]]]]]. split; [exact Hh |].
           destruct pre as [| k0 pre]; simpl in E.
           ++ injection E as E0 _. now contradiction Ec.
           ++ injection E as E0 E1. subst k0. exists pre, post.
              split; [exact E1 |]. split.
              ** intros Hin. apply Hn. now right.
              ** destruct Hor as [H | [H | H]];
                   [now left | now contradiction Ep | now right].
Qed.

Lemma runDeserializeSchema_throws (json : SchemaJSON) :
  runDeserializeSchema json = None
  <-> proto_before_config (map cd_key (columns json)).
Proof.
  unfold runDeserializeSchema, proto_before_config.
  destruct (fold_left assignColumn (columns json) (Some ([], false)))
    as [[def inh] |] eqn:E.
  - split; [discriminate |]. intros [pre [post [Ek [Hp Hn]]]].
    assert (Hnone : fold_left assignColumn (columns json) (Some ([], false))
                    = None).
    { apply fold_assignColumn_throws. split; [reflexivity |].
      exists pre, post. auto. }
    congruence.
  - split; [| reflexivity]. intros _.
    apply fold_assignColumn_throws in E.
    destruct E as [_ [pre [post [Ek [Hn [H | Hp]]]]]]; [discriminate |].
    exists pre, post. auto.
Qed.

Lemma runDeserializeSchema_returns (json : SchemaJSON) :
  ~ proto_before_config (map cd_key (columns json)) ->
  runDeserializeSchema json = Some (deserializeSchema json).
Proof.
  intros Hsafe. unfold runDeserializeSchema.
  destruct (fold_left assignColumn (columns json) (Some ([], false)))
    as [[def inh] |] eqn:E.
  - simpl. f_equal. now apply fold_assignColumn_definition in E.
  - exfalso. apply Hsafe. apply runDeserializeSchema_throws.
    unfold runDeserializeSchema. now rewrite E.
Qed.

Lemma no_proto_is_safe (keys : list string) :
  ~ In "__proto__" keys -> ~ proto_before_config keys.
Proof.
  intros Hn [pre [post [E [Hp _]]]]. apply Hn. rewrite E.
  apply in_or_app. now left.
Qed.

(** X9. [deserializeSchema] throws, a TypeError, exactly when some key
    [__proto__] of the document comes before its first key [_config]: the
    first makes a builder the prototype of the definition, and the second
    then reaches the accessor [_config] of that builder, which has no
    setter. Otherwise it returns, and when several descriptors have the
    same key, the definition holds, under that key, the column rebuilt from
    the last of them; a key that no descriptor has is absent, and so is the
    key [__proto__], whose assignment creates no property. *)
Theorem deserializeSchema_last_duplicate_wins
    (json : SchemaJSON) (key : string) :
  (runDeserializeSchema json = None
   <-> proto_before_config (map cd_key (columns json)))
  /\ (~ proto_before_config (map cd_key (columns json)) ->
      exists definition,
        runDeserializeSchema json = Some definition
        /\ get key definition
           = if key =? "__proto__" then None
             else option_map deserializeColumn
                    (last_with_key key (columns json))).
Proof.
  split; [apply runDeserializeSchema_throws |].
  intros Hsafe. exists (deserializeSchema json).
  split; [now apply runDeserializeSchema_returns |].
  apply get_deserializeSchema.
Qed.

(** X10. A descriptor whose display type is custom is rebuilt with the
    default display of its data type (badge for enumerations and arrays,
    boolean, timestamp, number, text otherwise) and without cell renderer. *)
Theorem custom_display_degrades (d : ColumnDescriptor) :
  dd_type (cd_display d) = "custom" ->
  d_type (c_display (_config (deserializeColumn d)))
  = defaultDisplayType (cd_dataType d)
  /\ d_cell (c_display (_config (deserializeColumn d))) = None.
Proof.
  intros Hc. rewrite deserializeColumn_config. simpl.
  unfold rebuilt_display. rewrite Hc. simpl.
  unfold pickFactory.
  destruct (cd_dataType d), (cd_enumValues d),
    (cd_arrayItemType d) as [[[] []] |],
    (truthy_opt (dd_unit (cd_display d)));
    simpl; split; reflexivity.
Qed.

End Deserializer.

Lemma custom_display_degrades_witness :
  d_type
    (c_display
       (_config
          (Serialize.deserializeColumn
             {| cd_key := "level"; cd_label := "Level";
                cd_description := None; cd_dataType := KEnum;
                cd_enumValues := Some ["error"; "info"];
                cd_arrayItemType := None; cd_optional := false;
                cd_hidden := false; cd_sortable := false; cd_size := None;
                cd_display := {| dd_type := "custom"; dd_unit := None |};
                cd_filter := Some (Infer.plain_filter Checkbox);
                cd_sheet := None |})))
  = "badge".
Proof.
  apply (custom_display_degrades
           {| cd_key := "level"; cd_label := "Level";
              cd_description := None; cd_dataType := KEnum;
              cd_enumValues := Some ["error"; "info"];
              cd_arrayItemType := None; cd_optional := false;
              cd_hidden := false; cd_sortable := false; cd_size := None;
              cd_display := {| dd_type := "custom"; dd_unit := None |};
              cd_filter := Some (Infer.plain_filter Checkbox);
              cd_sheet := None |}).
  reflexivity.
Defined.

Section DeserializerExamples.

Definition level_descriptor (key : string) (values : list string)
  : ColumnDescriptor :=
  {| cd_key := key; cd_label := "Level"; cd_description := None;
     cd_dataType := KEnum; cd_enumValues := Some values;
     cd_arrayItemType := None; cd_optional := false; cd_hidden := false;
     cd_sortable := false; cd_size := None;
     cd_display := {| dd_type := "badge"; dd_unit := None |};
     cd_filter := Some (Infer.plain_filter Checkbox); cd_sheet := None |}.

(** The document on which the deserializer throws: the key [_config] after
    the key [__proto__]. *)
Example deserializeSchema_throws_after_proto :
  Serialize.runDeserializeSchema
    {| columns := [input_descriptor "__proto__" "Proto";
                   input_descriptor "_config" "Config"] |}
  = None.
Proof. reflexivity. Qed.

(** In the other order it returns: [_config] is an own key by then. *)
Example deserializeSchema_returns_before_proto :
  option_map Js.keys
    (Serialize.runDeserializeSchema
       {| columns := [input_descriptor "_config" "Config";
                      input_descriptor "__proto__" "Proto";
                      input_descriptor "_config" "Again"] |})
  = Some ["_config"].
Proof. reflexivity. Qed.

End DeserializerExamples.

Lemma deserializeSchema_last_duplicate_wins_witness :
  exists definition,
    Serialize.runDeserializeSchema
      {| columns := [level_descriptor "level" ["info"];
                     input_descriptor "host" "Host";
                     level_descriptor "level" ["warn"; "error"]] |}
    = Some definition
    /\ Js.get "level" definition
       = Some (Serialize.deserializeColumn
                 (level_descriptor "level" ["warn"; "error"])).
Proof.
  apply (proj2 (deserializeSchema_last_duplicate_wins
                  {| columns := [level_descriptor "level" ["info"];
                                 input_descriptor "host" "Host";
                                 level_descriptor "level" ["warn"; "error"]] |}
                  "level")).
  apply no_proto_is_safe. simpl.
  intros [H | [H | [H | []]]]; discriminate.
Defined.

(* ------------------------------------------------------------------ *)
(** ** The serializer and the validator together *)
(* ------------------------------------------------------------------ *)

Section SerializerAndValidator.
Import Js Validate Serialize.
Context {host : Runtime}.

Lemma serialized_labelled (e : string * ColBuilder) :
  labelled e -> descriptor_labelled (serializeEntry e).
Proof. destruct e as [key [c]]. exact (fun H => H). Qed.

Lemma serialized_slider_in_order (e : string * ColBuilder) :
  slider_in_order e -> descriptor_slider_in_order (serializeEntry e).
Proof.
  destruct e as [key [c]]. unfold slider_in_order, descriptor_slider_in_order.
  simpl. intros He fd min max Hfd Ht Hmin Hmax.
  destruct (c_filter c) as [f |]; [| discriminate].
  simpl in Hfd. injection Hfd as <-. simpl in *.
  destruct (He f eq_refl Ht) as [min' [max' [E1 [E2 Hle]]]].
  congruence.
Qed.

Lemma serialized_keys (definition : TableSchemaDefinition) :
  map cd_key (columns (serializeSchema definition)) = keys definition.
Proof.
  unfold serializeSchema, entries, keys. cbn [columns].
  rewrite map_map. apply map_ext. intros e. apply serializeEntry_key.
Qed.

(** X8. A definition that passes validation, and in which no key
    [__proto__] comes before the first key [_config], is deserialized from
    its serialization without error, and the definition so obtained passes
    validation, whatever was lost on the way. (The converse does not hold:
    a slider filter without bounds fails validation and comes back as an
    input filter, which passes.) *)
Theorem validation_survives_json (definition : TableSchemaDefinition) :
  validateSchema definition = Returns ->
  ~ proto_before_config (keys definition) ->
  exists rebuilt,
    runDeserializeSchema (serializeSchema definition) = Some rebuilt
    /\ validateSchema rebuilt = Returns.
Proof.
  intros Hv Hsafe. rewrite <- serialized_keys in Hsafe.
  exists (deserializeSchema (serializeSchema definition)).
  split; [now apply runDeserializeSchema_returns |].
  unfold validateSchema at 1, entries at 1 in Hv.
  apply validateEntries_returns in Hv. destruct Hv as [Hl Hs].
  apply labelled_document_passes; simpl; unfold entries;
    apply Forall_forall; intros d Hd; apply in_map_iff in Hd;
    destruct Hd as [e [<- He]].
  - apply serialized_labelled. rewrite Forall_forall in Hl. now apply Hl.
  - apply serialized_slider_in_order. rewrite Forall_forall in Hs.
    now apply Hs.
Qed.

End SerializerAndValidator.

Lemma validation_survives_json_witness :
  exists rebuilt,
    Serialize.runDeserializeSchema
      (Serialize.serializeSchema
         [("latency", slider_column "Latency" 0 5000)])
    = Some rebuilt
    /\ Validate.validateSchema (host := ExampleHost.host) rebuilt
       = Validate.Returns.
Proof.
  apply (validation_survives_json (host := ExampleHost.host)).
  - reflexivity.
  - apply no_proto_is_safe. simpl. intros [H | []]. discriminate.
Defined.

(* ------------------------------------------------------------------ *)
(** ** Array-index keys name their index once *)
(* ------------------------------------------------------------------ *)

Section ArrayIndex.
Import Js.

Lemma digit_of_bound (c : ascii) (d : N) :
  digit_of c = Some d -> (d <= 9)%N.
Proof.
  unfold digit_of.
  destruct ((48 <=? N_of_ascii c) && (N_of_ascii c <=? 57))%N eqn:E;
    [| discriminate].
  intros [= <-]. apply andb_true_iff in E. destruct E as [E1 E2].
  apply N.leb_le in E1, E2. lia.
Qed.

Lemma digit_of_inj (c1 c2 : ascii) (d : N) :
  digit_of c1 = Some d -> digit_of c2 = Some d -> c1 = c2.
Proof.
  unfold digit_of.
  destruct ((48 <=? N_of_ascii c1) && (N_of_ascii c1 <=? 57))%N eqn:E1;
    [| discriminate].
  destruct ((48 <=? N_of_ascii c2) && (N_of_ascii c2 <=? 57))%N eqn:E2;
    [| discriminate].
  intros [= <-] [= H].
  apply andb_true_iff in E1, E2. destruct E1 as [E1 _], E2 as [E2 _].
  apply N.leb_le in E1, E2.
  assert (Heq : N_of_ascii c1 = N_of_ascii c2) by lia.
  rewrite <- (ascii_N_embedding c1), <- (ascii_N_embedding c2).
  now rewrite Heq.
Qed.

Lemma digit_of_zero (c : ascii) :
  digit_of c = Some 0%N -> c = "0"%char.
Proof. intros H. now apply (digit_of_inj c "0"%char 0%N). Qed.

Lemma parse_digits_same_length (s1 : string) :
  forall (s2 : string) (acc1 acc2 v : N),
    String.length s1 = String.length s2 ->
    parse_digits s1 acc1 = Some v -> parse_digits s2 acc2 = Some v ->
    acc1 = acc2 /\ s1 = s2.
Proof.
  induction s1 as [| c1 r1 IH]; intros [| c2 r2] acc1 acc2 v Hlen;
    simpl in *; try discriminate.
  - intros [= <-] [= <-]. now split.
  - destruct (digit_of c1) as [d1 |] eqn:E1; [| discriminate].
    destruct (digit_of c2) as [d2 |] eqn:E2; [| discriminate].
    intros H1 H2. injection Hlen as Hlen.
    destruct (IH r2 _ _ v Hlen H1 H2) as [Hacc ->].
    pose proof (digit_of_bound _ _ E1). pose proof (digit_of_bound _ _ E2).
    assert (acc1 = acc2 /\ d1 = d2) as [-> ->] by lia.
    split; [reflexivity |]. f_equal. exact (digit_of_inj _ _ _ E1 E2).
Qed.

Definition width (s : string) : N := N.of_nat (String.length s).

Lemma parse_digits_bounds (s : string) :
  forall acc v : N,
    parse_digits s acc = Some v ->
    (acc * 10 ^ width s <= v < (acc + 1) * 10 ^ width s)%N.
Proof.
  unfold width. induction s as [| c r IH]; intros acc v; simpl String.length.
  - simpl. intros [= <-]. lia.
  - cbn [parse_digits].
    destruct (digit_of c) as [d |] eqn:E; [| discriminate].
    intros H. apply IH in H. pose proof (digit_of_bound _ _ E).
    rewrite Nat2N.inj_succ, N.pow_succ_r'.
    set (p := (10 ^ N.of_nat (String.length r))%N) in *.
    nia.
Qed.

(** The shape of an array-index key: the digit 0 alone, or a digit that is
    not 0 followed by digits. *)
Lemma array_index_shape (s : string) (n : N) :
  array_index s = Some n ->
  (s = "0" /\ n = 0%N)
  \/ exists c r d,
       s = String c r /\ digit_of c = Some d /\ (1 <= d)%N
       /\ parse_digits r d = Some n.
Proof.
  destruct s as [| c r]; [discriminate |]. cbn [array_index].
  destruct ((c =? "0")%char && negb (r =? "")) eqn:E; [discriminate |].
  cbn [parse_digits].
  destruct (digit_of c) as [d |] eqn:Ed; [| discriminate].
  change (0 * 10 + d)%N with d.
  destruct (parse_digits r d) as [v |] eqn:Ev; [| discriminate].
  destruct (v <? 4294967295)%N; [| discriminate]. intros [= <-].
  destruct (N.eq_dec d 0) as [-> | Hd].
  - left. apply digit_of_zero in Ed. subst c.
    rewrite Ascii.eqb_refl in E. simpl in E.
    apply negb_false_iff, String.eqb_eq in E. subst r.
    simpl in Ev. injection Ev as <-. now split.
  - right. exists c, r, d. repeat split; try assumption. lia.
Qed.

(** Two keys with the same array index are the same key. *)
Lemma array_index_inj (s1 s2 : string) (n : N) :
  array_index s1 = Some n -> array_index s2 = Some n -> s1 = s2.
Proof.
  intros H1 H2.
  apply array_index_shape in H1, H2.
  destruct H1 as [[-> ->] | [c1 [r1 [d1 [-> [E1 [L1 P1]]]]]]],
           H2 as [[-> E] | [c2 [r2 [d2 [-> [E2 [L2 P2]]]]]]].
  - reflexivity.
  - apply parse_digits_bounds in P2.
    assert (0 < 10 ^ width r2)%N by (apply N.neq_0_lt_0, N.pow_nonzero; lia).
    nia.
  - subst n. apply parse_digits_bounds in P1.
    assert (0 < 10 ^ width r1)%N by (apply N.neq_0_lt_0, N.pow_nonzero; lia).
    nia.
  - pose proof (digit_of_bound _ _ E1). pose proof (digit_of_bound _ _ E2).
    pose proof (parse_digits_bounds _ _ _ P1) as B1.
    pose proof (parse_digits_bounds _ _ _ P2) as B2.
    assert (Hlen : String.length r1 = String.length r2).
    { destruct (Nat.lt_trichotomy (String.length r1) (String.length r2))
        as [Hlt | [Heq | Hgt]]; [exfalso | exact Heq | exfalso].
      - assert (Hp : (10 ^ (width r1 + 1) <= 10 ^ width r2)%N)
          by (apply N.pow_le_mono_r; unfold width; lia).
        rewrite N.add_1_r, N.pow_succ_r' in Hp. nia.
      - assert (Hp : (10 ^ (width r2 + 1) <= 10 ^ width r1)%N)
          by (apply N.pow_le_mono_r; unfold width; lia).
        rewrite N.add_1_r, N.pow_succ_r' in Hp. nia. }
    destruct (parse_digits_same_length r1 r2 d1 d2 n Hlen P1 P2) as [-> ->].
    f_equal. exact (digit_of_inj _ _ _ E1 E2).
Qed.

End ArrayIndex.

(* ------------------------------------------------------------------ *)
(** ** Objects built by assignment enumerate in creation order *)
(* ------------------------------------------------------------------ *)

Section AssignedObjects.
Context {V : Type}.
Import Js.

(** The keys are distinct own keys, and each may be enumerated before all
    that follow it. *)
Fixpoint ordered_keys (ks : list string) : Prop :=
  match ks with
  | [] => True
  | k :: rest =>
      k <> "__proto__" /\ ~ In k rest
      /\ (forall k', In k' rest -> may_precede k k' = true)
      /\ ordered_keys rest
  end.

Lemma existsb_eqb_In (k : string) (seen : list string) :
  existsb (fun k' => k' =? k) seen = true <-> In k seen.
Proof.
  rewrite existsb_exists. split.
  - intros [x [Hx E]]. apply String.eqb_eq in E. now subst.
  - intros H. exists k. split; [exact H | apply String.eqb_refl].
Qed.

Lemma creation_ordered_spec (ks : list string) :
  forall seen,
    creation_ordered seen ks = true
    <-> ordered_keys ks
        /\ forall k, In k ks ->
             ~ In k seen /\ forall s, In s seen -> may_precede s k = true.
Proof.
  induction ks as [| k rest IH]; intros seen; simpl.
  - split; [intros _; split; [exact I | intros k []] | reflexivity].
  - rewrite !andb_true_iff, IH, negb_true_iff, negb_true_iff, forallb_forall.
    rewrite <- not_true_iff_false, <- not_true_iff_false.
    rewrite String.eqb_eq, existsb_eqb_In.
    split.
    + intros [[[Hp Hs] Hm] [Hrest Hall]]. split.
      * repeat split; try assumption.
        -- intros Hin. destruct (Hall k Hin) as [Hn _]. apply Hn.
           apply in_or_app. right. now left.
        -- intros k' Hin. destruct (Hall k' Hin) as [_ Hm']. apply Hm'.
           apply in_or_app. right. now left.
      * intros k0 [<- | Hin]; [now split |].
        destruct (Hall k0 Hin) as [Hn Hm']. split.
        -- intros Hs'. apply Hn. apply in_or_app. now left.
        -- intros s Hs'. apply Hm'. apply in_or_app. now left.
    + intros [[Hp [Hn [Hm Hrest]]] Hall].
      destruct (Hall k (or_introl eq_refl)) as [Hks Hkm].
      repeat split; try assumption.
      * intros Hin. apply in_app_or in Hin.
        destruct Hin as [Hin | [<- | []]].
        -- now apply (Hall k0 (or_intror H)).
        -- now apply Hn.
      * intros s Hin. apply in_app_or in Hin.
        destruct Hin as [Hin | [<- | []]].
        -- now apply (Hall k0 (or_intror H)).
        -- now apply Hm.
Qed.

Lemma creation_ordered_iff (ks : list string) :
  creation_ordered [] ks = true <-> ordered_keys ks.
Proof.
  rewrite creation_ordered_spec. split; [tauto |].
  intros H. split; [exact H |]. intros k _. split; [tauto | intros s []].
Qed.

Lemma keys_overwrite (k : string) (v : V) (o : Obj V) :
  keys (overwrite k v o) = keys o.
Proof.
  unfold keys. induction o as [| [k' v'] o IH]; simpl; [reflexivity |].
  destruct (k' =? k) eqn:E; simpl.
  - apply String.eqb_eq in E. now subst.
  - now rewrite IH.
Qed.

Lemma has_In (k : string) (o : Obj V) :
  has k o = true <-> In k (keys o).
Proof. rewrite has_keys. apply existsb_eqb_In. Qed.

Lemma ordered_keys_snoc (k : string) (ks : list string) :
  k <> "__proto__" -> ~ In k ks -> array_index k = None ->
  ordered_keys ks -> ordered_keys (ks ++ [k]).
Proof.
  intros Hp Hn Hi. induction ks as [| k0 ks IH]; simpl.
  - intros _. repeat split; auto; try (intros ? []).
  - intros [Hp0 [Hn0 [Hm0 Hrest]]]. repeat split.
    + exact Hp0.
    + intros Hin. apply in_app_or in Hin. destruct Hin as [Hin | [<- | []]].
      * now apply Hn0.
      * apply Hn. now left.
    + intros k' Hin. apply in_app_or in Hin.
      destruct Hin as [Hin | [<- | []]].
      * now apply Hm0.
      * unfold may_precede. now rewrite Hi.
    + apply IH; [| exact Hrest]. intros Hin. apply Hn. now right.
Qed.

Lemma keys_insert_index (n : N) (k : string) (v : V) (o : Obj V) :
  forall k', In k' (keys (insert_index n k v o)) <-> k' = k \/ In k' (keys o).
Proof.
  unfold keys. induction o as [| [k0 v0] o IH]; intros k'; simpl.
  - intuition.
  - destruct (array_index k0) as [n0 |]; [destruct (n <? n0)%N |]; simpl;
      try (intuition; fail).
    rewrite IH. intuition.
Qed.

Lemma ordered_keys_insert_index (n : N) (k : string) (v : V) (o : Obj V) :
  k <> "__proto__" -> array_index k = Some n -> ~ In k (keys o) ->
  ordered_keys (keys o) -> ordered_keys (keys (insert_index n k v o)).
Proof.
  intros Hp Hi. induction o as [| [k0 v0] o IH]; intros Hn Ho.
  - simpl. repeat split; auto; try (intros ? []).
  - assert (Hfront :
              (forall m, array_index k0 = Some m -> (n < m)%N) ->
              ordered_keys (keys ((k, v) :: (k0, v0) :: o))).
    { intros Hlt. simpl. simpl in Ho, Hn.
      destruct Ho as [Hp0 [Hn0 [Hm0 Hrest]]].
      repeat split; try assumption.
      intros k' [<- | Hin].
      - unfold may_precede. rewrite Hi.
        destruct (array_index k0) as [m |] eqn:E0; [| reflexivity].
        apply N.ltb_lt. now apply Hlt.
      - specialize (Hm0 k' Hin). unfold may_precede in *. rewrite Hi.
        destruct (array_index k') as [m' |]; [| reflexivity].
        destruct (array_index k0) as [m |] eqn:E0; [| discriminate].
        apply N.ltb_lt in Hm0. apply N.ltb_lt.
        specialize (Hlt m eq_refl). lia. }
    cbn [insert_index].
    destruct (array_index k0) as [n0 |] eqn:E0.
    + destruct (n <? n0)%N eqn:El.
      * apply Hfront. intros m [= <-]. now apply N.ltb_lt.
      * simpl in Ho, Hn. destruct Ho as [Hp0 [Hn0 [Hm0 Hrest]]].
        change (keys ((k0, v0) :: insert_index n k v o))
          with (k0 :: keys (insert_index n k v o)).
        simpl. repeat split.
        -- exact Hp0.
        -- intros Hin. apply keys_insert_index in Hin.
           destruct Hin as [-> | Hin]; [apply Hn; now left | now apply Hn0].
        -- intros k' Hin. apply keys_insert_index in Hin.
           destruct Hin as [-> | Hin]; [| now apply Hm0].
           unfold may_precede. rewrite Hi, E0. apply N.ltb_lt.
           apply N.ltb_ge in El.
           assert (n0 <> n).
           { intros ->. apply Hn. left.
             exact (array_index_inj _ _ _ E0 Hi). }
           lia.
        -- apply IH; [| exact Hrest]. intros Hin. apply Hn. now right.
    + apply Hfront. discriminate.
Qed.

(** An assignment keeps the keys in creation order. *)
Lemma ordered_keys_set (k : string) (v : V) (o : Obj V) :
  ordered_keys (keys o) -> ordered_keys (keys (set k v o)).
Proof.
  intros Ho. unfold set.
  destruct (k =? "__proto__") eqn:Ep; [exact Ho |].
  apply String.eqb_neq in Ep.
  destruct (has k o) eqn:Eh.
  - now rewrite keys_overwrite.
  - assert (Hn : ~ In k (keys o)).
    { intros Hin. apply has_In in Hin. congruence. }
    destruct (array_index k) as [n |] eqn:Ei.
    + now apply ordered_keys_insert_index.
    + unfold keys. rewrite map_app. simpl.
      now apply ordered_keys_snoc.
Qed.

End AssignedObjects.

(* ------------------------------------------------------------------ *)
(** ** What the deserializer builds *)
(* ------------------------------------------------------------------ *)

Section Normalisation.
Import Js Serialize.

(** The keys of a reconstructed definition enumerate in creation order. *)
Lemma deserializeSchema_ordered (json : SchemaJSON) :
  creation_ordered [] (keys (deserializeSchema json)) = true.
Proof.
  apply creation_ordered_iff. unfold deserializeSchema.
  assert (Hgen : forall cols (acc : Obj ColBuilder),
             ordered_keys (keys acc) ->
             ordered_keys
               (keys
                  (fold_left
                     (fun definition col_ =>
                        set (cd_key col_) (deserializeColumn col_)
                          definition)
                     cols acc))).
  { induction cols as [| d cols IH]; intros acc Hacc; simpl; [exact Hacc |].
    apply IH. now apply ordered_keys_set. }
  apply Hgen. exact I.
Qed.

Lemma rebuilt_kind_restorable (d : ColumnDescriptor) :
  restorable_kind (rebuilt_config d).
Proof.
  unfold restorable_kind, rebuilt_config, pickFactory.
  destruct (cd_dataType d), (cd_enumValues d),
    (cd_arrayItemType d) as [[[] []] |]; simpl;
    repeat first [split | reflexivity | eexists].
Qed.

Lemma rebuilt_display_restorable (d : ColumnDescriptor) :
  restorable_display (rebuilt_config d).
Proof.
  unfold restorable_display, rebuilt_config. cbn [c_display c_kind].
  unfold rebuilt_display.
  set (displayType :=
         if dd_type (cd_display d) =? "custom"
         then defaultDisplayType (cd_dataType d)
         else dd_type (cd_display d)).
  destruct ((displayType =? "number") && truthy_opt (dd_unit (cd_display d)))
    eqn:En.
  - apply andb_true_iff in En. destruct En as [_ Hu].
    right. simpl. split; [reflexivity | now left].
  - destruct ((displayType =? "text") || (displayType =? "code")
              || (displayType =? "boolean") || (displayType =? "badge")
              || (displayType =? "timestamp")) eqn:Es.
    + left. simpl. rewrite !orb_true_iff, !String.eqb_eq in Es.
      intuition.
    + unfold pickFactory.
      destruct (cd_dataType d), (cd_enumValues d),
        (cd_arrayItemType d) as [[[] []] |]; simpl;
        first [ left; simpl; tauto
              | right; split; [reflexivity | now right] ].
Qed.

Lemma rebuilt_filter_restorable (d : ColumnDescriptor) :
  restorable_filter (rebuilt_config d).
Proof.
  unfold restorable_filter, rebuilt_config. cbn [c_filter].
  destruct (cd_filter d) as [fd |]; [| exact I]. simpl.
  unfold rebuilt_filter.
  destruct (fd_type fd), (fd_min fd), (fd_max fd); simpl;
    repeat first [split | reflexivity | eexists].
Qed.

(** Every rebuilt column is one the serializer and the deserializer
    restore. *)
Lemma deserializeColumn_restorable (key : string) (d : ColumnDescriptor) :
  restorable (key, deserializeColumn d).
Proof.
  unfold restorable. simpl. rewrite deserializeColumn_config.
  split; [apply rebuilt_kind_restorable |].
  split; [apply rebuilt_display_restorable | apply rebuilt_filter_restorable].
Qed.

(** Serialize what the deserializer built from a document. *)
Definition normalise (json : SchemaJSON) : SchemaJSON :=
  serializeSchema (deserializeSchema json).

(** Normalising twice is normalising once, on the definitions built. *)
Lemma normalise_twice (json : SchemaJSON) :
  normalise (normalise json) = normalise json.
Proof.
  unfold normalise.
  change (serializeSchema
            (deserializeSchema (serializeSchema (deserializeSchema json))))
    with (roundTrip (deserializeSchema json)).
  apply roundTrip_of_restorable.
  - apply deserializeSchema_ordered.
  - apply Forall_forall. intros e He.
    apply deserializeSchema_members in He. destruct He as [d [_ ->]].
    apply deserializeColumn_restorable.
Qed.

(** The same as it runs: [None] when [deserializeSchema] throws. *)
Definition runNormalise (json : SchemaJSON) : option SchemaJSON :=
  option_map serializeSchema (runDeserializeSchema json).

Lemma ordered_keys_no_proto (ks : list string) :
  ordered_keys ks -> ~ In "__proto__" ks.
Proof.
  induction ks as [| k ks IH]; [intros _ [] |].
  intros [Hp [_ [_ Hrest]]] [Hk | Hin]; [now apply Hp | now apply IH].
Qed.

Lemma normalised_keys_safe (json : SchemaJSON) :
  ~ proto_before_config (map cd_key (columns (normalise json))).
Proof.
  apply no_proto_is_safe. unfold normalise.
  unfold serializeSchema, entries. cbn [columns]. rewrite map_map.
  erewrite map_ext by (intros e; apply serializeEntry_key).
  pose proof (deserializeSchema_ordered json) as Ho.
  apply creation_ordered_iff in Ho.
  now apply ordered_keys_no_proto.
Qed.

(** X11. Deserializing and serializing a document again is a normal form.
    For every document on which [deserializeSchema] does not throw (no key
    [__proto__] before the first key [_config]), whatever else it holds
    (duplicate keys, array-index keys, unknown display types, sliders
    without bounds, falsy texts), the result is a document on which doing
    the same again does not throw and changes nothing. *)
Theorem normalise_idempotent (json : SchemaJSON) :
  ~ proto_before_config (map cd_key (columns json)) ->
  exists doc,
    runNormalise json = Some doc /\ runNormalise doc = Some doc.
Proof.
  intros Hsafe. exists (normalise json). unfold runNormalise.
  rewrite (runDeserializeSchema_returns json Hsafe).
  split; [reflexivity |].
  rewrite (runDeserializeSchema_returns _ (normalised_keys_safe json)).
  cbn [option_map]. f_equal. apply normalise_twice.
Qed.

End Normalisation.

Lemma normalise_idempotent_witness :
  exists doc,
    runNormalise
      {| columns := [level_descriptor "level" ["info"];
                     unbounded_slider_descriptor "latency" "Latency";
                     level_descriptor "level" ["warn"; "error"]] |}
    = Some doc
    /\ runNormalise doc = Some doc.
Proof.
  apply (normalise_idempotent
           {| columns := [level_descriptor "level" ["info"];
                          unbounded_slider_descriptor "latency" "Latency";
                          level_descriptor "level" ["warn"; "error"]] |}).
  apply no_proto_is_safe. simpl.
  intros [H | [H | [H | []]]]; discriminate.
Defined.

(* ------------------------------------------------------------------ *)
(** ** Inference: the columns and the rules one by one *)
(* ------------------------------------------------------------------ *)

Section InferenceColumns.
Import Js Infer.

(** The keys of the rows of a sample, row after row; a row that is not an
    object has none. *)
Definition row_keys (row : jsval) : list string :=
  match row with
  | JObj props => map fst props
  | _ => []
  end.

Definition sample_keys (rows : list jsval) : list string :=
  flat_map row_keys rows.

Lemma has_mem {V : Type} (k : string) (m : Obj V) :
  mem k (keys m) = has k m.
Proof. unfold mem. symmetry. apply has_keys. Qed.

Section WithRuntime.
Context {host : Runtime}.

Lemma keys_Map_push (k : string) (v : jsval)
    (m : list (string * list jsval)) :
  keys (Map_push k v m) = Set_add (keys m) k.
Proof.
  unfold Set_add, mem, keys. induction m as [| [k' vs] m IH]; simpl.
  - reflexivity.
  - destruct (k' =? k) eqn:E; simpl; [reflexivity |].
    rewrite IH. now destruct (existsb (fun y => y =? k) (map fst m)).
Qed.

Lemma keys_collectRow (row : jsval) (m : list (string * list jsval)) :
  keys (collectRow m row) = fold_left Set_add (row_keys row) (keys m).
Proof.
  destruct row; try reflexivity. simpl.
  revert m. induction props as [| [k v] props IH]; intros m.
  - reflexivity.
  - cbn [fold_left map]. rewrite IH. cbn [fst snd].
    now rewrite keys_Map_push.
Qed.

Lemma keys_fold_collectRow (rows : list jsval)
    (m : list (string * list jsval)) :
  keys (fold_left collectRow rows m)
  = fold_left Set_add (sample_keys rows) (keys m).
Proof.
  revert m. induction rows as [| row rows IH]; intros m.
  - reflexivity.
  - cbn [fold_left]. rewrite IH, keys_collectRow.
    unfold sample_keys. cbn [flat_map]. now rewrite fold_left_app.
Qed.

Lemma collect_keys (rows : list jsval) :
  keys (collect rows) = first_seen (sample_keys rows).
Proof.
  unfold collect. rewrite keys_fold_collectRow. apply new_Set_first_seen.
Qed.

Lemma inferred_keys (m : list (string * list jsval)) :
  map cd_key (map (fun e => inferColDescriptor (fst e) (snd e)) m) = keys m.
Proof.
  rewrite map_map. unfold keys. apply map_ext.
  intros e. apply inferColDescriptor_key.
Qed.

(** X12. The inferred document has one column for each key that occurs in
    a row of the sample, in the order in which the keys are first seen; rows
    that are not objects contribute nothing. *)
Theorem inferred_columns_follow_first_seen_keys (rows : list jsval) :
  map cd_key (columns (inferSchemaFromJSON (JArr rows)))
  = first_seen (sample_keys rows).
Proof.
  cbn [inferSchemaFromJSON columns].
  rewrite inferred_keys. apply collect_keys.
Qed.

(** The column inferred for a key. *)
Definition inferred_column (key : string) (rows : list jsval)
  : option ColumnDescriptor :=
  find (fun d => cd_key d =? key) (columns (inferSchemaFromJSON (JArr rows))).

Lemma inferred_column_of_values (key : string) (rows : list jsval) :
  sample_values key rows <> [] ->
  inferred_column key rows
  = Some (inferColDescriptor key (sample_values key rows)).
Proof. apply column_of_key. Qed.

Lemma inferred_column_of_non_null (key : string) (rows : list jsval) :
  non_null_values key rows <> [] ->
  inferred_column key rows
  = Some (inferColDescriptor key (sample_values key rows)).
Proof.
  intros Hne. apply inferred_column_of_values.
  now apply (filter_nonempty _ _ Hne).
Qed.

(** X13. A key whose values in the sample are all null or undefined gets
    a plain string column with an input filter. *)
Theorem nulls_infer_string (rows : list jsval) (key : string) :
  sample_values key rows <> [] ->
  non_null_values key rows = [] ->
  inferred_column key rows
  = Some (makeDescriptor key (keyToLabel key) KString
            (Some (plain_filter Input))).
Proof.
  intros Hs Hn. rewrite (inferred_column_of_values _ _ Hs).
  unfold inferColDescriptor. fold (non_null_values key rows).
  now rewrite Hn.
Qed.

(** X14. When the non-null values of a key are all strings that are ISO
    timestamps, the column is a timestamp with a timerange filter, however
    few distinct values there are: this rule is tried before the one for
    enumerations. *)
Theorem iso_strings_infer_timestamp (rows : list jsval) (key : string) :
  non_null_values key rows <> [] ->
  (forall v, In v (non_null_values key rows) ->
     exists s, v = JStr s /\ isIso8601 s = true) ->
  inferred_column key rows
  = Some (makeDescriptor key (keyToLabel key) KTimestamp
            (Some (plain_filter Timerange))).
Proof.
  intros Hne Hiso. rewrite (inferred_column_of_non_null _ _ Hne).
  unfold inferColDescriptor. fold (non_null_values key rows).
  rewrite (length_eqb_0 _ Hne).
  assert (Hall : forallb
                   (fun v => match v with
                             | JStr s => isIso8601 s
                             | _ => false
                             end) (non_null_values key rows) = true).
  { apply forallb_forall. intros v Hv.
    destruct (Hiso v Hv) as [s [-> Hs]]. exact Hs. }
  now rewrite Hall.
Qed.

(** X15. When the non-null values of a key are all booleans, the column is
    a boolean with a checkbox filter that lists no options. *)
Theorem booleans_infer_boolean (rows : list jsval) (key : string) :
  non_null_values key rows <> [] ->
  (forall v, In v (non_null_values key rows) -> exists b, v = JBool b) ->
  inferred_column key rows
  = Some (makeDescriptor key (keyToLabel key) KBoolean
            (Some (plain_filter Checkbox))).
Proof.
  intros Hne Hb. rewrite (inferred_column_of_non_null _ _ Hne).
  unfold inferColDescriptor. fold (non_null_values key rows).
  rewrite (length_eqb_0 _ Hne).
  assert (Hall : forallb is_boolean (non_null_values key rows) = true).
  { apply forallb_forall. intros v Hv.
    destruct (Hb v Hv) as [b ->]. reflexivity. }
  rewrite (forallb_excluded is_boolean _ _ Hne Hall)
    by (intros [] Hx; simpl in *; congruence).
  rewrite (forallb_excluded is_boolean _ _ Hne Hall)
    by (intros [] Hx; simpl in *; congruence).
  now rewrite Hall.
Qed.

(** X16. When the non-null values of a key are all objects that are not
    arrays, the column is a record without filter. *)
Theorem objects_infer_record (rows : list jsval) (key : string) :
  non_null_values key rows <> [] ->
  (forall v, In v (non_null_values key rows) -> exists props, v = JObj props) ->
  inferred_column key rows
  = Some (makeDescriptor key (keyToLabel key) KRecord None).
Proof.
  intros Hne Ho. rewrite (inferred_column_of_non_null _ _ Hne).
  unfold inferColDescriptor. fold (non_null_values key rows).
  rewrite (length_eqb_0 _ Hne).
  set (is_record := fun v => typeof_is_object v && negb (Array_isArray v)).
  assert (Hall : forallb is_record (non_null_values key rows) = true).
  { apply forallb_forall. intros v Hv.
    destruct (Ho v Hv) as [props ->]. reflexivity. }
  rewrite (forallb_excluded is_record _ _ Hne Hall)
    by (intros [] Hx; unfold is_record in *; simpl in *; congruence).
  rewrite (forallb_excluded is_record _ _ Hne Hall)
    by (intros [] Hx; unfold is_record in *; simpl in *; congruence).
  rewrite (forallb_excluded is_record is_boolean _ Hne Hall)
    by (intros [] Hx; unfold is_record in *; simpl in *; congruence).
  rewrite (forallb_excluded is_record is_number _ Hne Hall)
    by (intros [] Hx; unfold is_record in *; simpl in *; congruence).
  rewrite (forallb_excluded is_record Array_isArray _ Hne Hall)
    by (intros [] Hx; unfold is_record in *; simpl in *; congruence).
  now rewrite Hall.
Qed.

(** Two values pass the same type test of the inference. *)
Definition same_type (a b : jsval) : bool :=
  match a, b with
  | JNull, JNull | JUndefined, JUndefined => true
  | JBool _, JBool _ | JNum _, JNum _ | JStr _, JStr _ => true
  | JArr _, JArr _ | JObj _, JObj _ => true
  | _, _ => false
  end.

Lemma forallb_two {A : Type} (p : A -> bool) (l : list A) (a b : A) :
  In a l -> In b l -> (p a && p b = false) -> forallb p l = false.
Proof.
  intros Ha Hb Hp. apply not_true_is_false. intros E.
  rewrite forallb_forall in E.
  rewrite (E a Ha), (E b Hb) in Hp. discriminate.
Qed.

(** X17. When two non-null values of a key are of different types (a
    string and a number, a number and an array, ...), no rule applies and
    the column falls back to a plain string with an input filter. *)
Theorem mixed_types_infer_string
    (rows : list jsval) (key : string) (a b : jsval) :
  In a (non_null_values key rows) ->
  In b (non_null_values key rows) ->
  same_type a b = false ->
  inferred_column key rows
  = Some (makeDescriptor key (keyToLabel key) KString
            (Some (plain_filter Input))).
Proof.
  intros Ha Hb Hab.
  assert (Hne : non_null_values key rows <> []).
  { intros E. rewrite E in Ha. contradiction. }
  assert (Hna : is_nullish a = false).
  { apply filter_In in Ha. now apply negb_true_iff. }
  assert (Hnb : is_nullish b = false).
  { apply filter_In in Hb. now apply negb_true_iff. }
  rewrite (inferred_column_of_non_null _ _ Hne).
  unfold inferColDescriptor. fold (non_null_values key rows).
  rewrite (length_eqb_0 _ Hne).
  repeat (rewrite (forallb_two _ _ a b Ha Hb);
          [| destruct a, b; simpl in *; try reflexivity; try discriminate;
             now rewrite ?andb_false_r]).
  reflexivity.
Qed.

Lemma qmin_le (a b : Q) : (qmin a b <= a)%Q /\ (qmin a b <= b)%Q.
Proof.
  unfold qmin. destruct (Qle_bool a b) eqn:E.
  - apply Qle_bool_iff in E. split; [apply Qle_refl | exact E].
  - split; [| apply Qle_refl]. apply Qlt_le_weak, Qnot_le_lt.
    intros H. apply Qle_bool_iff in H. congruence.
Qed.

Lemma qmax_le (a b : Q) : (a <= qmax a b)%Q /\ (b <= qmax a b)%Q.
Proof.
  unfold qmax. destruct (Qle_bool a b) eqn:E.
  - apply Qle_bool_iff in E. split; [exact E | apply Qle_refl].
  - split; [apply Qle_refl |]. apply Qlt_le_weak, Qnot_le_lt.
    intros H. apply Qle_bool_iff in H. congruence.
Qed.

(** The result of the fold is a member, below all members. *)
Lemma fold_qmin_spec (xs : list Q) :
  forall x,
    In (fold_left qmin xs x) (x :: xs)
    /\ forall y, In y (x :: xs) -> (fold_left qmin xs x <= y)%Q.
Proof.
  induction xs as [| a xs IH]; intros x; cbn [fold_left].
  - split; [now left |]. intros y [<- | []]. apply Qle_refl.
  - destruct (IH (qmin x a)) as [Hin Hle]. split.
    + destruct Hin as [E | Hin]; [| right; right; exact Hin].
      rewrite <- E. unfold qmin.
      destruct (Qle_bool x a); [now left | right; now left].
    + pose proof (Hle _ (or_introl eq_refl)) as Hm.
      destruct (qmin_le x a) as [Hx Ha].
      intros y [<- | [<- | Hy]].
      * exact (Qle_trans _ _ _ Hm Hx).
      * exact (Qle_trans _ _ _ Hm Ha).
      * apply Hle. now right.
Qed.

Lemma fold_qmax_spec (xs : list Q) :
  forall x,
    In (fold_left qmax xs x) (x :: xs)
    /\ forall y, In y (x :: xs) -> (y <= fold_left qmax xs x)%Q.
Proof.
  induction xs as [| a xs IH]; intros x; cbn [fold_left].
  - split; [now left |]. intros y [<- | []]. apply Qle_refl.
  - destruct (IH (qmax x a)) as [Hin Hle]. split.
    + destruct Hin as [E | Hin]; [| right; right; exact Hin].
      rewrite <- E. unfold qmax.
      destruct (Qle_bool x a); [right; now left | now left].
    + pose proof (Hle _ (or_introl eq_refl)) as Hm.
      destruct (qmax_le x a) as [Hx Ha].
      intros y [<- | [<- | Hy]].
      * exact (Qle_trans _ _ _ Hx Hm).
      * exact (Qle_trans _ _ _ Ha Hm).
      * apply Hle. now right.
Qed.

Lemma In_numbers_of (n : Q) (vs : list jsval) :
  In n (numbers_of vs) <-> In (JNum n) vs.
Proof.
  unfold numbers_of. rewrite in_flat_map. split.
  - intros [v [Hv Hn]]. destruct v; try contradiction.
    destruct Hn as [<- | []]. exact Hv.
  - intros H. exists (JNum n). split; [exact H | now left].
Qed.

(** [Math.min] and [Math.max] of a list that is not empty: members of the
    list that bound it. *)
Lemma Math_min_max_spec (nums : list Q) :
  nums <> [] ->
  exists lo hi,
    Math_min nums = Some lo /\ Math_max nums = Some hi
    /\ In lo nums /\ In hi nums
    /\ forall n, In n nums -> (lo <= n <= hi)%Q.
Proof.
  destruct nums as [| x xs]; [contradiction |]. intros _.
  destruct (fold_qmin_spec xs x) as [Hlo Hle].
  destruct (fold_qmax_spec xs x) as [Hhi Hge].
  exists (fold_left qmin xs x), (fold_left qmax xs x).
  repeat split; auto.
Qed.

(** X18. When the non-null values of a key are all finite numbers, and one
    of them is not an integer of the millisecond range, the column is a
    number shown as a number. Its filter is an input when all the values
    are equal; otherwise it is a slider whose bounds are the least and the
    greatest value of the sample, so that the lower bound is strictly below
    the upper one. ([NaN] is outside the model: [Math.min] and [Math.max]
    of a sample that holds it are [NaN].) *)
Theorem numbers_infer_number (rows : list jsval) (key : string) :
  (forall v, In v (non_null_values key rows) -> exists n, v = JNum n) ->
  (exists n, In (JNum n) (non_null_values key rows) /\ isUnixMs n = false) ->
  exists d,
    inferred_column key rows = Some d
    /\ cd_dataType d = KNumber
    /\ cd_display d = {| dd_type := "number"; dd_unit := None |}
    /\ ((forall a b,
           In (JNum a) (non_null_values key rows) ->
           In (JNum b) (non_null_values key rows) -> (a == b)%Q) ->
        cd_filter d = Some (plain_filter Input))
    /\ (forall a b,
          In (JNum a) (non_null_values key rows) ->
          In (JNum b) (non_null_values key rows) -> ~ (a == b)%Q ->
          exists lo hi,
            cd_filter d
            = Some {| fd_type := Slider; fd_defaultOpen := false;
                      fd_commandDisabled := false; fd_options := None;
                      fd_min := Some lo; fd_max := Some hi |}
            /\ In (JNum lo) (non_null_values key rows)
            /\ In (JNum hi) (non_null_values key rows)
            /\ (lo < hi)%Q
            /\ forall n, In (JNum n) (non_null_values key rows) ->
                 (lo <= n <= hi)%Q).
Proof.
  intros Hnum [n0 [Hin0 Hms0]].
  assert (Hne : non_null_values key rows <> []).
  { intros E. rewrite E in Hin0. contradiction. }
  assert (Hall : forallb is_number (non_null_values key rows) = true).
  { apply forallb_forall. intros v Hv.
    destruct (Hnum v Hv) as [n ->]. reflexivity. }
  exists (inferColDescriptor key (sample_values key rows)).
  split; [now apply inferred_column_of_non_null |].
  unfold inferColDescriptor. fold (non_null_values key rows).
  rewrite (length_eqb_0 _ Hne).
  rewrite (forallb_excluded is_number _ _ Hne Hall)
    by (intros [] Hx; simpl in *; congruence).
  assert (Hms : forallb
                  (fun v => match v with
                            | JNum n => isUnixMs n
                            | _ => false
                            end) (non_null_values key rows) = false).
  { apply not_true_is_false. intros E.
    rewrite forallb_forall in E. specialize (E _ Hin0). simpl in E.
    congruence. }
  rewrite Hms.
  rewrite (forallb_excluded is_number is_boolean _ Hne Hall)
    by (intros [] Hx; simpl in *; congruence).
  rewrite Hall.
  assert (Hnums : numbers_of (non_null_values key rows) <> []).
  { intros E. apply In_numbers_of in Hin0. rewrite E in Hin0.
    contradiction. }
  destruct (Math_min_max_spec _ Hnums)
    as [lo [hi [Emin [Emax [Hlo [Hhi Hbound]]]]]].
  rewrite Emin, Emax. cbn [cd_dataType cd_display cd_filter makeDescriptor
                           displayMap].
  split; [reflexivity |]. split; [reflexivity |].
  apply In_numbers_of in Hlo, Hhi.
  split.
  - intros Hsame.
    assert (E : Qeq_bool lo hi = true)
      by (apply Qeq_bool_iff; now apply Hsame).
    now rewrite E.
  - intros a b Ha Hb Hab.
    assert (E : Qeq_bool lo hi = false).
    { apply not_true_is_false. intros E. apply Qeq_bool_iff in E.
      apply Hab. apply In_numbers_of in Ha, Hb.
      destruct (Hbound a Ha) as [La Ua]. destruct (Hbound b Hb) as [Lb Ub].
      rewrite <- E in Ua, Ub.
      apply Qle_antisym;
        [exact (Qle_trans _ _ _ Ua Lb) | exact (Qle_trans _ _ _ Ub La)]. }
    rewrite E. cbn [negb]. exists lo, hi.
    repeat split; try assumption.
    + apply Qnot_le_lt. intros Hle. apply not_true_iff_false in E.
      apply E, Qeq_bool_iff, Qle_antisym; [| exact Hle].
      destruct (Hbound a (proj2 (In_numbers_of a _) Ha)) as [La Ua].
      exact (Qle_trans _ _ _ La Ua).
    + apply Hbound. now apply In_numbers_of.
    + apply Hbound. now apply In_numbers_of.
Qed.

(** The items of the arrays a key has in the sample, one level of nesting
    removed, without null and undefined. *)
Definition array_items (key : string) (rows : list jsval) : list jsval :=
  filter (fun v => negb (is_nullish v)) (flat (non_null_values key rows)).

(** X19. When the non-null values of a key are all arrays, the column is an
    array. If the arrays together hold at least one item that is not null,
    all these items are strings and at most 10 of them are distinct, the
    items form an enumeration and the filter is a checkbox over the distinct
    items in first-seen order. In every other case (only empty arrays, an
    item that is not a string, 11 or more distinct strings) the column has
    no item type and no filter. *)
Theorem arrays_infer_array (rows : list jsval) (key : string) :
  non_null_values key rows <> [] ->
  (forall v, In v (non_null_values key rows) -> exists items, v = JArr items) ->
  let items := array_items key rows in
  let distinct := first_seen (strings_of items) in
  (items <> [] /\ (forall v, In v items -> exists s, v = JStr s)
   /\ (List.length distinct <= 10)%nat ->
   inferred_column key rows
   = Some (arrayOfEnumDescriptor key (keyToLabel key) distinct))
  /\ (items = [] \/ (exists v, In v items /\ is_string v = false)
      \/ (11 <= List.length distinct)%nat ->
      inferred_column key rows
      = Some (makeDescriptor key (keyToLabel key) KArray None)).
Proof.
  intros Hne Harr items distinct.
  assert (Hall : forallb Array_isArray (non_null_values key rows) = true).
  { apply forallb_forall. intros v Hv.
    destruct (Harr v Hv) as [l ->]. reflexivity. }
  rewrite (inferred_column_of_non_null _ _ Hne).
  unfold inferColDescriptor. fold (non_null_values key rows).
  rewrite (length_eqb_0 _ Hne).
  rewrite (forallb_excluded Array_isArray _ _ Hne Hall)
    by (intros [] Hx; simpl in *; congruence).
  rewrite (forallb_excluded Array_isArray _ _ Hne Hall)
    by (intros [] Hx; simpl in *; congruence).
  rewrite (forallb_excluded Array_isArray is_boolean _ Hne Hall)
    by (intros [] Hx; simpl in *; congruence).
  rewrite (forallb_excluded Array_isArray is_number _ Hne Hall)
    by (intros [] Hx; simpl in *; congruence).
  rewrite Hall. fold (array_items key rows). fold items.
  rewrite new_Set_first_seen. fold distinct.
  split.
  - intros [Hitems [Hstr Hle]].
    rewrite (length_eqb_0 _ Hitems).
    assert (Hs : forallb is_string items = true).
    { apply forallb_forall. intros v Hv.
      destruct (Hstr v Hv) as [s ->]. reflexivity. }
    rewrite Hs. apply Nat.leb_le in Hle. now rewrite Hle.
  - intros [Hitems | [[v [Hv Hs]] | Hge]].
    + now rewrite Hitems.
    + assert (E : forallb is_string items = false).
      { apply not_true_is_false. intros E. rewrite forallb_forall in E.
        rewrite (E v Hv) in Hs. discriminate. }
      rewrite E. now rewrite andb_false_r.
    + assert (E : (List.length distinct <=? 10)%nat = false)
        by (apply Nat.leb_gt; lia).
      rewrite E. now rewrite andb_false_r.
Qed.

End WithRuntime.
End InferenceColumns.

Section InferenceColumnExamples.
Import Infer.

Definition note_rows : list jsval :=
  [ JObj [("note", JNull)]; JArr []; JObj [("note", JUndefined)] ].

Definition day_rows : list jsval :=
  [ JObj [("at", JStr "2024-01-15T10:30:00Z")];
    JObj [("at", JStr "2024-01-16")];
    JObj [("at", JNull)] ].

Definition flag_rows : list jsval :=
  [ JObj [("ok", JBool true)]; JObj [("ok", JBool false)] ].

Definition meta_rows : list jsval :=
  [ JObj [("meta", JObj [("region", JStr "ams")])];
    JObj [("meta", JObj [])] ].

Definition mixed_rows : list jsval :=
  [ JObj [("id", JStr "a1")]; JObj [("id", JNum 7)] ].

Definition latency_rows : list jsval :=
  [ JObj [("latency", JNum 120)]; JObj [("latency", JNum (5 # 2))];
    JObj [("latency", JNum 48)] ].

Definition tag_rows : list jsval :=
  [ JObj [("tags", JArr [JStr "api"; JStr "edge"])];
    JObj [("tags", JArr [JNull; JStr "api"])];
    JObj [("tags", JArr [])] ].

End InferenceColumnExamples.

Lemma nulls_infer_string_witness :
  inferred_column (host := ExampleHost.host) "note" note_rows
  = Some (Infer.makeDescriptor "note" "Note" KString
            (Some (Infer.plain_filter Input))).
Proof.
  apply (nulls_infer_string (host := ExampleHost.host) note_rows "note").
  - discriminate.
  - reflexivity.
Defined.

Lemma iso_strings_infer_timestamp_witness :
  inferred_column (host := ExampleHost.host) "at" day_rows
  = Some (Infer.makeDescriptor "at" "At" KTimestamp
            (Some (Infer.plain_filter Timerange))).
Proof.
  apply (iso_strings_infer_timestamp (host := ExampleHost.host)
           day_rows "at").
  - discriminate.
  - intros v Hv. simpl in Hv. destruct Hv as [<- | [<- | []]].
    + exists "2024-01-15T10:30:00Z". split; reflexivity.
    + exists "2024-01-16". split; reflexivity.
Defined.

Lemma booleans_infer_boolean_witness :
  inferred_column (host := ExampleHost.host) "ok" flag_rows
  = Some (Infer.makeDescriptor "ok" "Ok" KBoolean
            (Some (Infer.plain_filter Checkbox))).
Proof.
  apply (booleans_infer_boolean (host := ExampleHost.host) flag_rows "ok").
  - discriminate.
  - intros v Hv. simpl in Hv. destruct Hv as [<- | [<- | []]].
    + now exists true.
    + now exists false.
Defined.

Lemma objects_infer_record_witness :
  inferred_column (host := ExampleHost.host) "meta" meta_rows
  = Some (Infer.makeDescriptor "meta" "Meta" KRecord None).
Proof.
  apply (objects_infer_record (host := ExampleHost.host) meta_rows "meta").
  - discriminate.
  - intros v Hv. simpl in Hv. destruct Hv as [<- | [<- | []]].
    + now exists [("region", Infer.JStr "ams")].
    + now exists [].
Defined.

Lemma mixed_types_infer_string_witness :
  inferred_column (host := ExampleHost.host) "id" mixed_rows
  = Some (Infer.makeDescriptor "id" "Id" KString
            (Some (Infer.plain_filter Input))).
Proof.
  apply (mixed_types_infer_string (host := ExampleHost.host) mixed_rows "id"
           (Infer.JStr "a1") (Infer.JNum 7)).
  - simpl. now left.
  - simpl. right. now left.
  - reflexivity.
Defined.

Lemma numbers_infer_number_witness :
  exists d,
    inferred_column (host := ExampleHost.host) "latency" latency_rows = Some d
    /\ cd_dataType d = KNumber
    /\ cd_filter d
       = Some {| fd_type := Slider; fd_defaultOpen := false;
                 fd_commandDisabled := false; fd_options := None;
                 fd_min := Some (5 # 2); fd_max := Some 120 |}.
Proof.
  destruct (numbers_infer_number (host := ExampleHost.host)
              latency_rows "latency") as [d [Hd [Hk [_ [_ Hslider]]]]].
  - intros v Hv. simpl in Hv. destruct Hv as [<- | [<- | [<- | []]]].
    + now exists 120.
    + now exists (5 # 2).
    + now exists 48.
  - exists 120. split; [simpl; now left | reflexivity].
  - exists d. split; [exact Hd |]. split; [exact Hk |].
    vm_compute in Hd. injection Hd as <-. reflexivity.
Defined.

Lemma arrays_infer_array_witness :
  inferred_column (host := ExampleHost.host) "tags" tag_rows
  = Some (Infer.arrayOfEnumDescriptor "tags" "Tags" ["api"; "edge"]).
Proof.
  apply (arrays_infer_array (host := ExampleHost.host) tag_rows "tags").
  - discriminate.
  - intros v Hv. simpl in Hv. destruct Hv as [<- | [<- | [<- | []]]];
      eexists; reflexivity.
  - split; [discriminate |]. split.
    + intros v Hv. simpl in Hv. destruct Hv as [<- | [<- | [<- | []]]];
        eexists; reflexivity.
    + simpl. lia.
Defined.

(* ------------------------------------------------------------------ *)
(** ** Inference, then deserialization *)
(* ------------------------------------------------------------------ *)

Section InferredDocuments.
Import Js Infer Validate Serialize.
Context {host : Runtime}.

Lemma inferColDescriptor_label (key : string) (values : list jsval) :
  cd_label (inferColDescriptor key values) = keyToLabel key.
Proof.
  unfold inferColDescriptor.
  repeat match goal with
         | |- context [if ?c then _ else _] => destruct c
         end; reflexivity.
Qed.

Lemma numbers_of_nonempty (l : list jsval) :
  l <> [] -> forallb is_number l = true -> numbers_of l <> [].
Proof.
  destruct l as [| v l]; [contradiction |]. intros _ H. simpl in H.
  apply andb_true_iff in H. destruct H as [Hv _].
  destruct v; discriminate.
Qed.

(** On a column of numbers the two bounds exist and are in order. *)
Lemma number_bounds (l : list jsval) :
  Nat.eqb (List.length l) 0 = false -> forallb is_number l = true ->
  exists lo hi,
    Math_min (numbers_of l) = Some lo /\ Math_max (numbers_of l) = Some hi
    /\ (lo <= hi)%Q.
Proof.
  intros Hlen Hall.
  assert (Hne : l <> []) by (intros ->; discriminate).
  destruct (Math_min_max_spec _ (numbers_of_nonempty l Hne Hall))
    as [lo [hi [E1 [E2 [Hlo [_ Hb]]]]]].
  exists lo, hi. repeat split; try assumption.
  destruct (Hb lo Hlo) as [_ H]. exact H.
Qed.

Lemma inferColDescriptor_slider_in_order
    (key : string) (values : list jsval) :
  descriptor_slider_in_order (inferColDescriptor key values).
Proof.
  unfold descriptor_slider_in_order, inferColDescriptor.
  set (nonNull := filter (fun v => negb (is_nullish v)) values).
  intros fd min max.
  destruct (Nat.eqb (List.length nonNull) 0) eqn:Elen;
    [simpl; intros [= <-]; discriminate |].
  destruct (forallb _ nonNull); [simpl; intros [= <-]; discriminate |].
  destruct (forallb _ nonNull); [simpl; intros [= <-]; discriminate |].
  destruct (forallb is_boolean nonNull);
    [simpl; intros [= <-]; discriminate |].
  destruct (forallb is_number nonNull) eqn:Enum.
  - destruct (number_bounds nonNull Elen Enum) as [lo [hi [E1 [E2 Hle]]]].
    rewrite E1, E2. simpl.
    destruct (Qeq_bool lo hi); simpl; intros [= <-]; [discriminate |].
    simpl. intros _ [= <-] [= <-]. exact Hle.
  - repeat match goal with
           | |- context [if ?c then _ else _] => destruct c
           end; simpl; intros [= <-]; discriminate.
Qed.

(** The host turns no character into nothing. *)
Definition upper_keeps_text : Prop :=
  forall s : string, s <> "" -> toUpperCase s <> "".

Lemma underscores_nonempty (s : string) :
  s <> "" -> underscores_to_spaces s <> "".
Proof. destruct s; [contradiction | discriminate]. Qed.

Lemma split_camel_nonempty (s : string) : s <> "" -> split_camel s <> "".
Proof.
  destruct s as [| a [| b t]]; [contradiction | discriminate |].
  intros _. simpl. destruct (is_lower a && is_upper b); discriminate.
Qed.

Lemma char_bytes_positive (c : ascii) : exists n, char_bytes c = S n.
Proof.
  unfold char_bytes.
  destruct (nat_of_ascii c <? 192)%nat; [now exists 0%nat |].
  destruct (nat_of_ascii c <? 224)%nat; [now exists 1%nat |].
  destruct (nat_of_ascii c <? 240)%nat; [now exists 2%nat |].
  now exists 3%nat.
Qed.

Lemma keyToLabel_nonempty (key : string) :
  upper_keeps_text -> key <> "" -> keyToLabel key <> "".
Proof.
  intros Hup Hkey. unfold keyToLabel.
  pose proof (split_camel_nonempty _ (underscores_nonempty _ Hkey)) as Hl.
  destruct (split_camel (underscores_to_spaces key)) as [| c r];
    [contradiction |].
  unfold charAt0, first_unit, upper_then_rest.
  destruct (char_bytes c <? 4)%nat; [| exact Hl].
  destruct (char_bytes_positive c) as [n ->]. cbn [substring].
  assert (Hc : String c (substring 0 n r) <> "") by discriminate.
  apply Hup in Hc.
  destruct (toUpperCase (String c (substring 0 n r))); [contradiction |].
  discriminate.
Qed.

(** X20. A document inferred from a sample, with finite numbers, in which
    no key is the empty string or [__proto__] is deserialized without
    error, and the definition obtained passes validation: every label is
    non-empty and every slider has its bounds in order. The host is only
    required to turn no character into the empty string. *)
Theorem inferred_schema_validates (rows : list jsval) :
  upper_keeps_text ->
  ~ In "" (sample_keys rows) ->
  ~ In "__proto__" (sample_keys rows) ->
  exists definition,
    runDeserializeSchema (inferSchemaFromJSON (JArr rows)) = Some definition
    /\ validateSchema definition = Returns.
Proof.
  intros Hup Hkeys Hproto.
  assert (Hcols : map cd_key (columns (inferSchemaFromJSON (JArr rows)))
                  = first_seen (sample_keys rows)).
  { cbn [inferSchemaFromJSON columns].
    rewrite inferred_keys. apply collect_keys. }
  exists (deserializeSchema (inferSchemaFromJSON (JArr rows))).
  split.
  { apply runDeserializeSchema_returns, no_proto_is_safe.
    rewrite Hcols. intros Hin. apply Hproto.
    now apply (first_seen_members (sample_keys rows)). }
  apply labelled_document_passes.
  - apply Forall_forall. intros d Hd.
    assert (Hk : In (cd_key d) (sample_keys rows)).
    { apply (first_seen_members (sample_keys rows)). rewrite <- Hcols.
      now apply in_map. }
    simpl in Hd. apply in_map_iff in Hd. destruct Hd as [[k vs] [<- _]].
    unfold descriptor_labelled. rewrite inferColDescriptor_label.
    rewrite inferColDescriptor_key in Hk. simpl in *.
    apply keyToLabel_nonempty; [exact Hup |]. intros ->. contradiction.
  - apply Forall_forall. intros d Hd. simpl in Hd.
    apply in_map_iff in Hd. destruct Hd as [[k vs] [<- _]].
    apply inferColDescriptor_slider_in_order.
Qed.

Lemma options_restored (l : list Option_) :
  map (fun o => {| opt_label := opt_label o; opt_value := opt_value o |}) l
  = l.
Proof.
  induction l as [| [] l IH]; simpl; [reflexivity | now rewrite IH].
Qed.

(** A descriptor the inference made comes back from the deserializer and
    the serializer as it was, unless it is an array without item type. *)
Lemma inferred_descriptor_restored (key : string) (values : list jsval) :
  (cd_dataType (inferColDescriptor key values) = KArray ->
   cd_arrayItemType (inferColDescriptor key values) <> None) ->
  serializeEntry (key, deserializeColumn (inferColDescriptor key values))
  = inferColDescriptor key values.
Proof.
  unfold serializeEntry. rewrite deserializeColumn_config.
  unfold inferColDescriptor.
  set (nonNull := filter (fun v => negb (is_nullish v)) values).
  destruct (Nat.eqb (List.length nonNull) 0) eqn:Elen; [reflexivity |].
  destruct (forallb _ nonNull); [reflexivity |].
  destruct (forallb _ nonNull); [reflexivity |].
  destruct (forallb is_boolean nonNull); [reflexivity |].
  destruct (forallb is_number nonNull) eqn:Enum.
  - destruct (number_bounds nonNull Elen Enum) as [lo [hi [E1 [E2 Hle]]]].
    rewrite E1, E2. destruct (Qeq_bool lo hi); reflexivity.
  - repeat match goal with
           | |- context [forallb ?p nonNull] => destruct (forallb p nonNull)
           end;
      repeat match goal with
             | |- context [if ?c then arrayOfEnumDescriptor _ _ _ else _] =>
                 destruct c
             | |- context [if ?c then enumDescriptor _ _ _ else _] =>
                 destruct c
             end;
      intros H; simpl; rewrite ?options_restored; try reflexivity;
      exfalso; now apply H.
Qed.

(** X21. A document inferred from a sample is already in the normal form
    of the deserializer and the serializer: rebuilding the definition and
    serializing it gives the document back, unchanged. This needs the keys
    to enumerate in the order they were first seen (no [__proto__], no
    array index after another key) and no column to be an array without
    item type, which comes back as a string. *)
Theorem inferred_schema_is_normal (rows : list jsval) :
  creation_ordered [] (first_seen (sample_keys rows)) = true ->
  (forall d, In d (columns (inferSchemaFromJSON (JArr rows))) ->
     cd_dataType d = KArray -> cd_arrayItemType d <> None) ->
  normalise (inferSchemaFromJSON (JArr rows)) = inferSchemaFromJSON (JArr rows).
Proof.
  intros Hkeys Harr. unfold normalise.
  rewrite <- collect_keys, <- inferred_keys in Hkeys.
  change (map (fun e => inferColDescriptor (fst e) (snd e)) (collect rows))
    with (columns (inferSchemaFromJSON (JArr rows))) in Hkeys.
  destruct (inferSchemaFromJSON (JArr rows)) as [cols] eqn:Einf.
  cbn [columns] in *.
  rewrite (deserializeSchema_entries cols Hkeys).
  unfold serializeSchema, entries. f_equal. rewrite map_map.
  assert (Hmem : forall d, In d cols ->
                   exists k vs, d = inferColDescriptor k vs).
  { intros d Hd. simpl in Einf. injection Einf as <-.
    apply in_map_iff in Hd. destruct Hd as [[k vs] [<- _]]. now exists k, vs. }
  clear Einf Hkeys.
  induction cols as [| d cols IH]; [reflexivity |]. cbn [map].
  rewrite IH.
  - f_equal. destruct (Hmem d (or_introl eq_refl)) as [k [vs ->]].
    rewrite inferColDescriptor_key.
    apply inferred_descriptor_restored. apply Harr. now left.
  - intros d' Hd'. apply Harr. now right.
  - intros d' Hd'. apply Hmem. now right.
Qed.

End InferredDocuments.

Lemma upper_keeps_text_example :
  upper_keeps_text (host := ExampleHost.host).
Proof. intros [| c r] H; [contradiction | discriminate]. Qed.

Lemma inferred_schema_validates_witness :
  exists definition,
    Serialize.runDeserializeSchema
      (Infer.inferSchemaFromJSON (host := ExampleHost.host)
         (Infer.JArr latency_rows))
    = Some definition
    /\ Validate.validateSchema (host := ExampleHost.host) definition
       = Validate.Returns.
Proof.
  apply (inferred_schema_validates (host := ExampleHost.host) latency_rows).
  - exact upper_keeps_text_example.
  - simpl. intros [H | [H | [H | []]]]; discriminate.
  - simpl. intros [H | [H | [H | []]]]; discriminate.
Defined.

Lemma inferred_schema_is_normal_witness :
  normalise
    (Infer.inferSchemaFromJSON (host := ExampleHost.host)
       (Infer.JArr (latency_rows ++ tag_rows ++ day_rows)))
  = Infer.inferSchemaFromJSON (host := ExampleHost.host)
      (Infer.JArr (latency_rows ++ tag_rows ++ day_rows)).
Proof.
  apply (inferred_schema_is_normal (host := ExampleHost.host)
           (latency_rows ++ tag_rows ++ day_rows)).
  - reflexivity.
  - intros d Hd. simpl in Hd.
    destruct Hd as [<- | [<- | [<- | []]]]; discriminate.
Defined.

(* ------------------------------------------------------------------ *)
(** ** The generators *)
(* ------------------------------------------------------------------ *)

Section GeneratedFields.
Import Js Generators.

Definition has_filter (e : string * ColBuilder) : bool :=
  match c_filter (_config (snd e)) with
  | Some _ => true
  | None => false
  end.

Definition has_sheet (e : string * ColBuilder) : bool :=
  match c_sheet (_config (snd e)) with
  | Some _ => true
  | None => false
  end.

(** A column with a filter gives one field, which carries the key, the
    label and the type of the filter. *)
Lemma filterFieldOf_Some (key : string) (b : ColBuilder) (f : FilterConfig) :
  c_filter (_config b) = Some f ->
  exists fld,
    filterFieldOf (key, b) = [fld]
    /\ ff_value fld = key /\ ff_label fld = c_label (_config b)
    /\ ff_type fld = f_type f
    /\ (f_type f = Slider ->
        ff_min fld = Some match f_min f with Some min => min | None => 0 end
        /\ ff_max fld
           = Some match f_max f with Some max => max | None => 100 end).
Proof.
  intros Hf. unfold filterFieldOf. rewrite Hf.
  destruct (f_type f) eqn:Et; eexists; split; try reflexivity; simpl;
    rewrite ?Et; repeat split; try reflexivity; discriminate.
Qed.

Lemma filterFieldOf_None (key : string) (b : ColBuilder) :
  c_filter (_config b) = None -> filterFieldOf (key, b) = [].
Proof. intros Hf. unfold filterFieldOf. now rewrite Hf. Qed.

Lemma filter_fields_keys (schema : TableSchemaDefinition) :
  map ff_value (generateFilterFields schema)
  = map fst (filter has_filter schema).
Proof.
  unfold generateFilterFields, entries.
  induction schema as [| [key b] schema IH]; [reflexivity |].
  cbn [flat_map filter]. rewrite map_app, IH.
  change (has_filter (key, b))
    with (match c_filter (_config b) with
          | Some _ => true
          | None => false
          end).
  destruct (c_filter (_config b)) as [f |] eqn:Ef.
  - destruct (filterFieldOf_Some key b f Ef) as [fld [-> [Hv _]]].
    cbn [map app fst]. now rewrite Hv.
  - now rewrite (filterFieldOf_None key b Ef).
Qed.

(** X22. The filter fields are those of the columns that have a filter,
    one field each, in the order of the definition; a field is named by the
    key of its column and carries the label of the column and the type of
    its filter. *)
Theorem filter_fields_follow_filterable_columns
    (schema : TableSchemaDefinition) :
  map ff_value (generateFilterFields schema)
  = map fst (filter has_filter schema)
  /\ forall fld, In fld (generateFilterFields schema) ->
       exists b f,
         In (ff_value fld, b) schema /\ c_filter (_config b) = Some f
         /\ ff_label fld = c_label (_config b)
         /\ ff_type fld = f_type f.
Proof.
  split; [apply filter_fields_keys |].
  intros fld Hfld. unfold generateFilterFields, entries in Hfld.
  apply in_flat_map in Hfld. destruct Hfld as [[key b] [He Hfld]].
  destruct (c_filter (_config b)) as [f |] eqn:Ef.
  - destruct (filterFieldOf_Some key b f Ef) as [fld' [E [Hv [Hl [Ht _]]]]].
    rewrite E in Hfld. destruct Hfld as [<- | []].
    exists b, f. rewrite Hv. repeat split; assumption.
  - rewrite (filterFieldOf_None key b Ef) in Hfld. contradiction.
Qed.

(** X23. The sheet fields are those of the columns on which sheet was
    called, one field each, in the order of the definition; a field is
    readonly exactly when its column has no filter, and its label is the
    label given to sheet, even an empty one, or else the label of the
    column. *)
Theorem sheet_fields_follow_sheet_columns (schema : TableSchemaDefinition) :
  map sf_id (generateSheetFields schema) = map fst (filter has_sheet schema)
  /\ forall s, In s (generateSheetFields schema) ->
       exists b sheet,
         In (sf_id s, b) schema /\ c_sheet (_config b) = Some sheet
         /\ (sf_type s = Readonly <-> c_filter (_config b) = None)
         /\ sf_label s
            = match s_label sheet with
              | Some text => text
              | None => c_label (_config b)
              end.
Proof.
  unfold generateSheetFields, entries. split.
  - induction schema as [| [key b] schema IH]; [reflexivity |].
    cbn [flat_map filter]. rewrite map_app, IH.
    change (has_sheet (key, b))
      with (match c_sheet (_config b) with
            | Some _ => true
            | None => false
            end).
    unfold sheetFieldOf.
    destruct (c_sheet (_config b)); reflexivity.
  - intros s Hs. apply in_flat_map in Hs. destruct Hs as [[key b] [He Hs]].
    unfold sheetFieldOf in Hs.
    destruct (c_sheet (_config b)) as [sheet |] eqn:Esh; [| contradiction].
    destruct Hs as [<- | []]. exists b, sheet. cbn [sf_id sf_type sf_label].
    repeat split; try assumption.
    + destruct (c_filter (_config b)); [discriminate | reflexivity].
    + intros ->. reflexivity.
Qed.

End GeneratedFields.

Section GeneratedSchema.
Import Js Generators.
Variable Field : Type.
Variables field_string field_number field_boolean field_timestamp : Field.
Variable field_stringLiteral : list string -> Field.
Variable field_array : Field -> Field.
Variable delimiter : Field -> string -> Field.
Variables ARRAY_DELIMITER RANGE_DELIMITER SLIDER_DELIMITER : string.

Local Abbreviation schemaField :=
  (filterSchemaField Field field_string field_number field_boolean
     field_timestamp field_stringLiteral field_array delimiter
     ARRAY_DELIMITER RANGE_DELIMITER SLIDER_DELIMITER).

Local Abbreviation schemaDefinition :=
  (filterSchemaDefinition Field field_string field_number field_boolean
     field_timestamp field_stringLiteral field_array delimiter
     ARRAY_DELIMITER RANGE_DELIMITER SLIDER_DELIMITER).

Lemma schemaField_needs_filter (c : ColConfig) :
  c_filter c = None -> schemaField c = None.
Proof. intros H. unfold filterSchemaField. now rewrite H. Qed.

Lemma In_keys {V : Type} (k : string) (o : Obj V) :
  In k (keys o) <-> exists v, In (k, v) o.
Proof.
  unfold keys. rewrite in_map_iff. split.
  - intros [[k' v] [<- H]]. now exists v.
  - intros [v H]. now exists (k, v).
Qed.

(** X24. Every key of the filter schema is the name of a filter field: the
    fields of the URL state are among the filters of the interface. The
    key is not [__proto__], and its column is one for which the switch
    assigns a field. (Not every filter field has a key here: an input
    filter on a boolean column has none.) *)
Theorem filter_schema_keys_have_filter_fields
    (schema : TableSchemaDefinition) (key : string) :
  In key (keys (schemaDefinition schema)) ->
  key <> "__proto__"
  /\ (exists b, In (key, b) schema /\ schemaField (_config b) <> None)
  /\ In key (map ff_value (generateFilterFields schema)).
Proof.
  unfold filterSchemaDefinition, entries.
  assert (Hgen : forall es (acc : Obj Field),
             In key
               (keys
                  (fold_left
                     (fun definition (e : string * ColBuilder) =>
                        match schemaField (_config (snd e)) with
                        | Some f => set (fst e) f definition
                        | None => definition
                        end) es acc)) ->
             In key (keys acc)
             \/ (key <> "__proto__"
                 /\ exists b,
                      In (key, b) es /\ schemaField (_config b) <> None)).
  { induction es as [| [k b] es IH]; intros acc; cbn [fold_left];
      [now left |].
    intros Hin. destruct (IH _ Hin) as [Hacc | [Hp [b' [Hb' Hs]]]].
    - cbn [fst snd] in Hacc.
      destruct (schemaField (_config b)) as [f |] eqn:Ef; [| now left].
      apply In_keys in Hacc. destruct Hacc as [v Hv].
      unfold set in Hv. destruct (k =? "__proto__") eqn:Ep.
      + left. apply In_keys. now exists v.
      + assert (Hv' : In (key, v) (set k f acc))
          by (unfold set; now rewrite Ep).
        apply set_entries in Hv'. destruct Hv' as [[= -> ->] | Hv'].
        * right. split; [now apply String.eqb_neq |].
          exists b. split; [now left |]. congruence.
        * left. apply In_keys. now exists v.
    - right. split; [exact Hp |]. exists b'. split; [now right | exact Hs]. }
  intros Hin. destruct (Hgen _ _ Hin) as [[] | [Hp [b [Hb Hs]]]].
  split; [exact Hp |]. split; [now exists b |].
  rewrite filter_fields_keys. apply in_map_iff. exists (key, b).
  split; [reflexivity |]. apply filter_In. split; [exact Hb |].
  unfold has_filter. cbn [snd].
  destruct (c_filter (_config b)) eqn:Ef; [reflexivity |].
  now rewrite (schemaField_needs_filter _ Ef) in Hs.
Qed.

End GeneratedSchema.

(* ------------------------------------------------------------------ *)
(** ** The filter fields of validated and of deserialized definitions *)
(* ------------------------------------------------------------------ *)

Section FieldsOfDefinitions.
Import Js Generators Validate Serialize.
Context {host : Runtime}.

(** X25. On a definition that passes validation no slider field gets the
    fallback bounds 0 and 100: its bounds are the two bounds of the filter
    of its column, and the minimum is not greater than the maximum. *)
Theorem validated_sliders_keep_bounds
    (schema : TableSchemaDefinition) (fld : FilterField) :
  validateSchema schema = Returns ->
  In fld (generateFilterFields schema) ->
  ff_type fld = Slider ->
  exists b f min max,
    In (ff_value fld, b) schema /\ c_filter (_config b) = Some f
    /\ f_min f = Some min /\ f_max f = Some max
    /\ ff_min fld = Some min /\ ff_max fld = Some max /\ ~ (max < min)%Q.
Proof.
  intros Hv Hfld Ht. unfold validateSchema, entries in Hv.
  apply validateEntries_returns in Hv. destruct Hv as [_ Hs].
  unfold generateFilterFields, entries in Hfld.
  apply in_flat_map in Hfld. destruct Hfld as [[key b] [He Hfld]].
  destruct (c_filter (_config b)) as [f |] eqn:Ef.
  - destruct (filterFieldOf_Some key b f Ef)
      as [fld' [E [Hval [_ [Htype Hbounds]]]]].
    rewrite E in Hfld. destruct Hfld as [<- | []].
    rewrite Htype in Ht. destruct (Hbounds Ht) as [Hmin Hmax].
    rewrite Forall_forall in Hs. specialize (Hs _ He f Ef Ht).
    destruct Hs as [min [max [Emin [Emax Hle]]]].
    rewrite Emin in Hmin. rewrite Emax in Hmax.
    exists b, f, min, max. rewrite Hval. repeat split; try assumption.
    now apply Qle_not_lt.
  - rewrite (filterFieldOf_None key b Ef) in Hfld. contradiction.
Qed.

(** A field without what JSON cannot carry: the custom component of a
    checkbox filter and the presets of a timerange filter. *)
Definition without_callbacks (fld : FilterField) : FilterField :=
  {| ff_label := ff_label fld;
     ff_value := ff_value fld;
     ff_defaultOpen := ff_defaultOpen fld;
     ff_commandDisabled := ff_commandDisabled fld;
     ff_type := ff_type fld;
     ff_options := ff_options fld;
     ff_component := None;
     ff_min := ff_min fld;
     ff_max := ff_max fld;
     ff_presets := None |}.

Lemma filterFieldOf_restored (key : string) (b : ColBuilder) :
  restorable (key, b) ->
  filterFieldOf (key, deserializeColumn (serializeEntry (key, b)))
  = map without_callbacks (filterFieldOf (key, b)).
Proof.
  intros [Hk [_ Hf]]. cbn [snd] in Hk, Hf.
  pose proof (restored_factory key b Hk) as [Ek [Ee [Ea _]]].
  unfold filterFieldOf. rewrite deserializeColumn_config.
  destruct b as [c]. cbn [_config] in *.
  unfold rebuilt_config. cbn [c_filter c_label].
  set (c0 := _config (pickFactory (serializeEntry (key, createColBuilder c))))
    in *.
  cbn [serializeEntry _config cd_filter cd_label].
  unfold restorable_filter in Hf.
  destruct (c_filter c) as [f |]; [| reflexivity].
  cbn [serializeFilter option_map].
  unfold rebuilt_filter. cbn [fd_type fd_min fd_max fd_options
                                fd_defaultOpen fd_commandDisabled].
  destruct (f_type f) eqn:Et.
  - (* input *)
    reflexivity.
  - (* checkbox *)
    cbn [map without_callbacks]. f_equal.
    unfold without_callbacks. cbn. f_equal.
    unfold checkboxOptions. cbn [f_options c_kind c_enumValues c_arrayItem].
    destruct (f_options f) as [options |].
    + now rewrite options_restored.
    + rewrite Ek, Ee.
      destruct (c_arrayItem c0) as [i0 |], (c_arrayItem c) as [i |];
        try contradiction.
      * destruct Ea as [-> ->]. reflexivity.
      * reflexivity.
  - (* slider *)
    destruct Hf as [_ [min [max [-> ->]]]]. reflexivity.
  - (* timerange *)
    reflexivity.
Qed.

(** X26. On a definition of the kind the deserializer covers, generating
    the filter fields after a trip through JSON gives the filter fields of
    the definition itself, without custom components and without date
    presets: labels, order, flags, options and slider bounds are the
    same. *)
Theorem filter_fields_survive_json (def : TableSchemaDefinition) :
  creation_ordered [] (keys def) = true ->
  Forall restorable def ->
  generateFilterFields (deserializeSchema (serializeSchema def))
  = map without_callbacks (generateFilterFields def).
Proof.
  intros Hkeys Hall. unfold serializeSchema, entries.
  rewrite deserializeSchema_entries.
  - clear Hkeys. unfold generateFilterFields, entries.
    induction Hall as [| [key b] rest Hb Hrest IH]; [reflexivity |].
    cbn [map flat_map]. rewrite map_app, <- IH.
    change (cd_key (serializeEntry (key, b))) with key.
    now rewrite (filterFieldOf_restored key b Hb).
  - rewrite map_map. unfold keys in Hkeys.
    erewrite map_ext; [exact Hkeys |].
    intros e. apply serializeEntry_key.
Qed.

End FieldsOfDefinitions.

Section GeneratorExamples.
Import Generators.

(** A schema of string-like fields, to read the generated filter schema. *)
Definition latency_field : FilterField :=
  {| ff_label := "Latency"; ff_value := "latency";
     ff_defaultOpen := None; ff_commandDisabled := None;
     ff_type := Slider; ff_options := None; ff_component := None;
     ff_min := Some 0; ff_max := Some 5000; ff_presets := None |}.

Definition host_and_latency : TableSchemaDefinition :=
  [("host", Col.filterable (Col.label Col.string "Host") (Some Input) None);
   ("latency", slider_column "Latency" 0 5000)].

End GeneratorExamples.

Lemma filter_schema_keys_have_filter_fields_witness :
  In "latency"
    (map Generators.ff_value
       (Generators.generateFilterFields host_and_latency)).
Proof.
  apply (filter_schema_keys_have_filter_fields string
           "string" "number" "boolean" "timestamp"
           (fun values => String.concat "|" values)
           (fun item => ("array of " ++ item)%string)
           (fun item by_ => (item ++ " by " ++ by_)%string)
           "," "-" "-" host_and_latency "latency").
  simpl. right. now left.
Defined.

Lemma validated_sliders_keep_bounds_witness :
  exists b f min max,
    In (Generators.ff_value latency_field, b) host_and_latency
    /\ c_filter (_config b) = Some f
    /\ f_min f = Some min /\ f_max f = Some max
    /\ Generators.ff_min latency_field = Some min
    /\ Generators.ff_max latency_field = Some max /\ ~ (max < min)%Q.
Proof.
  apply (validated_sliders_keep_bounds (host := ExampleHost.host)
           host_and_latency latency_field).
  - reflexivity.
  - simpl. right. now left.
  - reflexivity.
Defined.

Lemma filter_fields_survive_json_witness :
  Generators.generateFilterFields
    (Serialize.deserializeSchema
       (Serialize.serializeSchema host_and_latency))
  = map without_callbacks (Generators.generateFilterFields host_and_latency).
Proof.
  apply (filter_fields_survive_json host_and_latency); [reflexivity |].
  constructor; [| constructor; [| constructor]].
  - repeat split; simpl; auto.
    left. simpl. auto.
  - repeat split; simpl; auto.
    + right. simpl. auto.
    + exists 0, 5000. split; reflexivity.
Defined.

(* ------------------------------------------------------------------ *)
(** ** The presets *)
(* ------------------------------------------------------------------ *)

Section PresetColumns.
Import Js Validate Serialize Presets.
Context {host : Runtime}.

(** X27. Every preset is a valid column under any key, whatever values or
    codes it is given; the duration preset is valid exactly when the
    minimum it is given is not greater than the maximum, and so always with
    its own bounds 0 and 5000. *)
Theorem presets_pass_validation
    (key : string) (values : list string) (codes : option (list Q))
    (unit : option string) (slider : option SliderBounds) :
  Forall (fun p => validateColumn key p = Returns)
    [logLevel values; httpMethod values; httpStatus codes;
     Presets.timestamp; traceId; pathname]
  /\ (validateColumn key (duration unit slider) = Returns
      <-> match slider with
          | Some given => ~ (sb_max given < sb_min given)%Q
          | None => True
          end).
Proof.
  split; [repeat constructor |].
  unfold validateColumn, duration. simpl.
  destruct slider as [[min max] |]; simpl.
  - destruct (gt min max) eqn:E.
    + split; [discriminate |]. intros Hn. apply gt_true_iff in E.
      now contradiction Hn.
    + split; [| reflexivity]. intros _. apply gt_false_iff in E.
      now apply Qle_not_lt.
  - split; [intros _; exact I | reflexivity].
Qed.

Lemma builder_ext (a b : ColBuilder) : _config a = _config b -> a = b.
Proof. destruct a, b. simpl. now intros ->. Qed.

(** X28. Every preset survives JSON entirely: deserializing the serialized
    column gives the column back, with the same configuration. The one
    exception is a duration whose unit is the empty string, which comes back
    without unit. *)
Theorem presets_restored_from_json
    (key : string) (values : list string) (codes : option (list Q))
    (unit : option string) (slider : option SliderBounds) :
  unit <> Some "" ->
  Forall (fun p => deserializeColumn (serializeEntry (key, p)) = p)
    [logLevel values; httpMethod values; httpStatus codes;
     duration unit slider; Presets.timestamp; traceId; pathname].
Proof.
  intros Hunit.
  repeat constructor; apply builder_ext; rewrite deserializeColumn_config;
    unfold rebuilt_config; simpl; rewrite ?options_restored;
    try reflexivity.
  destruct unit as [[| c r] |]; [contradiction | |];
    destruct slider as [[min max] |]; reflexivity.
Qed.

End PresetColumns.

Lemma presets_restored_from_json_witness :
  Serialize.deserializeColumn
    (Serialize.serializeEntry
       ("duration", Presets.duration (Some "ms") None))
  = Presets.duration (Some "ms") None.
Proof.
  refine (proj1 (Forall_forall _ _)
            (presets_restored_from_json (host := ExampleHost.host)
               "duration" ["GET"; "POST"] None (Some "ms") None _) _ _).
  - discriminate.
  - simpl. auto.
Defined.

(* ------------------------------------------------------------------ *)
(** ** The sheet fields of deserialized definitions *)
(* ------------------------------------------------------------------ *)

Section SheetFieldsOfDefinitions.
Import Js Generators Serialize.

(** A sheet field without what JSON cannot carry: the component and the
    condition. *)
Definition without_renderers (s : SheetField) : SheetField :=
  {| sf_id := sf_id s;
     sf_label := sf_label s;
     sf_type := sf_type s;
     sf_component := None;
     sf_condition := None;
     sf_className := sf_className s;
     sf_skeletonClassName := sf_skeletonClassName s |}.

(** No text of the sheet configuration is the empty string, which the
    serializer drops. *)
Definition sheet_texts_kept (e : string * ColBuilder) : Prop :=
  match c_sheet (_config (snd e)) with
  | Some sheet =>
      s_label sheet <> Some "" /\ s_className sheet <> Some ""
      /\ s_skeletonClassName sheet <> Some ""
  | None => True
  end.

Lemma keep_truthy_kept (o : option string) :
  o <> Some "" -> keep_truthy o = o.
Proof.
  unfold keep_truthy. destruct o as [[| c r] |]; try reflexivity.
  intros H. now contradiction H.
Qed.

Lemma rebuilt_filter_type (c : ColConfig) (f : FilterConfig) :
  restorable_filter c -> c_filter c = Some f ->
  option_map (fun fd => f_type (rebuilt_filter fd))
    (serializeFilter (c_filter c))
  = Some (f_type f).
Proof.
  unfold restorable_filter. intros Hf Ef. rewrite Ef in *.
  cbn [serializeFilter option_map]. unfold rebuilt_filter.
  cbn [fd_type fd_min fd_max].
  destruct (f_type f) eqn:Et; try reflexivity.
  destruct Hf as [_ [min [max [-> ->]]]]. reflexivity.
Qed.

Lemma sheetFieldOf_restored (key : string) (b : ColBuilder) :
  restorable (key, b) -> sheet_texts_kept (key, b) ->
  sheetFieldOf (key, deserializeColumn (serializeEntry (key, b)))
  = map without_renderers (sheetFieldOf (key, b)).
Proof.
  intros [_ [_ Hf]] Hs. unfold sheet_texts_kept in Hs. cbn [snd] in Hf, Hs.
  unfold sheetFieldOf. rewrite deserializeColumn_config.
  destruct b as [c]. cbn [_config] in *.
  unfold rebuilt_config. cbn [c_sheet c_label c_filter].
  cbn [serializeEntry _config cd_sheet cd_label cd_filter].
  destruct (c_sheet c) as [sheet |]; [| reflexivity].
  destruct Hs as [Hl [Hc Hk]].
  cbn [serializeSheet sd_label sd_className sd_skeletonClassName].
  rewrite !keep_truthy_idem, (keep_truthy_kept _ Hl),
    (keep_truthy_kept _ Hc), (keep_truthy_kept _ Hk).
  cbn [map without_renderers sf_id sf_label sf_type sf_className
         sf_skeletonClassName s_label s_className s_skeletonClassName
         s_component s_condition].
  f_equal. f_equal.
  destruct (c_filter c) as [f |] eqn:Ef; [| reflexivity].
  pose proof (rebuilt_filter_type c f Hf Ef) as Ht. rewrite Ef in Ht.
  cbn [serializeFilter option_map] in *. now injection Ht as ->.
Qed.

(** X29. On a definition of the kind the deserializer covers, in which no
    sheet label and no sheet class name is the empty string, generating the
    sheet fields after a trip through JSON gives the sheet fields of the
    definition itself, without component and condition: ids, order, labels,
    types and class names are the same. *)
Theorem sheet_fields_survive_json (def : TableSchemaDefinition) :
  creation_ordered [] (keys def) = true ->
  Forall restorable def ->
  Forall sheet_texts_kept def ->
  generateSheetFields (deserializeSchema (serializeSchema def))
  = map without_renderers (generateSheetFields def).
Proof.
  intros Hkeys Hall Htexts. unfold serializeSchema, entries.
  rewrite deserializeSchema_entries.
  - clear Hkeys. unfold generateSheetFields, entries.
    induction Hall as [| [key b] rest Hb Hrest IH]; [reflexivity |].
    inversion Htexts as [| ? ? Hsb Hsrest]; subst.
    cbn [map flat_map]. rewrite map_app, <- (IH Hsrest).
    change (cd_key (serializeEntry (key, b))) with key.
    now rewrite (sheetFieldOf_restored key b Hb Hsb).
  - rewrite map_map. unfold keys in Hkeys.
    erewrite map_ext; [exact Hkeys |].
    intros e. apply serializeEntry_key.
Qed.

End SheetFieldsOfDefinitions.

Section SheetExamples.

Definition host_with_sheet : TableSchemaDefinition :=
  [("host",
    Col.sheet (Col.label Col.string "Host")
      (Some {| s_label := Some "Origin"; s_component := Some (Closure 1);
               s_condition := None; s_className := None;
               s_skeletonClassName := Some "w-24" |}))].

End SheetExamples.

Lemma sheet_fields_survive_json_witness :
  Generators.generateSheetFields
    (Serialize.deserializeSchema (Serialize.serializeSchema host_with_sheet))
  = map without_renderers (Generators.generateSheetFields host_with_sheet).
Proof.
  apply (sheet_fields_survive_json host_with_sheet); [reflexivity | |].
  - constructor; [| constructor].
    repeat split; simpl; auto. left. simpl. auto.
  - constructor; [| constructor].
    repeat split; discriminate.
Defined.
